(** * dsgrid dimension maps: a shallow embedding of [dsgrid/dataformat/dimmap.py]

    The development follows the Python module top to bottom: the values the
    module manipulates (ids, exceptions, insertion-ordered dictionaries), the
    enumeration catalog it consumes, the [DimensionMap] class hierarchy, the
    unit-conversion factor solver and the [Mappings] registry.  The theorems
    about them come last. *)

From Stdlib Require Import String List Bool Arith Lia Floats.
Import ListNotations.

Set Warnings "-inexact-float".
Set Implicit Arguments.

Open Scope string_scope.
Open Scope list_scope.

(* ================================================================== *)
(** ** Python values *)

(** An enumeration id is a string, or for a multi-fuel end-use enumeration a
    [(code, fuel)] tuple. *)
Inductive pyid : Type :=
| IdStr (s : string)
| IdPair (code fuel : string).

Definition pyid_eqb (a b : pyid) : bool :=
  match a, b with
  | IdStr s, IdStr t => String.eqb s t
  | IdPair c f, IdPair c' f' => String.eqb c c' && String.eqb f f'
  | _, _ => false
  end.

(** What [DimensionMap.map] hands back: [None], one id, or (for a
    disaggregation) a list of ids. *)
Inductive pyval : Type :=
| VNone
| VId (i : pyid)
| VList (l : list pyid).

(** [x in l] on a Python list. *)
Definition py_in (x : pyid) (l : list pyid) : bool := existsb (pyid_eqb x) l.

Definition str_in (x : string) (l : list string) : bool := existsb (String.eqb x) l.

(** Keys of the ratio table and of the registry are pairs of strings. *)
Definition key : Type := (string * string)%type.

Definition key_eqb (a b : key) : bool :=
  String.eqb (fst a) (fst b) && String.eqb (snd a) (snd b).

(* ================================================================== *)
(** ** Insertion-ordered dictionaries

    A Python [dict] iterates in insertion order, and assigning to a key that is
    already present replaces the value where the key stands. *)

Definition dict (K V : Type) : Type := list (K * V).

Section OrderedDict.
Variables K V : Type.
Variable eqb : K -> K -> bool.

Fixpoint dict_get (k : K) (d : dict K V) : option V :=
  match d with
  | [] => None
  | (k', v) :: rest => if eqb k k' then Some v else dict_get k rest
  end.

Definition dict_mem (k : K) (d : dict K V) : bool :=
  match dict_get k d with Some _ => true | None => false end.

Fixpoint dict_set (k : K) (v : V) (d : dict K V) : dict K V :=
  match d with
  | [] => [(k, v)]
  | (k', v') :: rest =>
      if eqb k k' then (k', v) :: rest else (k', v') :: dict_set k v rest
  end.

Definition dict_keys (d : dict K V) : list K := map fst d.
End OrderedDict.

(* ================================================================== *)
(** ** The enumeration catalog *)

(** Modelled from the spec: the module [dsgrid.dataformat.enumeration] is not
    among the sources.  An enumeration is a named, ordered collection of ids
    with display names, tagged with the class it was built from; end-use
    enumerations carry fuel and unit metadata, and the ids of a multi-fuel
    end-use enumeration are the [(code, fuel)] pairs of two parallel columns. *)
Inductive EnumClass : Type :=
| SectorEnumeration
| GeographyEnumeration
| EndUseEnumeration
| TimeEnumeration
| OtherEnumeration.

Record FuelEnumeration : Type := mkFuelEnumeration {
  fuel_enum_name : string;
  fuel_ids : list string;
  fuel_names : list string;
  fuel_units : list string
}.

Inductive Enumeration : Type :=
| Enum (cls : EnumClass) (nm : string) (the_ids : list pyid) (the_names : list string)
| SingleFuelEndUseEnumeration
    (nm : string) (the_ids : list pyid) (the_names : list string) (_fuel _units : string)
| MultiFuelEndUseEnumeration
    (nm : string) (_ids _names : list string) (fuel_enum : FuelEnumeration)
    (_fuel_ids : list string).

Definition name (e : Enumeration) : string :=
  match e with
  | Enum _ n _ _ => n
  | SingleFuelEndUseEnumeration n _ _ _ _ => n
  | MultiFuelEndUseEnumeration n _ _ _ _ => n
  end.

Definition ids (e : Enumeration) : list pyid :=
  match e with
  | Enum _ _ l _ => l
  | SingleFuelEndUseEnumeration _ l _ _ _ => l
  | MultiFuelEndUseEnumeration _ codes _ _ fuels =>
      map (fun cf => IdPair (fst cf) (snd cf)) (combine codes fuels)
  end.

Definition names (e : Enumeration) : list string :=
  match e with
  | Enum _ _ _ l => l
  | SingleFuelEndUseEnumeration _ _ l _ _ => l
  | MultiFuelEndUseEnumeration _ _ l _ _ => l
  end.

(** [isinstance(e, C)] for the classes the module tests against. *)
Definition isinstance_Sector (e : Enumeration) : bool :=
  match e with Enum SectorEnumeration _ _ _ => true | _ => false end.

Definition isinstance_Geography (e : Enumeration) : bool :=
  match e with Enum GeographyEnumeration _ _ _ => true | _ => false end.

Definition isinstance_Time (e : Enumeration) : bool :=
  match e with Enum TimeEnumeration _ _ _ => true | _ => false end.

Definition isinstance_EndUseEnumeration (e : Enumeration) : bool :=
  match e with Enum EndUseEnumeration _ _ _ => true | _ => false end.

Definition isinstance_EndUseEnumerationBase (e : Enumeration) : bool :=
  match e with
  | Enum EndUseEnumeration _ _ _ => true
  | SingleFuelEndUseEnumeration _ _ _ _ _ => true
  | MultiFuelEndUseEnumeration _ _ _ _ _ => true
  | _ => false
  end.

(** A dataset: the four enumerations its axes are expressed against. *)
Record Datafile : Type := mkDatafile {
  sector_enum : Enumeration;
  geo_enum : Enumeration;
  enduse_enum : Enumeration;
  time_enum : Enumeration
}.

(* ================================================================== *)
(** ** Exceptions and outcomes *)

(** The [DSGridError] messages of the module, each with the objects it
    formats. *)
Inductive error_message : Type :=
| TooManyItems (to_enum : Enumeration)
    (* "... to_enum {} contains too many items." *)
| ExcludeNotInFromEnum (exclude_item : pyid) (from_enum : Enumeration)
    (* "... Found {} in exclude list, which is not in {}." *)
| NotASubset
    (* "to_enum should be a subset of from_enum" *)
| IdNotInFromEnum (i : pyid) (from_enum : Enumeration)
    (* "Id {} is not in from_enum {}." *)
| IdNotInToEnum (i : pyid) (to_enum : Enumeration)
    (* "Id {} is not in to_enum {}." *)
| CannotScale (scaling_datafile : Datafile) (to_enum : Enumeration)
    (* "Datafile {} cannot be used to scale this map because ..." *)
| UnrecognizedEnumeration (to_enum : Enumeration).
    (* "to_enum {} is not a recognized enumeration type." *)

Inductive exn : Type :=
| DSGridError (m : error_message)
| DSGridNotImplemented (msg : string)
| AssertionError (msg : string)
| IndexError
| KeyError (k : pyid)
| ValueError
| AttributeError
| ZeroDivisionError.

(** Running a piece of the module returns a value, raises, or, for the one
    [while] loop of the module, uses up its budget of passes. *)
Inductive result (A : Type) : Type :=
| Return (a : A)
| Raise (e : exn)
| Diverge.
Arguments Return {A} a.
Arguments Raise {A} e.
Arguments Diverge {A}.

Definition bind {A B : Type} (m : result A) (f : A -> result B) : result B :=
  match m with
  | Return a => f a
  | Raise e => Raise e
  | Diverge => Diverge
  end.

Notation "x <- m ;; k" := (bind m (fun x => k))
  (at level 61, m at next level, right associativity).
Notation "m ;;; k" := (bind m (fun _ => k))
  (at level 61, right associativity).

(** [assert c, msg] *)
Definition assert (c : bool) (msg : string) : result unit :=
  if c then Return tt else Raise (AssertionError msg).

(** [for x in l: body x], where the body may raise. *)
Fixpoint for_each {A : Type} (l : list A) (body : A -> result unit) : result unit :=
  match l with
  | [] => Return tt
  | x :: rest => body x ;;; for_each rest body
  end.

(** [for x in l: st = body st x], threading the loop's variables. *)
Fixpoint for_fold {A S : Type} (l : list A) (st : S) (body : S -> A -> result S)
  : result S :=
  match l with
  | [] => Return st
  | x :: rest => st' <- body st x ;; for_fold rest st' body
  end.

(* ================================================================== *)
(** ** The unit-conversion factor solver

    [UnitConversionMap.CONVERSION_FACTORS], [_get_all_factors] and
    [scaling_factor].  Factors are binary64 floats, as in Python. *)

Open Scope float_scope.

Definition factors_table : Type := dict key float.

Definition CONVERSION_FACTORS : factors_table :=
  [ (("kWh", "MWh"), 1.0e-3);
    (("MWh", "GWh"), 1.0e-3);
    (("GWh", "TWh"), 1.0e-3) ].

(** [1.0 / factor]: Python raises on a zero divisor (of either sign). *)
Definition float_inverse (factor : float) : result float :=
  if PrimFloat.eqb factor 0 then Raise ZeroDivisionError else Return (1.0 / factor).

(** One iteration of the [for units, factor in factors.items()] loop. *)
Definition collect_factor (to_unit : string) (res : factors_table)
    (item : key * float) : result factors_table :=
  let '((from_u, to_u), factor) := item in
  let res1 :=
    if String.eqb to_u to_unit then dict_set key_eqb (from_u, to_u) factor res
    else res in
  if String.eqb from_u to_unit then
    inv <- float_inverse factor ;;
    Return (dict_set key_eqb (to_u, from_u) inv res1)
  else Return res1.

(** [cls._get_all_factors(to_unit, factors, multiplier)]: the ratios that reach
    [to_unit] directly or backward, each times [multiplier] when one is given. *)
Definition _get_all_factors (to_unit : string) (factors : factors_table)
    (multiplier : option float) : result factors_table :=
  res <- for_fold factors [] (collect_factor to_unit) ;;
  match multiplier with
  | None => Return res
  | Some m => Return (map (fun kv => (fst kv, snd kv * m)) res)
  end.

(** The innermost loop, [for b_key, val in candidates.items()]; the state is
    [(these_factors, something_added)]. *)
Definition add_candidate (to_unit : string) (st : factors_table * bool)
    (cand : key * float) : factors_table * bool :=
  let c_key := (fst (fst cand), to_unit) in
  if dict_mem key_eqb c_key (fst st) then st
  else (dict_set key_eqb c_key (snd cand) (fst st), true).

Definition add_candidates (to_unit : string) (candidates : factors_table)
    (st : factors_table * bool) : factors_table * bool :=
  fold_left (add_candidate to_unit) candidates st.

(** [for a_key, factor in to_expand]. *)
Definition expand_step (factors : factors_table) (to_unit : string)
    (st : factors_table * bool) (item : key * float) : result (factors_table * bool) :=
  candidates <- _get_all_factors (fst (fst item)) factors (Some (snd item)) ;;
  Return (add_candidates to_unit candidates st).

(** One pass of the body of [while something_added], up to the test of
    [key in these_factors]. *)
Definition expand_pass (factors : factors_table) (to_unit : string)
    (these_factors : factors_table) : result (factors_table * bool) :=
  let to_expand := these_factors in
  for_fold to_expand (these_factors, false) (expand_step factors to_unit).

Definition no_conversion_message (from_unit to_unit : string) : string :=
  ("No conversion factor available to go from " ++ from_unit
   ++ " to " ++ to_unit ++ ".")%string.

(** [while something_added: ...], with a budget of passes. *)
Fixpoint expand_loop (passes : nat) (factors : factors_table)
    (from_unit to_unit : string) (these_factors : factors_table) : result float :=
  match passes with
  | O => Diverge
  | S passes' =>
      st <- expand_pass factors to_unit these_factors ;;
      match dict_get key_eqb (from_unit, to_unit) (fst st) with
      | Some v => Return v
      | None =>
          if snd st then expand_loop passes' factors from_unit to_unit (fst st)
          else Raise (DSGridNotImplemented (no_conversion_message from_unit to_unit))
      end
  end.

Definition scaling_factor_passes (passes : nat) (factors : factors_table)
    (from_unit to_unit : string) : result float :=
  these_factors <- _get_all_factors to_unit factors None ;;
  match dict_get key_eqb (from_unit, to_unit) these_factors with
  | Some v => Return v
  | None => expand_loop passes factors from_unit to_unit these_factors
  end.

(** Every unit named in the table, with repetitions. *)
Definition unit_names (factors : factors_table) : list string :=
  flat_map (fun kv => [fst (fst kv); snd (fst kv)]) factors.

(** A budget no run exhausts: one pass per unit of the table, and the last
    pass that adds nothing. *)
Definition enough_passes (factors : factors_table) : nat :=
  S (length (unit_names factors)).

(** [cls.scaling_factor(from_unit, to_unit)], for a class whose
    [CONVERSION_FACTORS] is [factors]. *)
Definition scaling_factor (factors : factors_table) (from_unit to_unit : string)
  : result float :=
  scaling_factor_passes (enough_passes factors) factors from_unit to_unit.

Close Scope float_scope.

(* ================================================================== *)
(** ** The [DimensionMap] class hierarchy *)

(** [UnitConversionMap._scale_map]: one float for a single-fuel enumeration,
    otherwise a [defaultdict(lambda: 1.0)] keyed by id. *)
Inductive scale_map : Type :=
| ScalarScale (f : float)
| DictScale (d : dict pyid float).

(** An object of the hierarchy: its class and the attributes its [__init__]
    sets.  [DimensionMap_base] and [ExplicitMap] are the two base classes
    instantiated directly. *)
Inductive DimensionMap : Type :=
| DimensionMap_base (from_enum to_enum : Enumeration)
| TautologyMapping (from_to_enum : Enumeration)
| FullAggregationMap (from_enum to_enum : Enumeration) (to_id : pyid)
    (exclude_list : list pyid)
| FilterToSubsetMap (from_enum to_enum : Enumeration)
| FilterToSingleFuelMap (from_enum to_enum : Enumeration)
    (_map : dict pyid (option pyid))
| ExplicitMap (from_enum to_enum : Enumeration)
| ExplicitDisaggregation (from_enum to_enum : Enumeration)
    (_dictmap : dict pyid (list pyid)) (_scaling_datafile : option Datafile)
| ExplicitAggregation (from_enum to_enum : Enumeration) (_dictmap : dict pyid pyid)
| UnitConversionMap (from_enum to_enum : Enumeration) (_scale_map : scale_map).

Definition from_enum_of (m : DimensionMap) : Enumeration :=
  match m with
  | DimensionMap_base f _ => f
  | TautologyMapping e => e
  | FullAggregationMap f _ _ _ => f
  | FilterToSubsetMap f _ => f
  | FilterToSingleFuelMap f _ _ => f
  | ExplicitMap f _ => f
  | ExplicitDisaggregation f _ _ _ => f
  | ExplicitAggregation f _ _ => f
  | UnitConversionMap f _ _ => f
  end.

Definition to_enum_of (m : DimensionMap) : Enumeration :=
  match m with
  | DimensionMap_base _ t => t
  | TautologyMapping e => e
  | FullAggregationMap _ t _ _ => t
  | FilterToSubsetMap _ t => t
  | FilterToSingleFuelMap _ t _ => t
  | ExplicitMap _ t => t
  | ExplicitDisaggregation _ t _ _ => t
  | ExplicitAggregation _ t _ => t
  | UnitConversionMap _ t _ => t
  end.

(** [self.map(from_id)], by class.  The two [defaultdict] lookups also store
    the default under a missing key; later lookups are unchanged by that, so
    the tables are read here without it. *)
Definition DimensionMap_map (self : DimensionMap) (from_id : pyid) : result pyval :=
  match self with
  | DimensionMap_base _ _ => Return VNone
  | TautologyMapping _ => Return (VId from_id)
  | FullAggregationMap _ _ to_id exclude_list =>
      if py_in from_id exclude_list then Return VNone else Return (VId to_id)
  | FilterToSubsetMap _ to_enum =>
      if py_in from_id (ids to_enum) then Return (VId from_id) else Return VNone
  | FilterToSingleFuelMap _ _ _map =>
      match dict_get pyid_eqb from_id _map with
      | Some (Some code) => Return (VId code)
      | Some None => Return VNone
      | None => Raise (KeyError from_id)
      end
  | ExplicitMap _ _ => Return VNone
  | ExplicitDisaggregation _ _ _dictmap _ =>
      match dict_get pyid_eqb from_id _dictmap with
      | Some to_ids => Return (VList to_ids)
      | None => Return (VList [])
      end
  | ExplicitAggregation _ _ _dictmap =>
      match dict_get pyid_eqb from_id _dictmap with
      | Some to_id => Return (VId to_id)
      | None => Return VNone
      end
  | UnitConversionMap _ _ _ => Return (VId from_id)
  end.

Definition scale_factor (self : DimensionMap) (from_id : pyid) : float :=
  match self with
  | UnitConversionMap _ _ (DictScale d) =>
      match dict_get pyid_eqb from_id d with Some f => f | None => 1.0%float end
  | UnitConversionMap _ _ (ScalarScale f) => f
  | _ => 1.0%float
  end.

(** [l[i]] and [l.index(x)] on Python lists. *)
Definition py_index {A : Type} (l : list A) (i : nat) : result A :=
  match nth_error l i with Some x => Return x | None => Raise IndexError end.

Fixpoint list_index (l : list string) (x : string) : result nat :=
  match l with
  | [] => Raise ValueError
  | y :: rest =>
      if String.eqb y x then Return O else (i <- list_index rest x ;; Return (S i))
  end.

Definition enumerate {A : Type} (l : list A) : list (nat * A) :=
  combine (seq 0 (length l)) l.

(** *** FullAggregationMap *)

Definition FullAggregationMap__init__ (from_enum to_enum : Enumeration)
    (exclude_list : list pyid) : result DimensionMap :=
  if (1 <? length (ids to_enum))%nat then Raise (DSGridError (TooManyItems to_enum))
  else
    to_id <- py_index (ids to_enum) 0 ;;
    for_each exclude_list (fun exclude_item =>
      if negb (py_in exclude_item (ids from_enum))
      then Raise (DSGridError (ExcludeNotInFromEnum exclude_item from_enum))
      else Return tt) ;;;
    Return (FullAggregationMap from_enum to_enum to_id exclude_list).

(** *** FilterToSubsetMap *)

Definition FilterToSubsetMap__init__ (from_enum to_enum : Enumeration)
  : result DimensionMap :=
  for_each (ids to_enum) (fun to_id =>
    if negb (py_in to_id (ids from_enum)) then Raise (DSGridError NotASubset)
    else Return tt) ;;;
  Return (FilterToSubsetMap from_enum to_enum).

(** *** ExplicitAggregation and ExplicitDisaggregation *)

(** A correspondence table as [pandas.read_csv(filepath, dtype=str)] returns
    it: the columns [from_id] and [to_id], and optionally [from_fuel_id] and
    [to_fuel_id]. *)
Record MapRow : Type := mkMapRow {
  row_from_id : string;
  row_to_id : string;
  row_from_fuel_id : string;
  row_to_fuel_id : string
}.

Record MapData : Type := mkMapData {
  has_from_fuel_id : bool;
  has_to_fuel_id : bool;
  rows : list MapRow
}.

Definition ExplicitAggregation__init__ (from_enum to_enum : Enumeration)
    (dictmap : dict pyid pyid) : result DimensionMap :=
  _dictmap <- for_fold dictmap [] (fun _dictmap item =>
    let '(from_id, to_id) := item in
    if negb (py_in from_id (ids from_enum))
    then Raise (DSGridError (IdNotInFromEnum from_id from_enum))
    else if negb (py_in to_id (ids to_enum))
    then Raise (DSGridError (IdNotInToEnum to_id to_enum))
    else Return (dict_set pyid_eqb from_id to_id _dictmap)) ;;
  Return (ExplicitAggregation from_enum to_enum _dictmap).

(** [from_key] and [to_key] of a row in [ExplicitAggregation._make_dictmap]. *)
Definition from_key (from_fuel_enduse : bool) (row : MapRow) : pyid :=
  if from_fuel_enduse then IdPair (row_from_id row) (row_from_fuel_id row)
  else IdStr (row_from_id row).

Definition to_key (to_fuel_enduse : bool) (row : MapRow) : pyid :=
  if to_fuel_enduse then IdPair (row_to_id row) (row_to_fuel_id row)
  else IdStr (row_to_id row).

Definition ExplicitAggregation_make_dictmap (mapdata : MapData) : dict pyid pyid :=
  let from_fuel_enduse := has_from_fuel_id mapdata in
  let to_fuel_enduse := has_to_fuel_id mapdata in
  fold_left (fun res row =>
    dict_set pyid_eqb (from_key from_fuel_enduse row) (to_key to_fuel_enduse row) res)
    (rows mapdata) [].

Definition ExplicitDisaggregation_make_dictmap (mapdata : MapData)
  : dict pyid (list pyid) :=
  fold_left (fun res row =>
    let from_id := IdStr (row_from_id row) in
    let so_far :=
      match dict_get pyid_eqb from_id res with Some l => l | None => [] end in
    dict_set pyid_eqb from_id (so_far ++ [IdStr (row_to_id row)]) res)
    (rows mapdata) [].

(** The four axes a scaling datatable is indexed by. *)
Inductive Axis : Type := sector | geography | enduse | time.

Section Collaborators.

(** What the module consumes from outside [dimmap.py]: the enumeration
    methods, the datafile and datatable of a scaling source, the CSV reader
    and two string methods. *)
Variable enum_eq : Enumeration -> Enumeration -> bool.      (* [a == b] *)
Variable is_subset : Enumeration -> Enumeration -> bool.    (* [a.is_subset(b)] *)
Variable get_name : FuelEnumeration -> string -> result string.
Variable get_units : FuelEnumeration -> string -> result string.
Variable contains : Datafile -> Enumeration -> bool.
Variable read_csv : string -> MapData.
(** [Datatable(datafile)] sliced to [to_ids] on one axis, summed by that
    axis, divided by the total and read off at each of [to_ids]. *)
Variable datatable_shares : Datafile -> Axis -> list pyid -> result (list float).
Variable str_replace : string -> string -> string -> string.
Variable str_lower : string -> string.

Definition ExplicitAggregation_create_from_csv (from_enum to_enum : Enumeration)
    (filepath : string) : result DimensionMap :=
  let mapdata := read_csv filepath in
  ExplicitAggregation__init__ from_enum to_enum
    (ExplicitAggregation_make_dictmap mapdata).

Definition ExplicitDisaggregation__init__ (from_enum to_enum : Enumeration)
    (dictmap : dict pyid (list pyid)) (scaling_datafile : option Datafile)
  : result DimensionMap :=
  _dictmap <- for_fold dictmap [] (fun _dictmap item =>
    let '(from_id, to_ids) := item in
    if negb (py_in from_id (ids from_enum))
    then Raise (DSGridError (IdNotInFromEnum from_id from_enum))
    else
      for_each to_ids (fun to_id =>
        if negb (py_in to_id (ids to_enum))
        then Raise (DSGridError (IdNotInToEnum to_id to_enum))
        else Return tt) ;;;
      Return (dict_set pyid_eqb from_id to_ids _dictmap)) ;;
  match scaling_datafile with
  | Some datafile =>
      if negb (contains datafile to_enum)
      then Raise (DSGridError (CannotScale datafile to_enum))
      else Return (ExplicitDisaggregation from_enum to_enum _dictmap scaling_datafile)
  | None => Return (ExplicitDisaggregation from_enum to_enum _dictmap scaling_datafile)
  end.

Definition ExplicitDisaggregation_create_from_csv (from_enum to_enum : Enumeration)
    (filepath : string) (scaling_datafile : option Datafile) : result DimensionMap :=
  let mapdata := read_csv filepath in
  ExplicitDisaggregation__init__ from_enum to_enum
    (ExplicitDisaggregation_make_dictmap mapdata) scaling_datafile.

(** The property [default_scaling]: [self._scaling_datafile is None]. *)
Definition default_scaling (self : DimensionMap) : result bool :=
  match self with
  | ExplicitDisaggregation _ _ _ None => Return true
  | ExplicitDisaggregation _ _ _ (Some _) => Return false
  | _ => Raise AttributeError
  end.

(** [get_scalings(to_ids)].  Past the default, the weights come from the
    property [scaling_datatable], which asserts [not self.default_scaling]
    and loads the datatable once; the load and the pandas slicing are the
    collaborator [datatable_shares]. *)
Definition get_scalings (self : DimensionMap) (to_ids : list pyid)
  : result (list float) :=
  is_default <- default_scaling self ;;
  if is_default then Return (map (fun to_id => 1.0%float) to_ids)
  else
    match self with
    | ExplicitDisaggregation _ to_enum _ (Some datafile) =>
        if isinstance_Sector to_enum then datatable_shares datafile sector to_ids
        else if isinstance_Geography to_enum
        then datatable_shares datafile geography to_ids
        else if isinstance_EndUseEnumerationBase to_enum
        then datatable_shares datafile enduse to_ids
        else
          assert (isinstance_Time to_enum) "" ;;;
          datatable_shares datafile time to_ids
    | _ => Raise (AssertionError "")
    end.

(** *** FilterToSingleFuelMap *)

Definition FilterToSingleFuelMap__init__ (from_enum : Enumeration)
    (fuel_to_keep : string) : result DimensionMap :=
  match from_enum with
  | MultiFuelEndUseEnumeration nm _ids _names fuel_enum _fuel_ids =>
      assert (str_in fuel_to_keep (fuel_ids fuel_enum)) "{} is not a fuel_id in {}" ;;;
      fuel_name <- get_name fuel_enum fuel_to_keep ;;
      let to_enum_name := (nm ++ " (" ++ fuel_name ++ ")")%string in
      (* the ids of [from_enum] are the pairs of [zip(_ids, _fuel_ids)] *)
      st <- for_fold (enumerate (combine _ids _fuel_ids)) ([], [], [])
        (fun st item =>
           let '(the_ids, the_names, _map) := st in
           let '(i, (code, fuel)) := item in
           if String.eqb fuel fuel_to_keep then
             nm_i <- py_index _names i ;;
             Return (the_ids ++ [IdStr code], the_names ++ [nm_i],
                     dict_set pyid_eqb (IdPair code fuel) (Some (IdStr code)) _map)
           else
             Return (the_ids, the_names,
                     dict_set pyid_eqb (IdPair code fuel) None _map)) ;;
      let '(the_ids, the_names, _map) := st in
      fuel <- get_name fuel_enum fuel_to_keep ;;
      units <- get_units fuel_enum fuel_to_keep ;;
      let to_enum :=
        SingleFuelEndUseEnumeration to_enum_name the_ids the_names fuel units in
      Return (FilterToSingleFuelMap from_enum to_enum _map)
  | _ => Raise (AssertionError "This map only applies to MultiFuelEndUseEnumerations")
  end.

(** *** UnitConversionMap *)

Definition UnitConversionMap__init__ (factors : factors_table)
    (from_enum : Enumeration) (from_units to_units : list string)
  : result DimensionMap :=
  assert (isinstance_EndUseEnumerationBase from_enum)
    "Unit conversion applies to EndUseEnumerations" ;;;
  assert (negb (isinstance_EndUseEnumeration from_enum))
    "Old-style end-use enumerations do not include units information" ;;;
  assert (length from_units =? length to_units)%nat
    "Cannot convert {} to {} since they are of a different number" ;;;
  assert (0 <? length from_units)%nat "from_units is empty. Nothing to do." ;;;
  match from_enum with
  | SingleFuelEndUseEnumeration nm the_ids the_names _fuel _units =>
      assert (length from_units =? 1)%nat "" ;;;
      from_unit <- py_index from_units 0 ;;
      assert (String.eqb from_unit _units) "" ;;;
      to_unit <- py_index to_units 0 ;;
      let to_enum_name := str_replace nm from_unit to_unit in
      let to_enum_name :=
        str_replace to_enum_name (str_lower from_unit) (str_lower to_unit) in
      let to_enum :=
        SingleFuelEndUseEnumeration to_enum_name the_ids the_names _fuel to_unit in
      f <- scaling_factor factors from_unit to_unit ;;
      Return (UnitConversionMap from_enum to_enum (ScalarScale f))
  | MultiFuelEndUseEnumeration nm _ids _names fuel_enum _fuel_ids =>
      for_each from_units (fun from_unit =>
        assert (str_in from_unit (fuel_units fuel_enum)) "{} is not a unit in {!r}") ;;;
      to_fuel_enum_units <- for_fold (fuel_units fuel_enum) []
        (fun acc unit =>
           if str_in unit from_units then
             i <- list_index from_units unit ;;
             to_unit <- py_index to_units i ;;
             Return (acc ++ [to_unit])
           else Return (acc ++ [unit])) ;;
      let to_fuel_enum :=
        mkFuelEnumeration (fuel_enum_name fuel_enum) (fuel_ids fuel_enum)
          (fuel_names fuel_enum) to_fuel_enum_units in
      let to_enum :=
        MultiFuelEndUseEnumeration nm _ids _names to_fuel_enum _fuel_ids in
      _scale_map <- for_fold (combine _ids _fuel_ids) []
        (fun _scale_map id =>
           u <- get_units fuel_enum (snd id) ;;   (* from_enum.units(id) *)
           if str_in u from_units then
             i <- list_index from_units u ;;
             to_unit <- py_index to_units i ;;
             f <- scaling_factor factors u to_unit ;;
             Return (dict_set pyid_eqb (IdPair (fst id) (snd id)) f _scale_map)
           else Return _scale_map) ;;
      Return (UnitConversionMap from_enum to_enum (DictScale _scale_map))
  | _ => Raise (AssertionError "")
  end.

(* ---------------------------------------------------------------- *)
(** ** The [Mappings] registry *)

(** [self._mappings], keyed by [(from_enum.name, to_enum.name)]. *)
Definition Mappings : Type := dict key DimensionMap.

Definition Mappings__init__ : Mappings := [].

Definition add_mapping (self : Mappings) (mapping : DimensionMap) : Mappings :=
  dict_set key_eqb (name (from_enum_of mapping), name (to_enum_of mapping))
    mapping self.

(** The first four branches of [get_mapping]: the axis of [datafile] that
    [to_enum] belongs to. *)
Definition select_from_enum (datafile : Datafile) (to_enum : Enumeration)
  : result Enumeration :=
  if isinstance_Sector to_enum then Return (sector_enum datafile)
  else if isinstance_Geography to_enum then Return (geo_enum datafile)
  else if isinstance_EndUseEnumerationBase to_enum then Return (enduse_enum datafile)
  else if isinstance_Time to_enum then Return (time_enum datafile)
  else Raise (DSGridError (UnrecognizedEnumeration to_enum)).

(** The inner loop over [from_enum.ids], with its [break]; the value is
    [okay] after the loop. *)
Fixpoint candidate_okay (from_ids : list pyid) (candidate : DimensionMap) : bool :=
  match from_ids with
  | [] => true
  | from_id :: rest =>
      if negb (py_in from_id (ids (from_enum_of candidate))) then false
      else candidate_okay rest candidate
  end.

(** [for candidate in candidates: ... if okay: return candidate]. *)
Fixpoint first_okay_candidate (from_enum : Enumeration)
    (candidates : list DimensionMap) : option DimensionMap :=
  match candidates with
  | [] => None
  | candidate :: rest =>
      if candidate_okay (ids from_enum) candidate then Some candidate
      else first_okay_candidate from_enum rest
  end.

Definition get_mapping (self : Mappings) (datafile : Datafile)
    (to_enum : Enumeration) : result (option DimensionMap) :=
  from_enum <- select_from_enum datafile to_enum ;;
  let the_key := (name from_enum, name to_enum) in
  match dict_get key_eqb the_key self with
  | Some mapping => Return (Some mapping)
  | None =>
      if enum_eq from_enum to_enum then Return (Some (TautologyMapping to_enum))
      else if is_subset from_enum to_enum
      then Return (Some (TautologyMapping to_enum))
      else
        let candidates :=
          map snd (filter (fun kv => String.eqb (snd (fst kv)) (name to_enum)) self) in
        Return (first_okay_candidate from_enum candidates)
  end.

End Collaborators.

(* ================================================================== *)
(** * The vocabulary of the properties *)

(** ** Results of [map] *)

(** What the spec's invariant asks of a result of [map]. *)
Definition null_or_member (to_enum : Enumeration) (v : pyval) : Prop :=
  v = VNone \/ exists to_id, v = VId to_id /\ In to_id (ids to_enum).

(** The to ids a disaggregation table holds for [from_id]: the stored list, or
    the empty list for an id the table does not hold. *)
Definition table_to_ids (dictmap : dict pyid (list pyid)) (from_id : pyid)
  : list pyid :=
  match dict_get pyid_eqb from_id dictmap with
  | Some to_ids => to_ids
  | None => []
  end.

(** What the classes deliver for [from_id]: a disaggregation hands back the
    list its table holds for [from_id], all of whose elements are ids of
    [to_enum], and the empty list for an id absent from its table; the other
    classes hand back [None] or one id of [to_enum]. *)
Definition map_result_ok (m : DimensionMap) (from_id : pyid) (v : pyval) : Prop :=
  match m with
  | ExplicitDisaggregation _ to_enum _dictmap _ =>
      match dict_get pyid_eqb from_id _dictmap with
      | Some to_ids =>
          v = VList to_ids /\ Forall (fun to_id => In to_id (ids to_enum)) to_ids
      | None => v = VList []
      end
  | _ => null_or_member (to_enum_of m) v
  end.

Section ConstructedBy.
Variable get_name : FuelEnumeration -> string -> result string.
Variable get_units : FuelEnumeration -> string -> result string.
Variable contains : Datafile -> Enumeration -> bool.
Variable str_replace : string -> string -> string -> string.
Variable str_lower : string -> string.

(** The objects of the seven mapping classes that their constructors return. *)
Inductive constructed : DimensionMap -> Prop :=
| constructed_Tautology : forall e, constructed (TautologyMapping e)
| constructed_FullAggregation : forall f t excl m,
    FullAggregationMap__init__ f t excl = Return m -> constructed m
| constructed_FilterToSubset : forall f t m,
    FilterToSubsetMap__init__ f t = Return m -> constructed m
| constructed_FilterToSingleFuel : forall f fuel m,
    FilterToSingleFuelMap__init__ get_name get_units f fuel = Return m -> constructed m
| constructed_ExplicitAggregation : forall f t d m,
    ExplicitAggregation__init__ f t d = Return m -> constructed m
| constructed_ExplicitDisaggregation : forall f t d sdf m,
    ExplicitDisaggregation__init__ contains f t d sdf = Return m -> constructed m
| constructed_UnitConversion : forall factors f fu tu m,
    UnitConversionMap__init__ get_units str_replace str_lower factors f fu tu = Return m ->
    constructed m.

End ConstructedBy.

(** ** Validation errors and registry candidates *)

(** The error names an id of the table that is missing from its enumeration. *)
Definition names_offending_id (from_enum to_enum : Enumeration)
    (dictmap : dict pyid pyid) (e : exn) : Prop :=
  exists from_id to_id,
    In (from_id, to_id) dictmap /\
    ((~ In from_id (ids from_enum) /\ e = DSGridError (IdNotInFromEnum from_id from_enum)) \/
     (~ In to_id (ids to_enum) /\ e = DSGridError (IdNotInToEnum to_id to_enum))).

(** Every id of [from_enum] is an id of the candidate's [from_enum]. *)
Definition covers (from_enum : Enumeration) (candidate : DimensionMap) : Prop :=
  forall from_id, In from_id (ids from_enum) ->
                  In from_id (ids (from_enum_of candidate)).

(** ** The ratio graph and the solver's loop variables *)

(** The table has no zero ratio, so no inversion divides by zero. *)
Definition nonzero_factors (factors : factors_table) : Prop :=
  forall k f, In (k, f) factors -> PrimFloat.eqb f 0 = false.

(** The ratio graph: units are nodes, and a tabulated ratio joins its two
    units in both directions. *)
Definition edge (factors : factors_table) (a b : string) : Prop :=
  exists f, In ((a, b), f) factors \/ In ((b, a), f) factors.

(** A path of one or more edges. *)
Inductive connected (factors : factors_table) : string -> string -> Prop :=
| connected_edge : forall a b, edge factors a b -> connected factors a b
| connected_step : forall a b c,
    edge factors a b -> connected factors b c -> connected factors a c.

(** The known pairs: distinct keys, each ending in [to_unit] and starting at
    a unit that a path joins to [to_unit]. *)
Definition known_pairs (factors : factors_table) (to_unit : string)
    (these_factors : factors_table) : Prop :=
  NoDup (dict_keys these_factors) /\
  forall k, In k (dict_keys these_factors) ->
            snd k = to_unit /\ connected factors (fst k) to_unit.

(** The loop variables only grow: pairs are appended, and [something_added]
    is set exactly when a pair was. *)
Definition grows (st st' : factors_table * bool) : Prop :=
  exists new, fst st' = fst st ++ new /\
              (snd st' = true <-> snd st = true \/ new <> []).

(** ** Fan-out of a disaggregation table *)

(** The to ids of the rows whose from id is [from_id], in row order. *)
Definition fan_out (from_id : string) (table : list MapRow) : list pyid :=
  map (fun row => IdStr (row_to_id row))
      (filter (fun row => String.eqb (row_from_id row) from_id) table).

(** ** Units of a converted fuel enumeration *)

(** A unit of the fuel enumeration and the unit that replaces it: the entry
    of [to_units] at the position of its first occurrence in [from_units],
    or the unit itself when it is not converted. *)
Definition converted_unit (from_units to_units : list string)
    (unit new_unit : string) : Prop :=
  (In unit from_units /\
   exists i, list_index from_units unit = Return i /\
             py_index to_units i = Return new_unit) \/
  (~ In unit from_units /\ new_unit = unit).

(** ** Factors derived along a path *)

(** One step of a path: a tabulated ratio, or the inverse of the ratio
    tabulated the other way round. *)
Inductive step_ratio (factors : factors_table) : string -> string -> float -> Prop :=
| ratio_forward : forall a b f,
    In ((a, b), f) factors -> step_ratio factors a b f
| ratio_backward : forall a b f,
    In ((b, a), f) factors -> PrimFloat.eqb f 0 = false ->
    step_ratio factors a b (1.0 / f)%float.

(** A factor from a unit to [to_unit]: the ratio of one step, or the ratio of
    a first step times a factor derived from where the step leads. *)
Inductive derived_factor (factors : factors_table) (to_unit : string)
  : string -> float -> Prop :=
| derived_direct : forall a r,
    step_ratio factors a to_unit r -> derived_factor factors to_unit a r
| derived_chain : forall a b r v,
    step_ratio factors a b r -> derived_factor factors to_unit b v ->
    derived_factor factors to_unit a (r * v)%float.

(** Every known pair carries a factor derived along a path to [to_unit]. *)
Definition derived_pairs (factors : factors_table) (to_unit : string)
    (these_factors : factors_table) : Prop :=
  forall k v, In (k, v) these_factors ->
    snd k = to_unit /\ derived_factor factors to_unit (fst k) v.

(** ** Sample data *)

Definition ex_states : Enumeration :=
  Enum GeographyEnumeration "states" [IdStr "CO"; IdStr "HI"] ["Colorado"; "Hawaii"].

Definition ex_conus : Enumeration :=
  Enum GeographyEnumeration "conus" [IdStr "conus"] ["Contiguous US"].

Definition ex_empty : Enumeration := Enum GeographyEnumeration "nowhere" [] [].

Definition ex_conus_states : Enumeration :=
  Enum GeographyEnumeration "conus_states" [IdStr "CO"] ["Colorado"].

Definition ex_counties : Enumeration :=
  Enum GeographyEnumeration "counties" [IdStr "08001"; IdStr "08003"; IdStr "15001"]
    ["Adams"; "Alamosa"; "Hawaii"].

Definition ex_state_to_counties : dict pyid (list pyid) :=
  [ (IdStr "CO", [IdStr "08001"; IdStr "08003"]); (IdStr "HI", [IdStr "15001"]) ].

Definition ex_rows_replaced : MapData :=
  mkMapData false false
    [ mkMapRow "CO" "nowhere" "" ""; mkMapRow "CO" "conus" "" "";
      mkMapRow "HI" "conus" "" "" ].

Definition ex_datafile : Datafile :=
  mkDatafile (Enum SectorEnumeration "sectors" [IdStr "res"] ["Residential"])
             ex_conus_states
             (Enum EndUseEnumeration "enduses" [IdStr "heat"] ["Heating"])
             (Enum TimeEnumeration "annual" [IdStr "2012"] ["2012"]).

Definition ex_conus_states_to_states : DimensionMap :=
  ExplicitAggregation ex_conus_states ex_states [(IdStr "CO", IdStr "CO")].

Definition ex_registry : dict key DimensionMap :=
  add_mapping (add_mapping Mappings__init__ (FilterToSubsetMap ex_states ex_conus_states))
    ex_conus_states_to_states.

Definition ex_is_subset (a b : Enumeration) : bool :=
  forallb (fun i => py_in i (ids b)) (ids a).

Definition ex_county_to_state : dict pyid pyid :=
  [ (IdStr "08001", IdStr "CO"); (IdStr "08003", IdStr "CO"); (IdStr "15001", IdStr "HI") ].

Definition ex_state_county_rows : MapData :=
  mkMapData false false
    [ mkMapRow "CO" "08001" "" ""; mkMapRow "HI" "15001" "" "";
      mkMapRow "CO" "08003" "" "" ].

Definition ex_fuels : FuelEnumeration :=
  mkFuelEnumeration "fuels" ["elec"; "gas"] ["Electricity"; "Natural Gas"]
    ["kWh"; "MMBtu"].

Definition ex_multifuel : Enumeration :=
  MultiFuelEndUseEnumeration "enduses" ["heat"; "heat"; "cool"]
    ["Heating"; "Heating"; "Cooling"] ex_fuels ["elec"; "gas"; "elec"].

Definition ex_singlefuel : Enumeration :=
  SingleFuelEndUseEnumeration "enduses (kWh)" [IdStr "heat"; IdStr "cool"]
    ["Heating"; "Cooling"] "Electricity" "kWh".

(** Sample accessors of a fuel enumeration: the name and the units listed at
    the position of the fuel id. *)
Definition ex_get_name (fe : FuelEnumeration) (fuel_id : string) : result string :=
  i <- list_index (fuel_ids fe) fuel_id ;; py_index (fuel_names fe) i.

Definition ex_get_units (fe : FuelEnumeration) (fuel_id : string) : result string :=
  i <- list_index (fuel_ids fe) fuel_id ;; py_index (fuel_units fe) i.

Definition ex_states_all : Enumeration :=
  Enum GeographyEnumeration "states_all" [IdStr "CO"; IdStr "HI"; IdStr "PR"]
    ["Colorado"; "Hawaii"; "Puerto Rico"].

Definition ex_colorado_counties : dict pyid (list pyid) :=
  [ (IdStr "CO", [IdStr "08001"; IdStr "08003"]) ].

(* ================================================================== *)
(** * Properties *)

(** ** Equality tests and membership *)

Lemma pyid_eqb_eq (a b : pyid) : pyid_eqb a b = true <-> a = b.
Proof.
  destruct a as [s | c f], b as [t | c' f']; simpl; split; intro H;
    try discriminate; try congruence.
  - apply String.eqb_eq in H. now subst.
  - inversion H. apply String.eqb_refl.
  - apply andb_true_iff in H. destruct H as [H1 H2].
    apply String.eqb_eq in H1, H2. now subst.
  - inversion H. now rewrite !String.eqb_refl.
Qed.

Lemma pyid_eqb_refl (a : pyid) : pyid_eqb a a = true.
Proof. now apply pyid_eqb_eq. Qed.

Lemma key_eqb_eq (a b : key) : key_eqb a b = true <-> a = b.
Proof.
  destruct a as [a1 a2], b as [b1 b2]. unfold key_eqb. simpl.
  rewrite andb_true_iff, !String.eqb_eq. split.
  - intros [-> ->]. reflexivity.
  - intro H. inversion H. auto.
Qed.

Lemma key_eqb_refl (a : key) : key_eqb a a = true.
Proof. now apply key_eqb_eq. Qed.

Lemma py_in_In (x : pyid) (l : list pyid) : py_in x l = true <-> In x l.
Proof.
  unfold py_in. rewrite existsb_exists. split.
  - intros (y & Hy & E). apply pyid_eqb_eq in E. now subst.
  - intro H. exists x. split; [assumption | apply pyid_eqb_refl].
Qed.

Lemma py_in_not_In (x : pyid) (l : list pyid) : py_in x l = false <-> ~ In x l.
Proof.
  rewrite <- py_in_In. destruct (py_in x l); split; congruence.
Qed.

Lemma str_in_In (x : string) (l : list string) : str_in x l = true <-> In x l.
Proof.
  unfold str_in. rewrite existsb_exists. split.
  - intros (y & Hy & E). apply String.eqb_eq in E. now subst.
  - intro H. exists x. split; [assumption | apply String.eqb_refl].
Qed.

(** ** Loops *)

(** A [for_each] loop returns exactly when every iteration does. *)
Lemma for_each_Return {A : Type} (l : list A) (body : A -> result unit) :
  for_each l body = Return tt <-> (forall x, In x l -> body x = Return tt).
Proof.
  induction l as [| x l IH]; simpl.
  - split; [intros _ y [] | reflexivity].
  - split.
    + intros H y [<- | Hy].
      * destruct (body x) as [[] | e |]; [reflexivity | discriminate | discriminate].
      * destruct (body x) as [[] | e |]; try discriminate. simpl in H.
        now apply IH.
    + intro H. rewrite (H x (or_introl eq_refl)). simpl. apply IH.
      intros y Hy. apply H. now right.
Qed.

(** An invariant of the loop variables carries through a [for_fold] loop. *)
Lemma for_fold_invariant {A S : Type} (P : S -> Prop) (body : S -> A -> result S) :
  forall (l : list A) (st st' : S),
    (forall s x s', In x l -> P s -> body s x = Return s' -> P s') ->
    P st -> for_fold l st body = Return st' -> P st'.
Proof.
  induction l as [| x l IH]; simpl; intros st st' Hstep Hst Hrun.
  - inversion Hrun. now subst.
  - destruct (body st x) as [s1 | e |] eqn:E; simpl in Hrun; try discriminate.
    apply (IH s1 st'); [| | assumption].
    + intros s y s' Hy. apply Hstep. now right.
    + apply (Hstep st x s1); auto.
Qed.

(** ** FullAggregationMap *)

(** C6: on a successfully constructed [FullAggregationMap(from_enum, to_enum,
    exclude_list)], every id of [from_enum] that is in [exclude_list] maps to
    [None], every other id maps to [to_enum.ids[0]], and the scale factor is
    the default 1.0. *)
Theorem FullAggregationMap_map_correct :
  forall (from_enum to_enum : Enumeration) (exclude_list : list pyid)
         (m : DimensionMap) (id : pyid),
    FullAggregationMap__init__ from_enum to_enum exclude_list = Return m ->
    In id (ids from_enum) ->
    (In id exclude_list -> DimensionMap_map m id = Return VNone) /\
    (~ In id exclude_list ->
       exists to_id, nth_error (ids to_enum) 0 = Some to_id /\
                     DimensionMap_map m id = Return (VId to_id)) /\
    scale_factor m id = 1.0%float.
Proof.
  intros from_enum to_enum exclude_list m id Hinit _.
  unfold FullAggregationMap__init__ in Hinit.
  destruct (1 <? length (ids to_enum))%nat; [discriminate |].
  unfold py_index in Hinit.
  destruct (nth_error (ids to_enum) 0) as [to_id |] eqn:Hto; [| discriminate].
  simpl in Hinit.
  destruct (for_each exclude_list _) as [[] | e |]; try discriminate.
  simpl in Hinit. inversion Hinit; subst m; clear Hinit. simpl.
  repeat split.
  - intro Hin. apply py_in_In in Hin. now rewrite Hin.
  - intro Hnot. apply py_in_not_In in Hnot. rewrite Hnot.
    exists to_id. split; reflexivity.
Qed.

Lemma FullAggregationMap_map_correct_witness :
  let m := FullAggregationMap ex_states ex_conus (IdStr "conus") [IdStr "HI"] in
  (In (IdStr "HI") [IdStr "HI"] -> DimensionMap_map m (IdStr "HI") = Return VNone) /\
  (~ In (IdStr "HI") [IdStr "HI"] ->
     exists to_id, nth_error (ids ex_conus) 0 = Some to_id /\
                   DimensionMap_map m (IdStr "HI") = Return (VId to_id)) /\
  scale_factor m (IdStr "HI") = 1.0%float.
Proof.
  apply (@FullAggregationMap_map_correct ex_states ex_conus [IdStr "HI"]).
  - reflexivity.
  - simpl. right. left. reflexivity.
Defined.

(** C10: a [to_enum] with no ids passes the cardinality check of
    [FullAggregationMap.__init__] (which only rejects more than one id) and
    the construction then fails on [to_enum.ids[0]] with an [IndexError], not
    with a [DSGridError], whatever [from_enum] and [exclude_list] are. *)
Theorem FullAggregationMap_empty_to_enum_IndexError :
  forall (from_enum to_enum : Enumeration) (exclude_list : list pyid),
    ids to_enum = [] ->
    (1 <? length (ids to_enum))%nat = false /\
    FullAggregationMap__init__ from_enum to_enum exclude_list = Raise IndexError.
Proof.
  intros from_enum to_enum exclude_list Hempty.
  unfold FullAggregationMap__init__. rewrite Hempty. simpl. split; reflexivity.
Qed.

Lemma FullAggregationMap_empty_to_enum_IndexError_witness :
  (1 <? length (ids ex_empty))%nat = false /\
  FullAggregationMap__init__ ex_states ex_empty [] = Raise IndexError.
Proof.
  apply (@FullAggregationMap_empty_to_enum_IndexError ex_states ex_empty []).
  reflexivity.
Defined.

(** ** FilterToSubsetMap *)

(** C8: on a successfully constructed [FilterToSubsetMap(from_enum, to_enum)],
    every id of [to_enum] maps to itself and every id of [from_enum] that is
    not an id of [to_enum] maps to [None]. *)
Theorem FilterToSubsetMap_map_correct :
  forall (from_enum to_enum : Enumeration) (m : DimensionMap),
    FilterToSubsetMap__init__ from_enum to_enum = Return m ->
    (forall id, In id (ids to_enum) -> DimensionMap_map m id = Return (VId id)) /\
    (forall id, In id (ids from_enum) -> ~ In id (ids to_enum) ->
                DimensionMap_map m id = Return VNone).
Proof.
  intros from_enum to_enum m Hinit.
  unfold FilterToSubsetMap__init__ in Hinit.
  destruct (for_each (ids to_enum) _) as [[] | e |]; try discriminate.
  simpl in Hinit. inversion Hinit; subst m; clear Hinit. simpl. split.
  - intros id Hin. apply py_in_In in Hin. now rewrite Hin.
  - intros id _ Hnot. apply py_in_not_In in Hnot. now rewrite Hnot.
Qed.

Lemma FilterToSubsetMap_map_correct_witness :
  let m := FilterToSubsetMap ex_states ex_conus_states in
  (forall id, In id (ids ex_conus_states) -> DimensionMap_map m id = Return (VId id)) /\
  (forall id, In id (ids ex_states) -> ~ In id (ids ex_conus_states) ->
              DimensionMap_map m id = Return VNone).
Proof.
  apply (@FilterToSubsetMap_map_correct ex_states ex_conus_states).
  reflexivity.
Defined.

(** ** Dictionaries *)

Section DictFacts.
Variables K V : Type.
Variable eqb : K -> K -> bool.
Hypothesis eqb_eq : forall a b, eqb a b = true <-> a = b.

Lemma dict_eqb_refl (k : K) : eqb k k = true.
Proof. now apply eqb_eq. Qed.

Lemma dict_get_set (k k' : K) (v : V) (d : dict K V) :
  dict_get eqb k (dict_set eqb k' v d) =
  if eqb k k' then Some v else dict_get eqb k d.
Proof.
  induction d as [| [k0 v0] rest IH]; simpl.
  - reflexivity.
  - destruct (eqb k' k0) eqn:E0; simpl.
    + apply eqb_eq in E0. subst k0. destruct (eqb k k'); reflexivity.
    + rewrite IH. destruct (eqb k k0) eqn:E1; [| reflexivity].
      apply eqb_eq in E1. subst k0.
      destruct (eqb k k') eqn:E2; [| reflexivity].
      apply eqb_eq in E2. subst k'. rewrite dict_eqb_refl in E0. discriminate.
Qed.

Lemma dict_get_In (k : K) (v : V) (d : dict K V) :
  dict_get eqb k d = Some v -> In (k, v) d.
Proof.
  induction d as [| [k0 v0] rest IH]; simpl; [discriminate |].
  destruct (eqb k k0) eqn:E.
  - apply eqb_eq in E. subst k0. intro H. inversion H. now left.
  - intro H. right. now apply IH.
Qed.

Lemma dict_get_None (k : K) (d : dict K V) :
  dict_get eqb k d = None <-> ~ In k (dict_keys d).
Proof.
  induction d as [| [k0 v0] rest IH]; simpl.
  - split; [intros _ [] | reflexivity].
  - destruct (eqb k k0) eqn:E.
    + apply eqb_eq in E. subst k0. split; [discriminate | intro H; exfalso; auto].
    + rewrite IH. split.
      * intros H [H0 | H0]; [| now apply H].
        subst k0. rewrite dict_eqb_refl in E. discriminate.
      * intros H H0. apply H. now right.
Qed.

Lemma dict_mem_keys (k : K) (d : dict K V) :
  dict_mem eqb k d = true <-> In k (dict_keys d).
Proof.
  unfold dict_mem. destruct (dict_get eqb k d) eqn:E.
  - split; [intros _ | reflexivity].
    apply dict_get_In in E. unfold dict_keys. now apply (in_map fst) in E.
  - apply dict_get_None in E. split; [discriminate | intro; contradiction].
Qed.

(** Assigning to a key that is not there appends it. *)
Lemma dict_set_absent (k : K) (v : V) (d : dict K V) :
  dict_mem eqb k d = false -> dict_set eqb k v d = d ++ [(k, v)].
Proof.
  unfold dict_mem. induction d as [| [k0 v0] rest IH]; simpl; [reflexivity |].
  destruct (eqb k k0) eqn:E; [discriminate |].
  intro H. now rewrite IH.
Qed.

(** Assigning never changes the keys that are there, and adds at most [k]. *)
Lemma dict_set_keys (k k0 : K) (v : V) (d : dict K V) :
  In k0 (dict_keys (dict_set eqb k v d)) <-> k0 = k \/ In k0 (dict_keys d).
Proof.
  induction d as [| [k1 v1] rest IH]; simpl.
  - intuition.
  - destruct (eqb k k1) eqn:E; simpl.
    + apply eqb_eq in E. subst k1. intuition.
    + rewrite IH. intuition.
Qed.

End DictFacts.

Section DictKeys.
Variables K V : Type.
Variable eqb : K -> K -> bool.
Hypothesis eqb_eq : forall a b, eqb a b = true <-> a = b.

Lemma dict_keys_app (d1 d2 : dict K V) :
  dict_keys (d1 ++ d2) = dict_keys d1 ++ dict_keys d2.
Proof. apply map_app. Qed.

Lemma dict_set_present_keys (k : K) (v : V) (d : dict K V) :
  dict_mem eqb k d = true -> dict_keys (dict_set eqb k v d) = dict_keys d.
Proof.
  unfold dict_mem. induction d as [| [k0 v0] rest IH]; simpl; [discriminate |].
  destruct (eqb k k0) eqn:E; simpl; [reflexivity |].
  intro H. now rewrite IH.
Qed.

Lemma dict_set_NoDup (k : K) (v : V) (d : dict K V) :
  NoDup (dict_keys d) -> NoDup (dict_keys (dict_set eqb k v d)).
Proof.
  intro Hd. destruct (dict_mem eqb k d) eqn:E.
  - now rewrite dict_set_present_keys.
  - rewrite (dict_set_absent eqb) by assumption.
    rewrite dict_keys_app. apply NoDup_app; [assumption | |].
    + simpl. constructor; [intros [] | constructor].
    + intros a Ha [<- | []].
      apply (@dict_mem_keys _ _ _ eqb_eq) in Ha. simpl in Ha. congruence.
Qed.

End DictKeys.

Lemma pyid_dict_get_set {V : Type} (k k' : pyid) (v : V) (d : dict pyid V) :
  dict_get pyid_eqb k (dict_set pyid_eqb k' v d) =
  if pyid_eqb k k' then Some v else dict_get pyid_eqb k d.
Proof. apply dict_get_set. exact pyid_eqb_eq. Qed.

(** ** ExplicitDisaggregation.get_scalings *)

(** C9: an [ExplicitDisaggregation] constructed without a scaling datafile has
    [default_scaling] true, and [get_scalings(to_ids)] on a non-empty [to_ids]
    returns an array of [len(to_ids)] entries, all 1.0. *)
Theorem get_scalings_default :
  forall (contains : Datafile -> Enumeration -> bool)
         (datatable_shares : Datafile -> Axis -> list pyid -> result (list float))
         (from_enum to_enum : Enumeration) (dictmap : dict pyid (list pyid))
         (m : DimensionMap) (to_ids : list pyid),
    ExplicitDisaggregation__init__ contains from_enum to_enum dictmap None = Return m ->
    to_ids <> [] ->
    default_scaling m = Return true /\
    exists scalings,
      get_scalings datatable_shares m to_ids = Return scalings /\
      length scalings = length to_ids /\
      Forall (fun w => w = 1.0%float) scalings.
Proof.
  intros contains shares from_enum to_enum dictmap m to_ids Hinit _.
  unfold ExplicitDisaggregation__init__ in Hinit.
  destruct (for_fold dictmap _ _) as [d | e |]; try discriminate.
  simpl in Hinit. inversion Hinit; subst m; clear Hinit. simpl.
  split; [reflexivity |].
  exists (map (fun _ => 1.0%float) to_ids). repeat split.
  - apply length_map.
  - apply Forall_forall. intros w Hw. apply in_map_iff in Hw.
    destruct Hw as (x & Hx & _). now symmetry.
Qed.

Lemma get_scalings_default_witness :
  let m := ExplicitDisaggregation ex_states ex_counties ex_state_to_counties None in
  default_scaling m = Return true /\
  exists scalings,
    get_scalings (fun _ _ _ => Raise AttributeError) m [IdStr "08001"; IdStr "08003"]
      = Return scalings /\
    length scalings = length [IdStr "08001"; IdStr "08003"] /\
    Forall (fun w => w = 1.0%float) scalings.
Proof.
  apply (@get_scalings_default (fun _ _ => true) (fun _ _ _ => Raise AttributeError)
           ex_states ex_counties ex_state_to_counties).
  - reflexivity.
  - discriminate.
Defined.

(** ** UnitConversionMap.scaling_factor on the class table *)

(** A seeded pair is answered from the table before any expansion. *)
Example scaling_factor_kWh_MWh :
  scaling_factor CONVERSION_FACTORS "kWh" "MWh" = Return 1.0e-3%float.
Proof. reflexivity. Qed.

(** C3: with the seed table kWh->MWh, MWh->GWh, GWh->TWh (each 1e-3), neither
    (kWh, GWh) nor (GWh, kWh) is seeded, [scaling_factor('kWh','GWh')] returns
    1e-6 and [scaling_factor('GWh','kWh')] returns 1e6. *)
Theorem scaling_factor_derived :
  dict_get key_eqb ("kWh", "GWh") CONVERSION_FACTORS = None /\
  dict_get key_eqb ("GWh", "kWh") CONVERSION_FACTORS = None /\
  scaling_factor CONVERSION_FACTORS "kWh" "GWh" = Return 1.0e-6%float /\
  scaling_factor CONVERSION_FACTORS "GWh" "kWh" = Return 1.0e6%float.
Proof. repeat split; vm_compute; reflexivity. Qed.

(** ** The result of [map] on constructed mappings *)

Lemma for_fold_prefix_invariant {A S : Type} (P : list A -> S -> Prop)
    (body : S -> A -> result S) :
  (forall pre s x s', P pre s -> body s x = Return s' -> P (pre ++ [x]) s') ->
  forall (l pre : list A) (st st' : S),
    P pre st -> for_fold l st body = Return st' -> P (pre ++ l) st'.
Proof.
  intro Hstep. induction l as [| x l IH]; simpl; intros pre st st' Hst Hrun.
  - inversion Hrun. subst. now rewrite app_nil_r.
  - destruct (body st x) as [s1 | e |] eqn:E; simpl in Hrun; try discriminate.
    replace (pre ++ x :: l) with ((pre ++ [x]) ++ l)
      by (rewrite <- app_assoc; reflexivity).
    apply (IH (pre ++ [x]) s1 st'); [| assumption].
    now apply (Hstep pre st x s1).
Qed.

Lemma In_enumerate {A : Type} (x : A) (l : list A) :
  In x l -> exists i, In (i, x) (enumerate l).
Proof.
  unfold enumerate. generalize 0 as n.
  induction l as [| y l IH]; simpl; intros n Hin; [contradiction |].
  destruct Hin as [-> | Hin].
  - exists n. now left.
  - destruct (IH (S n) Hin) as [i Hi]. exists i. now right.
Qed.

(** Breaks up a run that returned: each [bind] and each test on the way. *)
Ltac returned H :=
  repeat match type of H with
  | bind ?m _ = Return _ =>
      let E := fresh "E" in destruct m eqn:E; simpl in H; try discriminate
  | (if ?c then _ else _) = Return _ =>
      let E := fresh "E" in destruct c eqn:E; simpl in H; try discriminate
  | Return _ = Return _ => inversion H; clear H
  end.

Section Constructed.
Variable get_name : FuelEnumeration -> string -> result string.
Variable get_units : FuelEnumeration -> string -> result string.
Variable contains : Datafile -> Enumeration -> bool.
Variable str_replace : string -> string -> string -> string.
Variable str_lower : string -> string.

Lemma FullAggregationMap_map_ok f t excl m from_id :
  FullAggregationMap__init__ f t excl = Return m ->
  exists v, DimensionMap_map m from_id = Return v /\ map_result_ok m from_id v.
Proof.
  unfold FullAggregationMap__init__, py_index. intro H.
  destruct (1 <? length (ids t))%nat; [discriminate |].
  destruct (nth_error (ids t) 0) as [to_id |] eqn:Hto; [| discriminate].
  simpl in H. returned H. subst m. simpl.
  destruct (py_in from_id excl).
  - exists VNone. split; [reflexivity | now left].
  - exists (VId to_id). split; [reflexivity | right].
    exists to_id. split; [reflexivity | now apply nth_error_In with 0].
Qed.

Lemma FilterToSubsetMap_map_ok f t m from_id :
  FilterToSubsetMap__init__ f t = Return m ->
  exists v, DimensionMap_map m from_id = Return v /\ map_result_ok m from_id v.
Proof.
  unfold FilterToSubsetMap__init__. intro H. returned H. subst m. simpl.
  destruct (py_in from_id (ids t)) eqn:Hin.
  - exists (VId from_id). split; [reflexivity | right].
    exists from_id. split; [reflexivity | now apply py_in_In].
  - exists VNone. split; [reflexivity | now left].
Qed.

Lemma ExplicitAggregation_map_ok f t d m from_id :
  ExplicitAggregation__init__ f t d = Return m ->
  exists v, DimensionMap_map m from_id = Return v /\ map_result_ok m from_id v.
Proof.
  unfold ExplicitAggregation__init__. intro H.
  destruct (for_fold d _ _) as [dm | e |] eqn:Hloop; try discriminate.
  simpl in H. returned H. subst m. simpl.
  assert (Hval : forall k v, dict_get pyid_eqb k dm = Some v -> In v (ids t)).
  { eapply (@for_fold_invariant _ _
              (fun dm => forall k v, dict_get pyid_eqb k dm = Some v -> In v (ids t)));
      [| | exact Hloop].
    - intros s [k0 v0] s' _ Hs Hbody k v.
      destruct (negb (py_in k0 (ids f))); [discriminate |].
      destruct (negb (py_in v0 (ids t))) eqn:Hv0; [discriminate |].
      inversion Hbody; subst s'. rewrite pyid_dict_get_set.
      destruct (pyid_eqb k k0); [| apply Hs].
      intro Hv. inversion Hv; subst v0.
      apply negb_false_iff in Hv0. now apply py_in_In.
    - intros k v Hk. discriminate. }
  destruct (dict_get pyid_eqb from_id dm) as [to_id |] eqn:Hget.
  - exists (VId to_id). split; [reflexivity | right].
    exists to_id. split; [reflexivity | now apply (Hval from_id)].
  - exists VNone. split; [reflexivity | now left].
Qed.

Lemma ExplicitDisaggregation_map_ok f t d sdf m from_id :
  ExplicitDisaggregation__init__ contains f t d sdf = Return m ->
  exists v, DimensionMap_map m from_id = Return v /\ map_result_ok m from_id v.
Proof.
  unfold ExplicitDisaggregation__init__. intro H.
  destruct (for_fold d _ _) as [dm | e |] eqn:Hloop; try discriminate.
  simpl in H.
  assert (Hval : forall k l, dict_get pyid_eqb k dm = Some l ->
                             Forall (fun to_id => In to_id (ids t)) l).
  { eapply (@for_fold_invariant _ _
              (fun dm => forall k l, dict_get pyid_eqb k dm = Some l ->
                                     Forall (fun to_id => In to_id (ids t)) l));
      [| | exact Hloop].
    - intros s [k0 l0] s' _ Hs Hbody k l.
      destruct (negb (py_in k0 (ids f))); [discriminate |].
      destruct (for_each l0 _) as [[] | e |] eqn:Hchk; try discriminate.
      simpl in Hbody. inversion Hbody; subst s'. rewrite pyid_dict_get_set.
      destruct (pyid_eqb k k0); [| apply Hs].
      intro Hl. inversion Hl; subst l0.
      apply Forall_forall. intros to_id Hin.
      apply (proj1 (for_each_Return _ _) Hchk) in Hin.
      destruct (negb (py_in to_id (ids t))) eqn:Hneg; [discriminate |].
      apply negb_false_iff in Hneg. now apply py_in_In.
    - intros k l Hk. discriminate. }
  assert (Hm : m = ExplicitDisaggregation f t dm sdf).
  { destruct sdf as [df |]; [| now inversion H].
    destruct (negb (contains df t)); [discriminate | now inversion H]. }
  subst m. simpl.
  destruct (dict_get pyid_eqb from_id dm) as [l |] eqn:Hget.
  - exists (VList l). split; [reflexivity |]. split; [reflexivity |].
    now apply (Hval from_id).
  - exists (VList []). split; reflexivity.
Qed.

(** A constructed disaggregation answers from the dictionary it was given. *)
Lemma ExplicitDisaggregation_map_table f t d sdf m from_id :
  NoDup (dict_keys d) ->
  ExplicitDisaggregation__init__ contains f t d sdf = Return m ->
  DimensionMap_map m from_id = Return (VList (table_to_ids d from_id)).
Proof.
  unfold ExplicitDisaggregation__init__. intros Hnd H.
  match type of H with context [for_fold d [] ?b] => set (body := b) in H end.
  destruct (for_fold d [] body) as [dm | e |] eqn:Hloop; try discriminate.
  simpl in H.
  assert (Hm : m = ExplicitDisaggregation f t dm sdf).
  { destruct sdf as [df |]; [| now inversion H].
    destruct (negb (contains df t)); [discriminate | now inversion H]. }
  subst m. clear H.
  assert (Hgen : forall d0 acc dm',
             NoDup (dict_keys d0) -> for_fold d0 acc body = Return dm' ->
             forall k, dict_get pyid_eqb k dm' =
                       match dict_get pyid_eqb k d0 with
                       | Some l => Some l
                       | None => dict_get pyid_eqb k acc
                       end).
  { clear. induction d0 as [| [k0 l0] rest IH]; simpl; intros acc dm' Hnd Hrun k.
    - now inversion Hrun.
    - unfold body at 1 in Hrun.
      destruct (negb (py_in k0 (ids f))); [discriminate |].
      destruct (for_each l0 _) as [[] | e |]; try discriminate.
      simpl in Hrun. inversion Hnd as [| ? ? Hnotin Hnd']; subst.
      rewrite (IH _ _ Hnd' Hrun k), pyid_dict_get_set.
      destruct (pyid_eqb k k0) eqn:E; [| reflexivity].
      apply pyid_eqb_eq in E. subst k0.
      apply (@dict_get_None _ _ _ pyid_eqb_eq) in Hnotin. now rewrite Hnotin. }
  simpl. unfold table_to_ids. rewrite (Hgen _ _ _ Hnd Hloop from_id). simpl.
  now destruct (dict_get pyid_eqb from_id d).
Qed.

Lemma FilterToSingleFuelMap_map_ok f fuel_to_keep m from_id :
  FilterToSingleFuelMap__init__ get_name get_units f fuel_to_keep = Return m ->
  In from_id (ids (from_enum_of m)) ->
  exists v, DimensionMap_map m from_id = Return v /\ map_result_ok m from_id v.
Proof.
  unfold FilterToSingleFuelMap__init__. intros H Hin.
  destruct f as [c n l ns | n l ns fl un | n codes ns fe fuels]; try discriminate.
  destruct (assert _ _) as [[] | e |]; try discriminate. simpl in H.
  destruct (get_name fe fuel_to_keep) as [fuel_name | e |]; try discriminate.
  simpl in H.
  destruct (for_fold _ _ _) as [[[the_ids the_names] _map] | e |] eqn:Hloop;
    try discriminate.
  simpl in H.
  destruct (get_units fe fuel_to_keep) as [units | e |]; try discriminate.
  simpl in H. inversion H; subst m; clear H. simpl in Hin |- *.
  pose (P := fun (pre : list (nat * (string * string)))
                 (st : list pyid * list string * dict pyid (option pyid)) =>
               (forall i code fuel, In (i, (code, fuel)) pre ->
                  dict_get pyid_eqb (IdPair code fuel) (snd st) <> None) /\
               (forall k c, dict_get pyid_eqb k (snd st) = Some (Some c) ->
                  In c (fst (fst st)))).
  assert (HP : P ([] ++ enumerate (combine codes fuels)) (the_ids, the_names, _map)).
  { eapply (@for_fold_prefix_invariant _ _ P); [| | exact Hloop].
    - intros pre [[ids0 names0] map0] [i [code fuel]] s' [Hcov Hval] Hbody.
      simpl in Hcov, Hval.
      destruct (String.eqb fuel fuel_to_keep).
      + destruct (py_index ns i) as [nm_i | e |]; try discriminate.
        simpl in Hbody. inversion Hbody; subst s'; clear Hbody. split; simpl.
        * intros i' code' fuel' Hi'. rewrite pyid_dict_get_set.
          destruct (pyid_eqb _ _) eqn:Heq; [discriminate |].
          apply in_app_or in Hi'. destruct Hi' as [Hi' | [Hi' | []]].
          -- now apply (Hcov i').
          -- inversion Hi'; subst. rewrite pyid_eqb_refl in Heq. discriminate.
        * intros k c. rewrite pyid_dict_get_set.
          destruct (pyid_eqb k (IdPair code fuel)).
          -- intro Hc. inversion Hc. apply in_or_app. right. now left.
          -- intro Hc. apply in_or_app. left. now apply (Hval k).
      + inversion Hbody; subst s'; clear Hbody. split; simpl.
        * intros i' code' fuel' Hi'. rewrite pyid_dict_get_set.
          destruct (pyid_eqb _ _) eqn:Heq; [discriminate |].
          apply in_app_or in Hi'. destruct Hi' as [Hi' | [Hi' | []]].
          -- now apply (Hcov i').
          -- inversion Hi'; subst. rewrite pyid_eqb_refl in Heq. discriminate.
        * intros k c. rewrite pyid_dict_get_set.
          destruct (pyid_eqb k (IdPair code fuel)); [discriminate | apply Hval].
    - split; simpl; [intros i code fuel [] | intros k c Hk; discriminate]. }
  destruct HP as [Hcov Hval]. simpl in Hcov, Hval.
  apply in_map_iff in Hin. destruct Hin as ([code fuel] & <- & Hcf). simpl.
  apply In_enumerate in Hcf. destruct Hcf as [i Hi].
  specialize (Hcov i code fuel Hi).
  destruct (dict_get pyid_eqb (IdPair code fuel) _map) as [[c |] |] eqn:Hget.
  - exists (VId c). split; [reflexivity | right].
    exists c. split; [reflexivity |]. simpl. now apply (Hval (IdPair code fuel)).
  - exists VNone. split; [reflexivity | now left].
  - contradiction.
Qed.

Lemma UnitConversionMap_map_ok factors f from_units to_units m from_id :
  UnitConversionMap__init__ get_units str_replace str_lower factors f from_units to_units
    = Return m ->
  In from_id (ids (from_enum_of m)) ->
  exists v, DimensionMap_map m from_id = Return v /\ map_result_ok m from_id v.
Proof.
  unfold UnitConversionMap__init__. intros H Hin.
  assert (Hids : ids (to_enum_of m) = ids (from_enum_of m) /\
                 exists a b c, m = UnitConversionMap a b c).
  { destruct f as [c n l ns | n l ns fl un | n codes ns fe fuels].
    - destruct c; simpl in H; returned H; discriminate.
    - simpl in H. returned H. subst m. simpl. eauto.
    - simpl in H. returned H. subst m. simpl. eauto. }
  destruct Hids as [Hids (a & b & c & ->)]. simpl in *.
  exists (VId from_id). split; [reflexivity | right].
  exists from_id. split; [reflexivity | now rewrite Hids].
Qed.

(** C2 (as amended): for every object built by one of the seven mapping
    constructors and every [from_id] in its [from_enum.ids], [map(from_id)]
    returns.  For an [ExplicitDisaggregation] the result is the list its
    table holds for [from_id], whose elements are all members of
    [to_enum.ids], and the empty list for an id absent from the table; the
    table is the dictionary the constructor was given.  For every other
    class the result is [None] or a member of [to_enum.ids]. *)
Theorem map_result_in_to_enum :
  forall (m : DimensionMap) (from_id : pyid),
    constructed get_name get_units contains str_replace str_lower m ->
    In from_id (ids (from_enum_of m)) ->
    exists v,
      DimensionMap_map m from_id = Return v /\
      map_result_ok m from_id v /\
      (forall f t d sdf,
         NoDup (dict_keys d) ->
         ExplicitDisaggregation__init__ contains f t d sdf = Return m ->
         v = VList (table_to_ids d from_id)).
Proof.
  intros m from_id Hm Hin.
  assert (Hok : exists v, DimensionMap_map m from_id = Return v /\
                          map_result_ok m from_id v).
  { destruct Hm.
    - exists (VId from_id). split; [reflexivity | right].
      exists from_id. split; [reflexivity | exact Hin].
    - eapply FullAggregationMap_map_ok; eauto.
    - eapply FilterToSubsetMap_map_ok; eauto.
    - eapply FilterToSingleFuelMap_map_ok; eauto.
    - eapply ExplicitAggregation_map_ok; eauto.
    - eapply ExplicitDisaggregation_map_ok; eauto.
    - eapply UnitConversionMap_map_ok; eauto. }
  destruct Hok as (v & Hv & Hok). exists v. repeat split; auto.
  intros f t d sdf Hnd Hinit.
  pose proof (@ExplicitDisaggregation_map_table f t d sdf m from_id Hnd Hinit) as Ht.
  rewrite Hv in Ht. now inversion Ht.
Qed.

End Constructed.

Lemma map_result_in_to_enum_witness :
  let m := ExplicitDisaggregation ex_states ex_counties ex_colorado_counties None in
  exists v,
    DimensionMap_map m (IdStr "HI") = Return v /\
    map_result_ok m (IdStr "HI") v /\
    (forall f t d sdf,
       NoDup (dict_keys d) ->
       ExplicitDisaggregation__init__ (fun _ _ => true) f t d sdf = Return m ->
       v = VList (table_to_ids d (IdStr "HI"))).
Proof.
  apply (@map_result_in_to_enum
           (fun _ _ => Raise AttributeError) (fun _ _ => Raise AttributeError)
           (fun _ _ => true) (fun s _ _ => s) (fun s => s)).
  - apply constructed_ExplicitDisaggregation
      with (f := ex_states) (t := ex_counties) (d := ex_colorado_counties) (sdf := None).
    reflexivity.
  - simpl. right. left. reflexivity.
Defined.

(** C2 (as stated) fails on a disaggregation: the state CO, an id of
    [from_enum], maps to the list of its two counties, which is neither [None]
    nor an id of [to_enum]. *)
Lemma map_null_or_member_counterexample :
  let m := ExplicitDisaggregation ex_states ex_counties ex_state_to_counties None in
  ExplicitDisaggregation__init__ (fun _ _ => true) ex_states ex_counties
    ex_state_to_counties None = Return m /\
  In (IdStr "CO") (ids (from_enum_of m)) /\
  DimensionMap_map m (IdStr "CO") = Return (VList [IdStr "08001"; IdStr "08003"]) /\
  ~ null_or_member (to_enum_of m) (VList [IdStr "08001"; IdStr "08003"]).
Proof.
  simpl. repeat split.
  - now left.
  - intros [H | (i & H & _)]; discriminate.
Qed.

(** ** Construction-time validation *)

(** A checking loop raises at its first offending element. *)
Lemma for_each_check_raises {A : Type} (bad : A -> bool) (err : A -> exn) (l : list A) :
  (exists x, In x l /\ bad x = true) ->
  exists y, In y l /\ bad y = true /\
            for_each l (fun x => if bad x then Raise (err x) else Return tt)
            = Raise (err y).
Proof.
  induction l as [| a l IH]; intros (x & Hin & Hbad); [contradiction |].
  simpl. destruct (bad a) eqn:Ha.
  - exists a. repeat split; auto.
  - destruct Hin as [-> | Hin]; [congruence |].
    destruct IH as (y & Hy & Hby & Hrun); [now exists x |].
    exists y. repeat split; auto.
Qed.

Lemma FullAggregationMap_too_many (from_enum to_enum : Enumeration)
    (exclude_list : list pyid) :
  2 <= length (ids to_enum) ->
  FullAggregationMap__init__ from_enum to_enum exclude_list
  = Raise (DSGridError (TooManyItems to_enum)).
Proof.
  intro H. unfold FullAggregationMap__init__.
  apply Nat.ltb_lt in H. now rewrite H.
Qed.

Lemma FullAggregationMap_bad_exclude (from_enum to_enum : Enumeration)
    (exclude_list : list pyid) (x : pyid) :
  ids to_enum <> [] -> In x exclude_list -> ~ In x (ids from_enum) ->
  exists msg,
    FullAggregationMap__init__ from_enum to_enum exclude_list = Raise (DSGridError msg) /\
    (msg = TooManyItems to_enum \/
     exists y, In y exclude_list /\ ~ In y (ids from_enum) /\
               msg = ExcludeNotInFromEnum y from_enum).
Proof.
  intros Hne Hx Hbad. unfold FullAggregationMap__init__.
  destruct (1 <? length (ids to_enum))%nat.
  - exists (TooManyItems to_enum). split; [reflexivity | now left].
  - destruct (ids to_enum) as [| to_id rest]; [contradiction |]. simpl.
    destruct (for_each_check_raises
                (fun y => negb (py_in y (ids from_enum)))
                (fun y => DSGridError (ExcludeNotInFromEnum y from_enum))
                exclude_list) as (y & Hy & Hby & Hrun).
    { exists x. split; [assumption |].
      apply negb_true_iff. now apply py_in_not_In. }
    cbv beta in Hrun. rewrite Hrun. simpl.
    exists (ExcludeNotInFromEnum y from_enum). split; [reflexivity | right].
    exists y. repeat split; auto.
    apply py_in_not_In. now apply negb_true_iff.
Qed.

Lemma ExplicitAggregation_invalid_table (from_enum to_enum : Enumeration)
    (dictmap : dict pyid pyid) (from_id to_id : pyid) :
  In (from_id, to_id) dictmap ->
  ~ In from_id (ids from_enum) \/ ~ In to_id (ids to_enum) ->
  exists e, ExplicitAggregation__init__ from_enum to_enum dictmap = Raise e /\
            names_offending_id from_enum to_enum dictmap e.
Proof.
  intros Hin Hbad. unfold ExplicitAggregation__init__.
  match goal with |- context [for_fold dictmap [] ?b] => set (body := b) end.
  assert (Hloop : forall acc, exists e,
             for_fold dictmap acc body = Raise e /\
             names_offending_id from_enum to_enum dictmap e).
  { clear - Hin Hbad. induction dictmap as [| [k v] rest IH]; [contradiction |].
    intro acc. simpl. unfold body at 1.
    destruct (py_in k (ids from_enum)) eqn:Hk; simpl.
    - destruct (py_in v (ids to_enum)) eqn:Hv; simpl.
      + destruct Hin as [Heq | Hin].
        * inversion Heq; subst k v. apply py_in_In in Hk, Hv. tauto.
        * destruct (IH Hin (dict_set pyid_eqb k v acc))
            as (e & Hrun & f0 & t0 & Hft & Hnames).
          exists e. split; [exact Hrun |].
          exists f0, t0. split; [now right | exact Hnames].
      + exists (DSGridError (IdNotInToEnum v to_enum)). split; [reflexivity |].
        exists k, v. split; [now left | right].
        split; [now apply py_in_not_In | reflexivity].
    - exists (DSGridError (IdNotInFromEnum k from_enum)). split; [reflexivity |].
      exists k, v. split; [now left | left].
      split; [now apply py_in_not_In | reflexivity]. }
  destruct (Hloop []) as (e & Hrun & Hnames).
  exists e. rewrite Hrun. split; [reflexivity | exact Hnames].
Qed.

(** [_make_dictmap] keeps, for each from key, the to key of its last row. *)
Lemma make_dictmap_keys (ff tf : bool) (l : list MapRow) (acc : dict pyid pyid)
    (k : pyid) :
  In k (dict_keys (fold_left (fun res row =>
          dict_set pyid_eqb (from_key ff row) (to_key tf row) res) l acc))
  <-> In k (dict_keys acc) \/ exists row, In row l /\ from_key ff row = k.
Proof.
  revert acc. induction l as [| r l IH]; intro acc; simpl.
  - split; [now left | intros [H | (row & [] & _)]; exact H].
  - rewrite IH, (@dict_set_keys _ _ _ pyid_eqb_eq). split.
    + intros [[-> | H] | (row & Hrow & Hk)].
      * right. exists r. split; [now left | reflexivity].
      * now left.
      * right. exists row. split; [now right | exact Hk].
    + intros [H | (row & [<- | Hrow] & Hk)].
      * left. now right.
      * left. left. now symmetry.
      * right. now exists row.
Qed.

Lemma make_dictmap_later_rows (ff tf : bool) (l : list MapRow) (acc : dict pyid pyid)
    (k : pyid) :
  (forall row, In row l -> from_key ff row <> k) ->
  dict_get pyid_eqb k (fold_left (fun res row =>
      dict_set pyid_eqb (from_key ff row) (to_key tf row) res) l acc)
  = dict_get pyid_eqb k acc.
Proof.
  revert acc. induction l as [| r l IH]; intros acc Hl; simpl; [reflexivity |].
  rewrite IH by (intros row Hrow; apply Hl; now right).
  rewrite pyid_dict_get_set.
  destruct (pyid_eqb k (from_key ff r)) eqn:E; [| reflexivity].
  apply pyid_eqb_eq in E. exfalso. apply (Hl r); [now left | now symmetry].
Qed.

Lemma make_dictmap_last_row (mapdata : MapData) (pre post : list MapRow) (row : MapRow) :
  rows mapdata = pre ++ row :: post ->
  (forall r, In r post ->
     from_key (has_from_fuel_id mapdata) r <> from_key (has_from_fuel_id mapdata) row) ->
  In (from_key (has_from_fuel_id mapdata) row, to_key (has_to_fuel_id mapdata) row)
     (ExplicitAggregation_make_dictmap mapdata).
Proof.
  intros Hrows Hlast. apply (@dict_get_In _ _ _ pyid_eqb_eq).
  unfold ExplicitAggregation_make_dictmap. rewrite Hrows, fold_left_app. simpl.
  rewrite make_dictmap_later_rows by exact Hlast.
  rewrite pyid_dict_get_set. now rewrite pyid_eqb_refl.
Qed.

Lemma make_dictmap_any_row (mapdata : MapData) (row : MapRow) :
  In row (rows mapdata) ->
  exists to_id,
    In (from_key (has_from_fuel_id mapdata) row, to_id)
       (ExplicitAggregation_make_dictmap mapdata).
Proof.
  intro Hrow.
  assert (Hk : In (from_key (has_from_fuel_id mapdata) row)
                  (dict_keys (ExplicitAggregation_make_dictmap mapdata))).
  { unfold ExplicitAggregation_make_dictmap. apply make_dictmap_keys.
    right. now exists row. }
  unfold dict_keys in Hk. apply in_map_iff in Hk.
  destruct Hk as ([k v] & Hfst & Hin). simpl in Hfst. subst k. now exists v.
Qed.

(** C7 (as amended): construction validates eagerly and raises [DSGridError].
    [FullAggregationMap] raises on a [to_enum] of two or more ids, and, when
    [to_enum] is not empty, on an [exclude_list] entry absent from
    [from_enum.ids].  [ExplicitAggregation] raises on a table with a from id
    outside [from_enum.ids] or a to id outside [to_enum.ids], and the error
    names such an id and its enumeration.  Through [create_from_csv] the table
    is the dictionary [_make_dictmap] builds, which keeps for each from key
    the to key of its last row: any row with a from key outside
    [from_enum.ids] raises, and so does a row with a to key outside
    [to_enum.ids] that no later row with the same from key replaces. *)
Theorem construction_validation :
  (forall from_enum to_enum exclude_list,
     2 <= length (ids to_enum) ->
     FullAggregationMap__init__ from_enum to_enum exclude_list
     = Raise (DSGridError (TooManyItems to_enum))) /\
  (forall from_enum to_enum exclude_list x,
     ids to_enum <> [] -> In x exclude_list -> ~ In x (ids from_enum) ->
     exists msg,
       FullAggregationMap__init__ from_enum to_enum exclude_list
       = Raise (DSGridError msg) /\
       (msg = TooManyItems to_enum \/
        exists y, In y exclude_list /\ ~ In y (ids from_enum) /\
                  msg = ExcludeNotInFromEnum y from_enum)) /\
  (forall from_enum to_enum dictmap from_id to_id,
     In (from_id, to_id) dictmap ->
     ~ In from_id (ids from_enum) \/ ~ In to_id (ids to_enum) ->
     exists e, ExplicitAggregation__init__ from_enum to_enum dictmap = Raise e /\
               names_offending_id from_enum to_enum dictmap e) /\
  (forall read_csv from_enum to_enum filepath row,
     let mapdata := read_csv filepath in
     In row (rows mapdata) ->
     ~ In (from_key (has_from_fuel_id mapdata) row) (ids from_enum) ->
     exists e,
       ExplicitAggregation_create_from_csv read_csv from_enum to_enum filepath = Raise e /\
       names_offending_id from_enum to_enum (ExplicitAggregation_make_dictmap mapdata) e) /\
  (forall read_csv from_enum to_enum filepath pre row post,
     let mapdata := read_csv filepath in
     rows mapdata = pre ++ row :: post ->
     (forall r, In r post ->
        from_key (has_from_fuel_id mapdata) r <> from_key (has_from_fuel_id mapdata) row) ->
     ~ In (to_key (has_to_fuel_id mapdata) row) (ids to_enum) ->
     exists e,
       ExplicitAggregation_create_from_csv read_csv from_enum to_enum filepath = Raise e /\
       names_offending_id from_enum to_enum (ExplicitAggregation_make_dictmap mapdata) e).
Proof.
  repeat apply conj.
  - apply FullAggregationMap_too_many.
  - apply FullAggregationMap_bad_exclude.
  - apply ExplicitAggregation_invalid_table.
  - intros read_csv from_enum to_enum filepath row mapdata Hrow Hbad.
    destruct (make_dictmap_any_row mapdata row Hrow) as [to_id Hin].
    unfold ExplicitAggregation_create_from_csv.
    apply (ExplicitAggregation_invalid_table _ _ _ _ _ Hin). now left.
  - intros read_csv from_enum to_enum filepath pre row post mapdata Hrows Hlast Hbad.
    unfold ExplicitAggregation_create_from_csv.
    apply (ExplicitAggregation_invalid_table _ _ _ _ _
             (make_dictmap_last_row mapdata pre post row Hrows Hlast)).
    now right.
Qed.

(** C7 (as stated) fails twice.  With an empty [to_enum], an [exclude_list]
    entry that is not an id of [from_enum] ends in [IndexError], not in a
    [DSGridError].  And a CSV table whose first row names a to id that
    [to_enum] lacks is accepted when a later row gives the same from id a
    valid to id. *)
Lemma construction_validation_counterexample :
  (~ In (IdStr "PR") (ids ex_states) /\
   FullAggregationMap__init__ ex_states ex_empty [IdStr "PR"] = Raise IndexError) /\
  (In (mkMapRow "CO" "nowhere" "" "") (rows ex_rows_replaced) /\
   ~ In (IdStr "nowhere") (ids ex_conus) /\
   ExplicitAggregation_create_from_csv (fun _ => ex_rows_replaced)
     ex_states ex_conus "states_to_conus.csv"
   = Return (ExplicitAggregation ex_states ex_conus
               [(IdStr "CO", IdStr "conus"); (IdStr "HI", IdStr "conus")])).
Proof.
  repeat split.
  - simpl. intros [H | [H | []]]; discriminate.
  - simpl. now left.
  - simpl. intros [H | []]; discriminate.
Qed.

(** ** The registry *)

Lemma candidate_okay_covers (from_enum : Enumeration) (candidate : DimensionMap) :
  candidate_okay (ids from_enum) candidate = true <-> covers from_enum candidate.
Proof.
  unfold covers. induction (ids from_enum) as [| x l IH]; simpl.
  - split; [intros _ y [] | reflexivity].
  - destruct (py_in x (ids (from_enum_of candidate))) eqn:Hx; simpl.
    + rewrite IH. apply py_in_In in Hx. split.
      * intros H y [<- | Hy]; auto.
      * intros H y Hy. apply H. now right.
    + split; [discriminate |]. intro H.
      apply py_in_not_In in Hx. exfalso. apply Hx, H. now left.
Qed.

Lemma first_okay_candidate_skip (from_enum : Enumeration) (l1 l2 : list DimensionMap) :
  (forall c, In c l1 -> ~ covers from_enum c) ->
  first_okay_candidate from_enum (l1 ++ l2) = first_okay_candidate from_enum l2.
Proof.
  induction l1 as [| c l1 IH]; simpl; intro H; [reflexivity |].
  destruct (candidate_okay (ids from_enum) c) eqn:Hc.
  - apply candidate_okay_covers in Hc. exfalso. apply (H c); auto.
  - apply IH. intros c' Hc'. apply H. now right.
Qed.

Lemma candidates_of (to_name : string) (l : dict key DimensionMap) (c : DimensionMap) :
  In c (map snd (filter (fun kv => String.eqb (snd (fst kv)) to_name) l)) <->
  exists k, In (k, c) l /\ snd k = to_name.
Proof.
  rewrite in_map_iff. split.
  - intros ([k c'] & Hc & Hin). simpl in Hc. subst c'.
    apply filter_In in Hin. destruct Hin as [Hin Hk]. simpl in Hk.
    apply String.eqb_eq in Hk. now exists k.
  - intros (k & Hin & Hk). exists (k, c). split; [reflexivity |].
    apply filter_In. split; [assumption |]. simpl. now apply String.eqb_eq.
Qed.

(** A mapping added under a key the registry does not hold yet goes last, and
    one added under a key it holds replaces the stored mapping in place: the
    order of the registry is the order in which its keys were first added. *)
Lemma add_mapping_order (self : dict key DimensionMap) (mapping : DimensionMap) :
  let the_key := (name (from_enum_of mapping), name (to_enum_of mapping)) in
  dict_get key_eqb the_key (add_mapping self mapping) = Some mapping /\
  (dict_mem key_eqb the_key self = false ->
   add_mapping self mapping = self ++ [(the_key, mapping)]) /\
  (dict_mem key_eqb the_key self = true ->
   dict_keys (add_mapping self mapping) = dict_keys self).
Proof.
  unfold add_mapping. repeat split.
  - rewrite (@dict_get_set _ _ _ key_eqb_eq). now rewrite key_eqb_refl.
  - apply dict_set_absent.
  - apply dict_set_present_keys.
Qed.

Section Resolution.
Variable enum_eq : Enumeration -> Enumeration -> bool.
Variable is_subset : Enumeration -> Enumeration -> bool.

(** C1: once [from_enum] is read off the datafile, [get_mapping] resolves in
    this order: (1) the mapping stored under [(from_enum.name, to_enum.name)],
    whatever the tautology tests would say; (2) otherwise a
    [TautologyMapping(to_enum)] if [from_enum == to_enum] or
    [from_enum.is_subset(to_enum)]; (3) otherwise the first stored mapping, in
    the order of the registry, whose key ends in [to_enum.name] and whose
    [from_enum.ids] contain every id of [from_enum]; (4) otherwise [None]. *)
Theorem get_mapping_resolution :
  forall (self : dict key DimensionMap) (datafile : Datafile)
         (to_enum from_enum : Enumeration),
    select_from_enum datafile to_enum = Return from_enum ->
    let the_key := (name from_enum, name to_enum) in
    let answer := get_mapping enum_eq is_subset self datafile to_enum in
    (forall mapping,
       dict_get key_eqb the_key self = Some mapping ->
       answer = Return (Some mapping)) /\
    (dict_get key_eqb the_key self = None ->
     enum_eq from_enum to_enum = true \/ is_subset from_enum to_enum = true ->
     answer = Return (Some (TautologyMapping to_enum))) /\
    (dict_get key_eqb the_key self = None ->
     enum_eq from_enum to_enum = false -> is_subset from_enum to_enum = false ->
     forall before k candidate after,
       self = before ++ (k, candidate) :: after ->
       snd k = name to_enum ->
       covers from_enum candidate ->
       (forall k' c', In (k', c') before -> snd k' = name to_enum ->
                      ~ covers from_enum c') ->
       answer = Return (Some candidate)) /\
    (dict_get key_eqb the_key self = None ->
     enum_eq from_enum to_enum = false -> is_subset from_enum to_enum = false ->
     (forall k c, In (k, c) self -> snd k = name to_enum -> ~ covers from_enum c) ->
     answer = Return None).
Proof.
  intros self datafile to_enum from_enum Hsel the_key answer.
  subst answer the_key. unfold get_mapping. rewrite Hsel. simpl.
  repeat apply conj.
  - intros mapping Hget. now rewrite Hget.
  - intros Hget [Heq | Hsub]; rewrite Hget.
    + now rewrite Heq.
    + rewrite Hsub. now destruct (enum_eq from_enum to_enum).
  - intros Hget Heq Hsub before k candidate after Hself Hk Hcov Hbefore.
    rewrite Hget, Heq, Hsub. f_equal.
    rewrite Hself, filter_app, map_app. simpl.
    rewrite Hk, String.eqb_refl. simpl.
    rewrite first_okay_candidate_skip.
    + simpl. apply candidate_okay_covers in Hcov. now rewrite Hcov.
    + intros c Hc. apply candidates_of in Hc. destruct Hc as (k' & Hin & Hk').
      now apply (Hbefore k').
  - intros Hget Heq Hsub Hnone. rewrite Hget, Heq, Hsub. f_equal.
    rewrite <- (app_nil_r (map snd _)).
    rewrite first_okay_candidate_skip; [reflexivity |].
    intros c Hc. apply candidates_of in Hc. destruct Hc as (k' & Hin & Hk').
    now apply (Hnone k').
Qed.

End Resolution.

(** The stored conus_states -> states mapping is returned although
    conus_states is a subset of states. *)
Lemma get_mapping_resolution_witness :
  ex_is_subset ex_conus_states ex_states = true /\
  get_mapping (fun _ _ => false) ex_is_subset ex_registry ex_datafile ex_states
  = Return (Some ex_conus_states_to_states).
Proof.
  split; [reflexivity |].
  apply (proj1 (@get_mapping_resolution (fun _ _ => false) ex_is_subset
                  ex_registry ex_datafile ex_states ex_conus_states eq_refl)).
  reflexivity.
Defined.

(* ================================================================== *)
(** ** The factor solver: the ratio graph *)

Lemma edge_unit_names (factors : factors_table) (a b : string) :
  edge factors a b -> In a (unit_names factors) /\ In b (unit_names factors).
Proof.
  intros [f [H | H]]; unfold unit_names; split; apply in_flat_map;
    (eexists; split; [exact H | simpl; auto]).
Qed.

Lemma connected_unit_names (factors : factors_table) (a b : string) :
  connected factors a b -> In a (unit_names factors) /\ In b (unit_names factors).
Proof.
  induction 1 as [a b He | a b c He _ [_ IH]].
  - now apply edge_unit_names.
  - split; [apply (edge_unit_names He) | exact IH].
Qed.

(** ** The factor solver: loops that return *)

Lemma for_fold_returns {A S : Type} (body : S -> A -> result S) (l : list A) :
  (forall s x, In x l -> exists s', body s x = Return s') ->
  forall st, exists st', for_fold l st body = Return st'.
Proof.
  induction l as [| x l IH]; simpl; intros Hbody st.
  - now exists st.
  - destruct (Hbody st x (or_introl eq_refl)) as [s1 Hs1]. rewrite Hs1. simpl.
    apply IH. intros s y Hy. apply Hbody. now right.
Qed.

Lemma for_fold_no_Diverge {A S : Type} (body : S -> A -> result S) (l : list A) :
  (forall s x, body s x <> Diverge) ->
  forall st, for_fold l st body <> Diverge.
Proof.
  intro Hbody. induction l as [| x l IH]; simpl; intro st; [discriminate |].
  destruct (body st x) as [s1 | e |] eqn:E; simpl.
  - apply IH.
  - discriminate.
  - exfalso. now apply (Hbody st x).
Qed.

Lemma collect_factor_no_Diverge (to_unit : string) (res : factors_table)
    (item : key * float) :
  collect_factor to_unit res item <> Diverge.
Proof.
  destruct item as [[from_u to_u] factor]. unfold collect_factor, float_inverse.
  destruct (String.eqb from_u to_unit); [| discriminate].
  destruct (PrimFloat.eqb factor 0); discriminate.
Qed.

Lemma get_all_factors_no_Diverge (to_unit : string) (factors : factors_table)
    (multiplier : option float) :
  _get_all_factors to_unit factors multiplier <> Diverge.
Proof.
  unfold _get_all_factors.
  destruct (for_fold factors [] (collect_factor to_unit)) as [r | e |] eqn:E; simpl.
  - destruct multiplier; discriminate.
  - discriminate.
  - exfalso. revert E. apply for_fold_no_Diverge. apply collect_factor_no_Diverge.
Qed.

Lemma get_all_factors_returns (to_unit : string) (factors : factors_table)
    (multiplier : option float) :
  nonzero_factors factors ->
  exists res, _get_all_factors to_unit factors multiplier = Return res.
Proof.
  intro Hnz. unfold _get_all_factors.
  destruct (@for_fold_returns (key * float) (list (key * float))
              (collect_factor to_unit) factors) with (st := @nil (key * float))
    as [r Hr].
  - intros s [[from_u to_u] factor] Hin. unfold collect_factor, float_inverse.
    rewrite (Hnz _ _ Hin). simpl.
    destruct (String.eqb from_u to_unit); eauto.
  - rewrite Hr. simpl. destruct multiplier; eauto.
Qed.

(** The keys [_get_all_factors] returns all end in [to_unit], are distinct,
    and each starts at a unit one edge away from [to_unit]. *)
Lemma get_all_factors_keys (to_unit : string) (factors : factors_table)
    (multiplier : option float) (res : factors_table) :
  _get_all_factors to_unit factors multiplier = Return res ->
  NoDup (dict_keys res) /\
  forall k, In k (dict_keys res) -> snd k = to_unit /\ edge factors (fst k) to_unit.
Proof.
  unfold _get_all_factors. intro H.
  destruct (for_fold factors [] (collect_factor to_unit)) as [r | e |] eqn:Hloop;
    try discriminate.
  simpl in H.
  set (P := fun s : factors_table =>
              NoDup (dict_keys s) /\
              forall k, In k (dict_keys s) ->
                        snd k = to_unit /\ edge factors (fst k) to_unit).
  assert (Hset : forall s k v, P s -> snd k = to_unit -> edge factors (fst k) to_unit ->
                               P (dict_set key_eqb k v s)).
  { intros s k v [Hnd Hk] Hsnd Hedge. split.
    - now apply (@dict_set_NoDup _ _ _ key_eqb_eq).
    - intros k0 Hk0. apply (@dict_set_keys _ _ _ key_eqb_eq) in Hk0.
      destruct Hk0 as [-> | Hk0]; auto. }
  assert (Hr : P r).
  { eapply (@for_fold_invariant _ _ P); [| | exact Hloop].
    - intros s [[from_u to_u] factor] s' Hin Hs Hbody.
      unfold collect_factor in Hbody.
      assert (Hs1 : P (if String.eqb to_u to_unit
                       then dict_set key_eqb (from_u, to_u) factor s else s)).
      { destruct (String.eqb to_u to_unit) eqn:Eto; [| exact Hs].
        apply String.eqb_eq in Eto. apply Hset; auto.
        simpl. exists factor. left. now rewrite <- Eto. }
      destruct (String.eqb from_u to_unit) eqn:Efrom.
      + destruct (float_inverse factor) as [inv | e |]; try discriminate.
        simpl in Hbody. inversion Hbody; subst s'.
        apply String.eqb_eq in Efrom. apply Hset; auto.
        simpl. exists factor. right. now rewrite <- Efrom.
      + inversion Hbody; subst s'. exact Hs1.
    - split; [constructor | intros k []]. }
  assert (Hkeys : dict_keys res = dict_keys r).
  { destruct multiplier as [m |]; inversion H; [| reflexivity].
    unfold dict_keys. rewrite map_map. reflexivity. }
  rewrite Hkeys. exact Hr.
Qed.

(** ** The factor solver: one pass of the expansion *)

Section Pass.
Variable factors : factors_table.
Variable to_unit : string.

Lemma grows_refl (st : factors_table * bool) : grows st st.
Proof.
  exists []. split; [now rewrite app_nil_r |].
  split; [now left | intros [H | H]; [exact H | contradiction]].
Qed.

Lemma grows_trans (st1 st2 st3 : factors_table * bool) :
  grows st1 st2 -> grows st2 st3 -> grows st1 st3.
Proof.
  intros (n1 & H1 & B1) (n2 & H2 & B2). exists (n1 ++ n2). split.
  - now rewrite H2, H1, app_assoc.
  - rewrite B2, B1. split.
    + intros [[H | H] | H]; [now left | right | right].
      * intro E. apply app_eq_nil in E. now destruct E.
      * intro E. apply app_eq_nil in E. now destruct E.
    + intros [H | H]; [now left; left |].
      destruct n1 as [| x n1]; [right | left; right; discriminate].
      exact H.
Qed.

Lemma add_candidate_grows (st : factors_table * bool) (cand : key * float) :
  grows st (add_candidate to_unit st cand).
Proof.
  unfold add_candidate.
  destruct (dict_mem key_eqb (fst (fst cand), to_unit) (fst st)) eqn:E.
  - apply grows_refl.
  - exists [((fst (fst cand), to_unit), snd cand)]. simpl. split.
    + now apply dict_set_absent.
    + split; [intros _; right; discriminate | reflexivity].
Qed.

Lemma add_candidate_known (st : factors_table * bool) (cand : key * float) :
  known_pairs factors to_unit (fst st) -> connected factors (fst (fst cand)) to_unit ->
  known_pairs factors to_unit (fst (add_candidate to_unit st cand)).
Proof.
  intros [Hnd Hk] Hconn. unfold add_candidate.
  destruct (dict_mem key_eqb (fst (fst cand), to_unit) (fst st)); [now split |].
  simpl. split.
  - now apply (@dict_set_NoDup _ _ _ key_eqb_eq).
  - intros k Hin. apply (@dict_set_keys _ _ _ key_eqb_eq) in Hin.
    destruct Hin as [-> | Hin]; [now split | now apply Hk].
Qed.

Lemma add_candidates_grows (candidates : factors_table) (st : factors_table * bool) :
  grows st (add_candidates to_unit candidates st).
Proof.
  unfold add_candidates. revert st.
  induction candidates as [| cand rest IH]; intro st; simpl.
  - apply grows_refl.
  - eapply grows_trans; [apply add_candidate_grows | apply IH].
Qed.

Lemma add_candidates_known (candidates : factors_table) (st : factors_table * bool) :
  known_pairs factors to_unit (fst st) ->
  (forall cand, In cand candidates -> connected factors (fst (fst cand)) to_unit) ->
  known_pairs factors to_unit (fst (add_candidates to_unit candidates st)).
Proof.
  unfold add_candidates. revert st.
  induction candidates as [| cand rest IH]; intros st Hst Hc; simpl; [exact Hst |].
  apply IH.
  - apply add_candidate_known; [exact Hst | apply Hc; now left].
  - intros c Hin. apply Hc. now right.
Qed.

Lemma expand_step_spec (st st' : factors_table * bool) (item : key * float) :
  expand_step factors to_unit st item = Return st' ->
  grows st st' /\
  (known_pairs factors to_unit (fst st) -> connected factors (fst (fst item)) to_unit ->
   known_pairs factors to_unit (fst st')).
Proof.
  unfold expand_step. intro H.
  destruct (_get_all_factors (fst (fst item)) factors (Some (snd item)))
    as [candidates | e |] eqn:Hc; try discriminate.
  simpl in H. inversion H; subst st'; clear H. split.
  - apply add_candidates_grows.
  - intros Hst Hitem. apply add_candidates_known; [exact Hst |].
    intros cand Hin. apply get_all_factors_keys in Hc. destruct Hc as [_ Hc].
    destruct (Hc (fst cand)) as [_ Hedge].
    { unfold dict_keys. now apply in_map. }
    now apply connected_step with (fst (fst item)).
Qed.

Lemma expand_pass_spec (these_factors : factors_table) (st' : factors_table * bool) :
  expand_pass factors to_unit these_factors = Return st' ->
  grows (these_factors, false) st' /\
  (known_pairs factors to_unit these_factors -> known_pairs factors to_unit (fst st')).
Proof.
  unfold expand_pass. intro H.
  eapply (@for_fold_invariant _ _
            (fun st => grows (these_factors, false) st /\
                       (known_pairs factors to_unit these_factors -> known_pairs factors to_unit (fst st))));
    [| | exact H].
  - intros s item s' Hin [Hg Hk] Hbody.
    apply expand_step_spec in Hbody. destruct Hbody as [Hg' Hk']. split.
    + now apply grows_trans with s.
    + intro Hknown. apply Hk'; [now apply Hk |].
      apply Hknown. unfold dict_keys. now apply in_map.
  - split; [apply grows_refl | trivial].
Qed.

Lemma expand_pass_no_Diverge (these_factors : factors_table) :
  expand_pass factors to_unit these_factors <> Diverge.
Proof.
  unfold expand_pass. apply for_fold_no_Diverge. intros s item.
  unfold expand_step.
  destruct (_get_all_factors (fst (fst item)) factors (Some (snd item)))
    as [c | e |] eqn:E; simpl; try discriminate.
  exfalso. revert E. apply get_all_factors_no_Diverge.
Qed.

Lemma expand_pass_returns (these_factors : factors_table) :
  nonzero_factors factors ->
  exists st', expand_pass factors to_unit these_factors = Return st'.
Proof.
  intro Hnz. unfold expand_pass. apply for_fold_returns. intros s item _.
  unfold expand_step.
  destruct (get_all_factors_returns (fst (fst item)) (Some (snd item)) Hnz)
    as [c Hc].
  rewrite Hc. simpl. eauto.
Qed.

(** The known pairs never outnumber the units of the table. *)
Lemma known_pairs_bound (these_factors : factors_table) :
  known_pairs factors to_unit these_factors ->
  length these_factors <= length (unit_names factors).
Proof.
  intros [Hnd Hk].
  replace (length these_factors)
    with (length (map fst (dict_keys these_factors)))
    by (unfold dict_keys; now rewrite !length_map).
  apply NoDup_incl_length.
  - apply NoDup_map_NoDup_ForallPairs; [| exact Hnd].
    intros [a1 a2] [b1 b2] Ha Hb Heq. simpl in Heq.
    destruct (Hk _ Ha) as [Ha2 _]. destruct (Hk _ Hb) as [Hb2 _].
    simpl in Ha2, Hb2. congruence.
  - intros u Hu. apply in_map_iff in Hu. destruct Hu as (k & <- & Hin).
    destruct (Hk _ Hin) as [_ Hconn].
    now apply connected_unit_names in Hconn.
Qed.

(** A pass that sets [something_added] leaves strictly more known pairs. *)
Lemma expand_pass_progress (these_factors : factors_table)
    (st' : factors_table * bool) :
  expand_pass factors to_unit these_factors = Return st' ->
  snd st' = true -> length these_factors < length (fst st').
Proof.
  intros H Hadded. apply expand_pass_spec in H.
  destruct H as [(new & Hnew & Hb) _]. simpl in Hnew, Hb.
  rewrite Hnew, length_app.
  apply Hb in Hadded. destruct Hadded as [Hf | Hne]; [discriminate |].
  destruct new; [contradiction | simpl; lia].
Qed.

End Pass.

(** ** The factor solver: the [while] loop *)

(** With one pass in hand for every unit not yet known, the loop ends, and
    passes beyond that are never run. *)
Lemma expand_loop_stable (factors : factors_table) (from_unit to_unit : string) :
  forall (passes : nat) (these_factors : factors_table),
    known_pairs factors to_unit these_factors ->
    length (unit_names factors) - length these_factors < passes ->
    expand_loop passes factors from_unit to_unit these_factors <> Diverge /\
    forall extra,
      expand_loop (passes + extra) factors from_unit to_unit these_factors
      = expand_loop passes factors from_unit to_unit these_factors.
Proof.
  induction passes as [| passes IH]; intros tf Hk Hlt; [lia |].
  simpl.
  destruct (expand_pass factors to_unit tf) as [st | e |] eqn:Hpass; simpl.
  - destruct (dict_get key_eqb (from_unit, to_unit) (fst st));
      [split; [discriminate | reflexivity] |].
    destruct (snd st) eqn:Hadded; [| split; [discriminate | reflexivity]].
    apply IH.
    + now apply (@expand_pass_spec _ _ _ _ Hpass).
    + pose proof (@expand_pass_progress _ _ _ _ Hpass Hadded) as Hprog.
      pose proof (@known_pairs_bound _ _ _
                    (proj2 (@expand_pass_spec _ _ _ _ Hpass) Hk)) as Hbound.
      lia.
  - split; [discriminate | reflexivity].
  - exfalso. revert Hpass. apply expand_pass_no_Diverge.
Qed.

Lemma initial_known_pairs (factors : factors_table) (to_unit : string)
    (these_factors : factors_table) :
  _get_all_factors to_unit factors None = Return these_factors ->
  known_pairs factors to_unit these_factors.
Proof.
  intro H. apply get_all_factors_keys in H. destruct H as [Hnd Hk].
  split; [exact Hnd |]. intros k Hin. destruct (Hk k Hin) as [Hsnd Hedge].
  split; [exact Hsnd | now apply connected_edge].
Qed.

(** C5: [scaling_factor] terminates on every table and every pair of units:
    run with one pass per unit named in the table (and one more), the loop
    never uses up its passes, and a larger budget changes nothing.  Each pass
    only appends to the known pairs, and sets [something_added] exactly when
    it appended one. *)
Theorem scaling_factor_terminates :
  forall (factors : factors_table) (from_unit to_unit : string),
    scaling_factor factors from_unit to_unit <> Diverge /\
    (forall extra,
       scaling_factor_passes (enough_passes factors + extra) factors from_unit to_unit
       = scaling_factor factors from_unit to_unit) /\
    (forall these_factors st,
       expand_pass factors to_unit these_factors = Return st ->
       exists new, fst st = these_factors ++ new /\ (snd st = true <-> new <> [])).
Proof.
  intros factors from_unit to_unit. unfold scaling_factor, scaling_factor_passes.
  assert (Hloop : forall tf,
            _get_all_factors to_unit factors None = Return tf ->
            expand_loop (enough_passes factors) factors from_unit to_unit tf <> Diverge /\
            forall extra,
              expand_loop (enough_passes factors + extra) factors from_unit to_unit tf
              = expand_loop (enough_passes factors) factors from_unit to_unit tf).
  { intros tf Hinit. apply expand_loop_stable.
    - now apply initial_known_pairs.
    - unfold enough_passes. lia. }
  repeat apply conj.
  - destruct (_get_all_factors to_unit factors None) as [tf | e |] eqn:Hinit;
      cbn [bind].
    + destruct (dict_get key_eqb (from_unit, to_unit) tf); [discriminate |].
      now apply Hloop.
    + discriminate.
    + exfalso. revert Hinit. apply get_all_factors_no_Diverge.
  - intro extra.
    destruct (_get_all_factors to_unit factors None) as [tf | e |] eqn:Hinit;
      cbn [bind]; try reflexivity.
    destruct (dict_get key_eqb (from_unit, to_unit) tf); [reflexivity |].
    now apply Hloop.
  - intros tf st Hpass. apply expand_pass_spec in Hpass.
    destruct Hpass as [(new & Hnew & Hb) _]. simpl in Hnew, Hb.
    exists new. split; [exact Hnew |]. rewrite Hb.
    split; [intros [H | H]; [discriminate | exact H] | now right].
Qed.

(** Where no path joins [from_unit] to [to_unit], the loop ends in the
    "no conversion factor" error. *)
Lemma expand_loop_unreachable (factors : factors_table) (from_unit to_unit : string) :
  nonzero_factors factors ->
  ~ connected factors from_unit to_unit ->
  forall (passes : nat) (these_factors : factors_table),
    known_pairs factors to_unit these_factors ->
    length (unit_names factors) - length these_factors < passes ->
    expand_loop passes factors from_unit to_unit these_factors
    = Raise (DSGridNotImplemented (no_conversion_message from_unit to_unit)).
Proof.
  intros Hnz Hno. induction passes as [| passes IH]; intros tf Hk Hlt; [lia |].
  simpl.
  destruct (@expand_pass_returns factors to_unit tf Hnz) as [st Hpass].
  rewrite Hpass. simpl.
  pose proof (proj2 (@expand_pass_spec _ _ _ _ Hpass) Hk) as Hk'.
  destruct (dict_get key_eqb (from_unit, to_unit) (fst st)) as [v |] eqn:Hget.
  - exfalso. apply Hno.
    apply (@dict_get_In _ _ _ key_eqb_eq) in Hget.
    apply (in_map fst) in Hget. now apply Hk' in Hget.
  - destruct (snd st) eqn:Hadded; [| reflexivity].
    apply IH; [exact Hk' |].
    pose proof (@expand_pass_progress _ _ _ _ Hpass Hadded).
    pose proof (@known_pairs_bound _ _ _ Hk'). lia.
Qed.

Lemma scaling_factor_unreachable (factors : factors_table) (from_unit to_unit : string) :
  nonzero_factors factors ->
  ~ connected factors from_unit to_unit ->
  scaling_factor factors from_unit to_unit
  = Raise (DSGridNotImplemented (no_conversion_message from_unit to_unit)).
Proof.
  intros Hnz Hno. unfold scaling_factor, scaling_factor_passes.
  destruct (@get_all_factors_returns to_unit factors None Hnz) as [tf Hinit].
  rewrite Hinit. cbn [bind].
  pose proof (@initial_known_pairs _ _ _ Hinit) as Hk.
  destruct (dict_get key_eqb (from_unit, to_unit) tf) as [v |] eqn:Hget.
  - exfalso. apply Hno.
    apply (@dict_get_In _ _ _ key_eqb_eq) in Hget.
    apply (in_map fst) in Hget. now apply Hk in Hget.
  - apply expand_loop_unreachable; auto.
    unfold enough_passes. lia.
Qed.

Lemma CONVERSION_FACTORS_nonzero : nonzero_factors CONVERSION_FACTORS.
Proof.
  intros k f [H | [H | [H | []]]]; inversion H; reflexivity.
Qed.

(** C4: for every pair of units that no path of the ratio graph of
    [CONVERSION_FACTORS] joins, [UnitConversionMap.scaling_factor] raises
    [DSGridNotImplemented] with a message naming both units. *)
Theorem scaling_factor_no_path :
  forall from_unit to_unit : string,
    ~ connected CONVERSION_FACTORS from_unit to_unit ->
    scaling_factor CONVERSION_FACTORS from_unit to_unit
    = Raise (DSGridNotImplemented
               ("No conversion factor available to go from " ++ from_unit
                ++ " to " ++ to_unit ++ ".")%string).
Proof.
  intros from_unit to_unit Hno.
  now apply scaling_factor_unreachable; [apply CONVERSION_FACTORS_nonzero |].
Qed.

Lemma scaling_factor_no_path_witness :
  scaling_factor CONVERSION_FACTORS "kWh" "Joules"
  = Raise (DSGridNotImplemented
             "No conversion factor available to go from kWh to Joules.").
Proof.
  apply (@scaling_factor_no_path "kWh" "Joules").
  intro H. apply connected_unit_names in H. destruct H as [_ H].
  simpl in H. repeat (destruct H as [H | H]; [discriminate |]). exact H.
Defined.

(* ================================================================== *)
(** * Further properties of the module *)

(** ** Loops over a list, element by element *)

Lemma for_fold_progress_invariant {A S : Type} (P : list A -> S -> Prop)
    (body : S -> A -> result S) (l : list A) :
  (forall pre s x s',
     In x l -> P pre s -> body s x = Return s' -> P (pre ++ [x]) s') ->
  forall st st', P [] st -> for_fold l st body = Return st' -> P l st'.
Proof.
  intro Hstep.
  assert (Hgen : forall l2 pre st st',
             (forall x, In x l2 -> In x l) -> P pre st ->
             for_fold l2 st body = Return st' -> P (pre ++ l2) st').
  { induction l2 as [| x l2 IH]; simpl; intros pre st st' Hsub Hst Hrun.
    - inversion Hrun. subst. now rewrite app_nil_r.
    - destruct (body st x) as [s1 | e |] eqn:E; simpl in Hrun; try discriminate.
      replace (pre ++ x :: l2) with ((pre ++ [x]) ++ l2)
        by (rewrite <- app_assoc; reflexivity).
      apply (IH (pre ++ [x]) s1 st'); [| | assumption].
      + intros y Hy. apply Hsub. now right.
      + apply (Hstep pre st x s1); auto. }
  intros st st' Hst Hrun. apply (Hgen l [] st st'); auto.
Qed.

(** A loop whose body can only raise [e] raises [e] as soon as one element
    always does. *)
Lemma for_fold_raises {A S : Type} (body : S -> A -> result S) (e : exn)
    (l : list A) (x : A) :
  (forall s y, (exists s', body s y = Return s') \/ body s y = Raise e) ->
  In x l -> (forall s, body s x = Raise e) ->
  forall st, for_fold l st body = Raise e.
Proof.
  intros Hbody Hin Hx. induction l as [| y l IH]; [contradiction |].
  intro st. simpl. destruct Hin as [-> | Hin].
  - now rewrite Hx.
  - destruct (Hbody st y) as [[s' Hs'] | Hr]; rewrite ?Hs', ?Hr; simpl; auto.
Qed.

(** ** The factor solver finds every unit a path joins to [to_unit] *)

Lemma collect_factor_keys (to_unit : string) (s s' : factors_table)
    (from_u to_u : string) (factor : float) :
  collect_factor to_unit s ((from_u, to_u), factor) = Return s' ->
  (forall k, In k (dict_keys s) -> In k (dict_keys s')) /\
  (to_u = to_unit -> In (from_u, to_u) (dict_keys s')) /\
  (from_u = to_unit -> In (to_u, to_unit) (dict_keys s')).
Proof.
  unfold collect_factor. intro H.
  set (s1 := if String.eqb to_u to_unit
             then dict_set key_eqb (from_u, to_u) factor s else s) in H.
  assert (H1 : (forall k, In k (dict_keys s) -> In k (dict_keys s1)) /\
               (to_u = to_unit -> In (from_u, to_u) (dict_keys s1))).
  { subst s1. destruct (String.eqb to_u to_unit) eqn:E.
    - split; intros; apply (@dict_set_keys _ _ _ key_eqb_eq); auto.
    - split; [auto |]. intro Heq. subst to_u.
      rewrite String.eqb_refl in E. discriminate. }
  destruct H1 as [Hmono Hto].
  destruct (String.eqb from_u to_unit) eqn:E.
  - destruct (float_inverse factor) as [inv | e |]; try discriminate.
    simpl in H. inversion H; subst s'; clear H.
    apply String.eqb_eq in E. subst from_u. repeat split.
    + intros k Hk. apply (@dict_set_keys _ _ _ key_eqb_eq). right. now apply Hmono.
    + intro Heq. apply (@dict_set_keys _ _ _ key_eqb_eq). right. now apply Hto.
    + intros _. apply (@dict_set_keys _ _ _ key_eqb_eq). now left.
  - inversion H; subst s'; clear H. repeat split; auto.
    intro Heq. subst from_u. rewrite String.eqb_refl in E. discriminate.
Qed.

Lemma get_all_factors_complete (to_unit : string) (factors : factors_table)
    (multiplier : option float) (res : factors_table) (a : string) :
  _get_all_factors to_unit factors multiplier = Return res ->
  edge factors a to_unit -> In (a, to_unit) (dict_keys res).
Proof.
  unfold _get_all_factors. intros H Hedge.
  destruct (for_fold factors [] (collect_factor to_unit)) as [r | e |] eqn:Hloop;
    try discriminate.
  simpl in H.
  assert (Hkeys : dict_keys res = dict_keys r).
  { destruct multiplier as [m |]; inversion H; [| reflexivity].
    unfold dict_keys. rewrite map_map. reflexivity. }
  rewrite Hkeys. clear H Hkeys.
  pose (P := fun (pre : list (key * float)) (s : factors_table) =>
               forall x y f, In ((x, y), f) pre ->
                 (y = to_unit -> In (x, y) (dict_keys s)) /\
                 (x = to_unit -> In (y, to_unit) (dict_keys s))).
  assert (HP : P factors r).
  { eapply (@for_fold_progress_invariant _ _ P); [| | exact Hloop].
    - intros pre s [[x0 y0] f0] s' _ Hpre Hbody x y f Hin.
      apply collect_factor_keys in Hbody. destruct Hbody as (Hmono & Hto & Hfrom).
      apply in_app_or in Hin. destruct Hin as [Hin | [Hin | []]].
      + destruct (Hpre x y f Hin) as [H1 H2]. split; intro; apply Hmono; auto.
      + inversion Hin; subst. split; assumption.
    - intros x y f []. }
  destruct Hedge as [f [Hin | Hin]].
  - now apply (HP a to_unit f Hin).
  - now apply (HP to_unit a f Hin).
Qed.

Lemma grows_keys (st st' : factors_table * bool) (k : key) :
  grows st st' -> In k (dict_keys (fst st)) -> In k (dict_keys (fst st')).
Proof.
  intros (new & Hnew & _) Hk. rewrite Hnew, dict_keys_app.
  apply in_or_app. now left.
Qed.

Lemma add_candidates_complete (to_unit : string) (candidates : factors_table)
    (st : factors_table * bool) (cand : key * float) :
  In cand candidates ->
  In (fst (fst cand), to_unit) (dict_keys (fst (add_candidates to_unit candidates st))).
Proof.
  unfold add_candidates. revert st.
  induction candidates as [| c rest IH]; intros st Hin; [contradiction |].
  simpl. destruct Hin as [-> | Hin]; [| now apply IH].
  apply (@grows_keys (add_candidate to_unit st cand)).
  - apply add_candidates_grows.
  - unfold add_candidate.
    destruct (dict_mem key_eqb (fst (fst cand), to_unit) (fst st)) eqn:E.
    + now apply (@dict_mem_keys _ _ _ key_eqb_eq).
    + simpl. apply (@dict_set_keys _ _ _ key_eqb_eq). now left.
Qed.

(** After a pass, every unit one edge away from a pair known before the pass
    is known. *)
Lemma expand_pass_complete (factors : factors_table) (to_unit : string)
    (these_factors : factors_table) (st : factors_table * bool) :
  expand_pass factors to_unit these_factors = Return st ->
  forall b a, In (b, to_unit) (dict_keys these_factors) -> edge factors a b ->
              In (a, to_unit) (dict_keys (fst st)).
Proof.
  unfold expand_pass. intro Hpass.
  pose (P := fun (pre : list (key * float)) (s : factors_table * bool) =>
               grows (these_factors, false) s /\
               forall item a, In item pre -> edge factors a (fst (fst item)) ->
                              In (a, to_unit) (dict_keys (fst s))).
  assert (HP : P these_factors st).
  { eapply (@for_fold_progress_invariant _ _ P); [| | exact Hpass].
    - intros pre s item s' _ [Hg Hpre] Hbody.
      pose proof (proj1 (@expand_step_spec _ _ _ _ _ Hbody)) as Hg'.
      split; [now apply grows_trans with s |].
      intros item' a Hin Hedge. apply in_app_or in Hin.
      destruct Hin as [Hin | [<- | []]].
      + apply (@grows_keys _ _ _ Hg'). now apply (Hpre item').
      + unfold expand_step in Hbody.
        destruct (_get_all_factors (fst (fst item)) factors (Some (snd item)))
          as [candidates | e |] eqn:Hc; try discriminate.
        simpl in Hbody. inversion Hbody; subst s'; clear Hbody.
        pose proof (@get_all_factors_complete _ _ _ _ _ Hc Hedge) as Hk.
        unfold dict_keys in Hk. apply in_map_iff in Hk.
        destruct Hk as (cand & Hfst & Hcand).
        pose proof (@add_candidates_complete to_unit _ s _ Hcand) as Hdone.
        now rewrite Hfst in Hdone.
    - split; [apply grows_refl | intros item a []]. }
  destruct HP as [_ HP]. intros b a Hb Hedge.
  unfold dict_keys in Hb. apply in_map_iff in Hb.
  destruct Hb as (item & Hfst & Hitem).
  apply (HP item a Hitem). now rewrite Hfst.
Qed.

Lemma closed_known_pairs_reach (factors : factors_table) (to_unit : string)
    (these_factors : factors_table) :
  (forall a, edge factors a to_unit -> In (a, to_unit) (dict_keys these_factors)) ->
  (forall b a, In (b, to_unit) (dict_keys these_factors) -> edge factors a b ->
               In (a, to_unit) (dict_keys these_factors)) ->
  forall x, connected factors x to_unit -> In (x, to_unit) (dict_keys these_factors).
Proof.
  intros Hfirst Hclosed x Hconn.
  remember to_unit as target eqn:Ht in Hconn.
  induction Hconn as [a b He | a b c He Hc IH]; subst.
  - now apply Hfirst.
  - apply (Hclosed b a); [now apply IH | exact He].
Qed.

Lemma expand_loop_finds (factors : factors_table) (from_unit to_unit : string) :
  nonzero_factors factors ->
  connected factors from_unit to_unit ->
  forall (passes : nat) (these_factors : factors_table),
    known_pairs factors to_unit these_factors ->
    (forall a, edge factors a to_unit -> In (a, to_unit) (dict_keys these_factors)) ->
    length (unit_names factors) - length these_factors < passes ->
    exists v, expand_loop passes factors from_unit to_unit these_factors = Return v.
Proof.
  intros Hnz Hconn. induction passes as [| passes IH]; intros tf Hk Hfirst Hlt; [lia |].
  simpl.
  destruct (@expand_pass_returns factors to_unit tf Hnz) as [st Hpass].
  rewrite Hpass. simpl.
  pose proof (@expand_pass_spec _ _ _ _ Hpass) as [Hg Hk'].
  specialize (Hk' Hk).
  destruct (dict_get key_eqb (from_unit, to_unit) (fst st)) as [v |] eqn:Hget;
    [now exists v |].
  destruct (snd st) eqn:Hadded.
  - apply IH; [exact Hk' | |].
    + intros a Ha. apply (@grows_keys _ _ _ Hg). simpl. now apply Hfirst.
    + pose proof (@expand_pass_progress _ _ _ _ Hpass Hadded).
      pose proof (@known_pairs_bound _ _ _ Hk'). lia.
  - exfalso. apply (@dict_get_None _ _ _ key_eqb_eq) in Hget. apply Hget.
    assert (Hsame : fst st = tf).
    { destruct Hg as (new & Hnew & Hb). simpl in Hnew, Hb.
      destruct new as [| n new]; [now rewrite Hnew, app_nil_r |].
      assert (snd st = true) by (apply Hb; right; discriminate). congruence. }
    rewrite Hsame. apply (@closed_known_pairs_reach factors to_unit tf); auto.
    intros b a Hb Hedge.
    pose proof (@expand_pass_complete _ _ _ _ Hpass b a Hb Hedge) as Hdone.
    now rewrite Hsame in Hdone.
Qed.

Lemma expand_loop_Return_connected (factors : factors_table)
    (from_unit to_unit : string) (v : float) :
  forall (passes : nat) (these_factors : factors_table),
    known_pairs factors to_unit these_factors ->
    expand_loop passes factors from_unit to_unit these_factors = Return v ->
    connected factors from_unit to_unit.
Proof.
  induction passes as [| passes IH]; intros tf Hk Hrun; [discriminate |].
  simpl in Hrun.
  destruct (expand_pass factors to_unit tf) as [st | e |] eqn:Hpass;
    simpl in Hrun; try discriminate.
  pose proof (proj2 (@expand_pass_spec _ _ _ _ Hpass) Hk) as Hk'.
  destruct (dict_get key_eqb (from_unit, to_unit) (fst st)) as [w |] eqn:Hget.
  - apply (@dict_get_In _ _ _ key_eqb_eq) in Hget.
    apply (in_map fst) in Hget. now apply Hk' in Hget.
  - destruct (snd st); [now apply (IH (fst st)) | discriminate].
Qed.

Lemma scaling_factor_Return_iff (factors : factors_table)
    (from_unit to_unit : string) :
  nonzero_factors factors ->
  ((exists v, scaling_factor factors from_unit to_unit = Return v) <->
   connected factors from_unit to_unit).
Proof.
  intros Hnz.
  unfold scaling_factor, scaling_factor_passes.
  destruct (@get_all_factors_returns to_unit factors None Hnz) as [tf Hinit].
  rewrite Hinit. cbn [bind].
  pose proof (@initial_known_pairs _ _ _ Hinit) as Hk.
  destruct (dict_get key_eqb (from_unit, to_unit) tf) as [v |] eqn:Hget.
  - split; [intros _ | intros _; now exists v].
    apply (@dict_get_In _ _ _ key_eqb_eq) in Hget.
    apply (in_map fst) in Hget. now apply Hk in Hget.
  - split.
    + intros [v Hv]. exact (@expand_loop_Return_connected _ _ _ v _ tf Hk Hv).
    + intro Hconn. apply expand_loop_finds; auto.
      * intros a Ha. now apply (@get_all_factors_complete _ _ _ _ _ Hinit).
      * unfold enough_passes. lia.
Qed.

(** X1: on a table with no zero ratio, [scaling_factor(from_unit, to_unit)]
    returns a factor exactly when a path of one or more tabulated ratios,
    taken in either direction, joins the two units. *)
Theorem scaling_factor_returns_iff_connected :
  forall (factors : factors_table) (from_unit to_unit : string),
    nonzero_factors factors ->
    ((exists v, scaling_factor factors from_unit to_unit = Return v) <->
     connected factors from_unit to_unit).
Proof.
  intros factors from_unit to_unit Hnz. now apply scaling_factor_Return_iff.
Qed.

Lemma scaling_factor_returns_iff_connected_witness :
  (exists v, scaling_factor CONVERSION_FACTORS "TWh" "kWh" = Return v) <->
  connected CONVERSION_FACTORS "TWh" "kWh".
Proof.
  apply (@scaling_factor_returns_iff_connected CONVERSION_FACTORS "TWh" "kWh").
  exact CONVERSION_FACTORS_nonzero.
Defined.

(** X2: a zero ratio tabulated as [(a, b)] makes every conversion to [a]
    raise [ZeroDivisionError], whatever unit it starts from: the backward
    ratio [1.0 / 0.0] is formed before anything is looked up. *)
Theorem scaling_factor_zero_ratio :
  forall (factors : factors_table) (a b from_unit : string) (z : float),
    In ((a, b), z) factors -> PrimFloat.eqb z 0 = true ->
    scaling_factor factors from_unit a = Raise ZeroDivisionError.
Proof.
  intros factors a b from_unit z Hin Hz.
  unfold scaling_factor, scaling_factor_passes, _get_all_factors.
  rewrite (@for_fold_raises _ _ (collect_factor a) ZeroDivisionError
             factors ((a, b), z)); [reflexivity | | exact Hin |].
  - intros s [[x y] g]. unfold collect_factor, float_inverse.
    destruct (String.eqb x a); [| left; eauto].
    destruct (PrimFloat.eqb g 0); [now right | left; simpl; eauto].
  - intro s. unfold collect_factor, float_inverse.
    now rewrite String.eqb_refl, Hz.
Qed.

Lemma scaling_factor_zero_ratio_witness :
  scaling_factor [(("kWh", "Wh"), 0%float)] "MWh" "kWh" = Raise ZeroDivisionError.
Proof.
  apply (@scaling_factor_zero_ratio [(("kWh", "Wh"), 0%float)] "kWh" "Wh" "MWh" 0%float).
  - left. reflexivity.
  - reflexivity.
Defined.

Lemma for_fold_unchanged {A S : Type} (body : S -> A -> result S) (l : list A) (st : S) :
  (forall x, In x l -> body st x = Return st) -> for_fold l st body = Return st.
Proof.
  induction l as [| x l IH]; simpl; intro H; [reflexivity |].
  rewrite (H x (or_introl eq_refl)). simpl. apply IH.
  intros y Hy. apply H. now right.
Qed.

(** X3: a conversion to a unit the table does not name raises
    [DSGridNotImplemented] on every table and from every unit, the unit
    itself included: there is no identity conversion for an unknown unit. *)
Theorem scaling_factor_unknown_target :
  forall (factors : factors_table) (from_unit to_unit : string),
    ~ In to_unit (unit_names factors) ->
    scaling_factor factors from_unit to_unit
    = Raise (DSGridNotImplemented (no_conversion_message from_unit to_unit)).
Proof.
  intros factors from_unit to_unit Hnot.
  unfold scaling_factor, scaling_factor_passes, _get_all_factors.
  rewrite for_fold_unchanged; [reflexivity |].
  intros [[x y] g] Hin. unfold collect_factor.
  assert (Hx : String.eqb x to_unit = false).
  { apply String.eqb_neq. intro E. subst x. apply Hnot.
    unfold unit_names. apply in_flat_map. eexists; split; [exact Hin | simpl; auto]. }
  assert (Hy : String.eqb y to_unit = false).
  { apply String.eqb_neq. intro E. subst y. apply Hnot.
    unfold unit_names. apply in_flat_map. eexists; split; [exact Hin | simpl; auto]. }
  now rewrite Hx, Hy.
Qed.

Lemma scaling_factor_unknown_target_witness :
  scaling_factor CONVERSION_FACTORS "Joules" "Joules"
  = Raise (DSGridNotImplemented
             "No conversion factor available to go from Joules to Joules.").
Proof.
  apply (@scaling_factor_unknown_target CONVERSION_FACTORS "Joules" "Joules").
  simpl. intro H. repeat (destruct H as [H | H]; [discriminate |]). exact H.
Defined.

(** ** Tabulated ratios and their inverses *)

Lemma dict_keys_NoDup_value {K V : Type} (d : dict K V) (k : K) (v v' : V) :
  NoDup (dict_keys d) -> In (k, v) d -> In (k, v') d -> v = v'.
Proof.
  induction d as [| [k0 v0] rest IH]; simpl; intros Hnd H1 H2; [contradiction |].
  inversion Hnd as [| ? ? Hnotin Hnd']; subst.
  destruct H1 as [H1 | H1], H2 as [H2 | H2].
  - congruence.
  - inversion H1; subst. exfalso. apply Hnotin.
    unfold dict_keys. now apply (in_map fst) in H2.
  - inversion H2; subst. exfalso. apply Hnotin.
    unfold dict_keys. now apply (in_map fst) in H1.
  - now apply IH.
Qed.

(** One iteration of [_get_all_factors] touches at most the item's key and
    its reverse. *)
Lemma collect_factor_other_keys (to_unit : string) (s s' : factors_table)
    (x y : string) (g : float) (k : key) :
  collect_factor to_unit s ((x, y), g) = Return s' ->
  k <> (x, y) -> k <> (y, x) ->
  dict_get key_eqb k s' = dict_get key_eqb k s.
Proof.
  unfold collect_factor. intros H Hk1 Hk2.
  assert (E1 : key_eqb k (x, y) = false).
  { destruct (key_eqb k (x, y)) eqn:E; [| reflexivity].
    apply key_eqb_eq in E. contradiction. }
  assert (E2 : key_eqb k (y, x) = false).
  { destruct (key_eqb k (y, x)) eqn:E; [| reflexivity].
    apply key_eqb_eq in E. contradiction. }
  assert (H1 : dict_get key_eqb k
                 (if String.eqb y to_unit then dict_set key_eqb (x, y) g s else s)
               = dict_get key_eqb k s).
  { destruct (String.eqb y to_unit); [| reflexivity].
    rewrite (@dict_get_set _ _ _ key_eqb_eq). now rewrite E1. }
  destruct (String.eqb x to_unit).
  - destruct (float_inverse g) as [inv | e |]; try discriminate.
    simpl in H. inversion H; subst s'.
    rewrite (@dict_get_set _ _ _ key_eqb_eq), E2. exact H1.
  - inversion H; subst s'. exact H1.
Qed.

Lemma get_all_factors_seeded (factors : factors_table) (a b : string) (f : float)
    (res : factors_table) :
  NoDup (dict_keys factors) -> In ((a, b), f) factors ->
  ~ In (b, a) (dict_keys factors) ->
  _get_all_factors b factors None = Return res ->
  dict_get key_eqb (a, b) res = Some f.
Proof.
  intros Hnd Hin Hrev H. unfold _get_all_factors in H.
  destruct (for_fold factors [] (collect_factor b)) as [r | e |] eqn:Hloop;
    try discriminate.
  simpl in H. inversion H; subst res; clear H.
  assert (Hab : String.eqb a b = false).
  { apply String.eqb_neq. intro E. subst b. apply Hrev.
    unfold dict_keys. now apply (in_map fst) in Hin. }
  pose (P := fun (pre : list (key * float)) (s : factors_table) =>
               In ((a, b), f) pre -> dict_get key_eqb (a, b) s = Some f).
  assert (HP : P factors r).
  { eapply (@for_fold_progress_invariant _ _ P); [| | exact Hloop].
    - intros pre s [[x y] g] s' Hitem Hpre Hbody Hin0.
      destruct (key_eqb (x, y) (a, b)) eqn:E.
      + apply key_eqb_eq in E. inversion E; subst x y.
        assert (g = f) by (now apply (@dict_keys_NoDup_value _ _ factors (a, b) g f Hnd)). subst g.
        unfold collect_factor in Hbody.
        rewrite String.eqb_refl, Hab in Hbody. inversion Hbody; subst s'.
        rewrite (@dict_get_set _ _ _ key_eqb_eq). now rewrite key_eqb_refl.
      + rewrite (@collect_factor_other_keys _ _ _ _ _ _ _ Hbody).
        * apply Hpre. apply in_app_or in Hin0.
          destruct Hin0 as [Hin0 | [Hin0 | []]]; [exact Hin0 |].
          inversion Hin0; subst. rewrite key_eqb_refl in E. discriminate.
        * intro Heq. inversion Heq; subst. rewrite key_eqb_refl in E. discriminate.
        * intro Heq. inversion Heq; subst. apply Hrev.
          unfold dict_keys. now apply (in_map fst) in Hitem.
    - intros []. }
  now apply HP.
Qed.

Lemma get_all_factors_inverse (factors : factors_table) (a b : string) (f : float)
    (res : factors_table) :
  NoDup (dict_keys factors) -> In ((a, b), f) factors ->
  ~ In (b, a) (dict_keys factors) ->
  _get_all_factors a factors None = Return res ->
  dict_get key_eqb (b, a) res = Some (1.0 / f)%float.
Proof.
  intros Hnd Hin Hrev H. unfold _get_all_factors in H.
  destruct (for_fold factors [] (collect_factor a)) as [r | e |] eqn:Hloop;
    try discriminate.
  simpl in H. inversion H; subst res; clear H.
  assert (Hba : String.eqb b a = false).
  { apply String.eqb_neq. intro E. subst b. apply Hrev.
    unfold dict_keys. now apply (in_map fst) in Hin. }
  pose (P := fun (pre : list (key * float)) (s : factors_table) =>
               In ((a, b), f) pre -> dict_get key_eqb (b, a) s = Some (1.0 / f)%float).
  assert (HP : P factors r).
  { eapply (@for_fold_progress_invariant _ _ P); [| | exact Hloop].
    - intros pre s [[x y] g] s' Hitem Hpre Hbody Hin0.
      destruct (key_eqb (x, y) (a, b)) eqn:E.
      + apply key_eqb_eq in E. inversion E; subst x y.
        assert (g = f) by (now apply (@dict_keys_NoDup_value _ _ factors (a, b) g f Hnd)). subst g.
        unfold collect_factor, float_inverse in Hbody.
        rewrite String.eqb_refl, Hba in Hbody.
        destruct (PrimFloat.eqb f 0); [discriminate |].
        simpl in Hbody. inversion Hbody; subst s'.
        rewrite (@dict_get_set _ _ _ key_eqb_eq). now rewrite key_eqb_refl.
      + rewrite (@collect_factor_other_keys _ _ _ _ _ _ _ Hbody).
        * apply Hpre. apply in_app_or in Hin0.
          destruct Hin0 as [Hin0 | [Hin0 | []]]; [exact Hin0 |].
          inversion Hin0; subst. rewrite key_eqb_refl in E. discriminate.
        * intro Heq. inversion Heq; subst. apply Hrev.
          unfold dict_keys. now apply (in_map fst) in Hitem.
        * intro Heq. inversion Heq; subst. rewrite key_eqb_refl in E. discriminate.
    - intros []. }
  now apply HP.
Qed.

(** X4: on a table (a dictionary, so with distinct keys) with no zero ratio,
    a pair tabulated as [(a, b)] with factor [f], whose reverse [(b, a)] is
    not tabulated too, converts with exactly [f] from [a] to [b] and with
    exactly [1.0 / f] from [b] to [a]. *)
Theorem scaling_factor_tabulated :
  forall (factors : factors_table) (a b : string) (f : float),
    NoDup (dict_keys factors) -> nonzero_factors factors ->
    In ((a, b), f) factors -> ~ In (b, a) (dict_keys factors) ->
    scaling_factor factors a b = Return f /\
    scaling_factor factors b a = Return (1.0 / f)%float.
Proof.
  intros factors a b f Hnd Hnz Hin Hrev.
  unfold scaling_factor, scaling_factor_passes. split.
  - destruct (@get_all_factors_returns b factors None Hnz) as [tf Hinit].
    rewrite Hinit. cbn [bind].
    now rewrite (@get_all_factors_seeded _ _ _ _ _ Hnd Hin Hrev Hinit).
  - destruct (@get_all_factors_returns a factors None Hnz) as [tf Hinit].
    rewrite Hinit. cbn [bind].
    now rewrite (@get_all_factors_inverse _ _ _ _ _ Hnd Hin Hrev Hinit).
Qed.

Lemma scaling_factor_tabulated_witness :
  scaling_factor CONVERSION_FACTORS "MWh" "GWh" = Return 1.0e-3%float /\
  scaling_factor CONVERSION_FACTORS "GWh" "MWh" = Return (1.0 / 1.0e-3)%float.
Proof.
  apply (@scaling_factor_tabulated CONVERSION_FACTORS "MWh" "GWh" 1.0e-3%float).
  - simpl. repeat constructor; simpl; intuition discriminate.
  - exact CONVERSION_FACTORS_nonzero.
  - simpl. right. left. reflexivity.
  - simpl. intuition discriminate.
Defined.

(** ** The registry: adding and asking *)

Lemma first_okay_candidate_Some (from_enum : Enumeration)
    (candidates : list DimensionMap) (m : DimensionMap) :
  first_okay_candidate from_enum candidates = Some m ->
  In m candidates /\ covers from_enum m.
Proof.
  induction candidates as [| c rest IH]; simpl; [discriminate |].
  destruct (candidate_okay (ids from_enum) c) eqn:Hc.
  - intro H. inversion H; subst c. split; [now left |].
    now apply candidate_okay_covers.
  - intro H. destruct (IH H) as [Hin Hcov]. split; [now right | exact Hcov].
Qed.

Section RegistryUse.
Variable enum_eq : Enumeration -> Enumeration -> bool.
Variable is_subset : Enumeration -> Enumeration -> bool.

(** X5: after [add_mapping(mapping)], a request whose source and target
    enumerations carry the names of the mapping's enumerations is answered
    with that mapping, whatever the registry held before; only the two names
    are compared, not the enumerations. *)
Theorem get_mapping_after_add_mapping :
  forall (self : dict key DimensionMap) (mapping : DimensionMap)
         (datafile : Datafile) (to_enum from_enum : Enumeration),
    select_from_enum datafile to_enum = Return from_enum ->
    name from_enum = name (from_enum_of mapping) ->
    name to_enum = name (to_enum_of mapping) ->
    get_mapping enum_eq is_subset (add_mapping self mapping) datafile to_enum
    = Return (Some mapping).
Proof.
  intros self mapping datafile to_enum from_enum Hsel Hfrom Hto.
  unfold get_mapping, add_mapping. rewrite Hsel. simpl.
  rewrite Hfrom, Hto, (@dict_get_set _ _ _ key_eqb_eq).
  now rewrite key_eqb_refl.
Qed.

(** X6: adding a mapping under one key never changes the answer to a request
    that has an exact match stored under another key. *)
Theorem get_mapping_exact_match_kept :
  forall (self : dict key DimensionMap) (mapping stored : DimensionMap)
         (datafile : Datafile) (to_enum from_enum : Enumeration),
    select_from_enum datafile to_enum = Return from_enum ->
    dict_get key_eqb (name from_enum, name to_enum) self = Some stored ->
    (name from_enum, name to_enum)
      <> (name (from_enum_of mapping), name (to_enum_of mapping)) ->
    get_mapping enum_eq is_subset (add_mapping self mapping) datafile to_enum
    = Return (Some stored).
Proof.
  intros self mapping stored datafile to_enum from_enum Hsel Hget Hneq.
  unfold get_mapping, add_mapping. rewrite Hsel. simpl.
  rewrite (@dict_get_set _ _ _ key_eqb_eq).
  destruct (key_eqb (name from_enum, name to_enum)
              (name (from_enum_of mapping), name (to_enum_of mapping))) eqn:E.
  - apply key_eqb_eq in E. contradiction.
  - now rewrite Hget.
Qed.

(** X7: whatever [get_mapping] returns is either a [TautologyMapping] of the
    requested [to_enum] or a mapping stored in the registry under a key whose
    second component is [to_enum.name]; in the second case the key is the
    exact key of the request or the mapping's [from_enum.ids] contain every
    id of the source enumeration. *)
Theorem get_mapping_sound :
  forall (self : dict key DimensionMap) (datafile : Datafile)
         (to_enum : Enumeration) (m : DimensionMap),
    get_mapping enum_eq is_subset self datafile to_enum = Return (Some m) ->
    exists from_enum,
      select_from_enum datafile to_enum = Return from_enum /\
      (m = TautologyMapping to_enum \/
       exists k, In (k, m) self /\ snd k = name to_enum /\
                 (fst k = name from_enum \/ covers from_enum m)).
Proof.
  intros self datafile to_enum m H. unfold get_mapping in H.
  destruct (select_from_enum datafile to_enum) as [from_enum | e |] eqn:Hsel;
    try discriminate.
  simpl in H. exists from_enum. split; [reflexivity |].
  destruct (dict_get key_eqb (name from_enum, name to_enum) self) as [stored |] eqn:Hget.
  - inversion H; subst stored. right.
    exists (name from_enum, name to_enum).
    split; [now apply (@dict_get_In _ _ _ key_eqb_eq) | simpl; auto].
  - destruct (enum_eq from_enum to_enum); [inversion H; now left |].
    destruct (is_subset from_enum to_enum); [inversion H; now left |].
    inversion H as [Hfirst]. apply first_okay_candidate_Some in Hfirst.
    destruct Hfirst as [Hin Hcov]. apply candidates_of in Hin.
    destruct Hin as (k & Hk & Hname). right. exists k. auto.
Qed.


End RegistryUse.

Lemma get_mapping_after_add_mapping_witness :
  get_mapping (fun _ _ => false) ex_is_subset
    (add_mapping ex_registry (FilterToSubsetMap ex_conus_states ex_states))
    ex_datafile ex_states
  = Return (Some (FilterToSubsetMap ex_conus_states ex_states)).
Proof.
  apply (@get_mapping_after_add_mapping (fun _ _ => false) ex_is_subset ex_registry
           (FilterToSubsetMap ex_conus_states ex_states) ex_datafile ex_states
           ex_conus_states); reflexivity.
Defined.

Lemma get_mapping_exact_match_kept_witness :
  get_mapping (fun _ _ => false) ex_is_subset
    (add_mapping ex_registry (FullAggregationMap ex_states ex_conus (IdStr "conus") []))
    ex_datafile ex_states
  = Return (Some ex_conus_states_to_states).
Proof.
  apply (@get_mapping_exact_match_kept (fun _ _ => false) ex_is_subset ex_registry
           (FullAggregationMap ex_states ex_conus (IdStr "conus") [])
           ex_conus_states_to_states ex_datafile ex_states ex_conus_states).
  - reflexivity.
  - reflexivity.
  - discriminate.
Defined.

Lemma get_mapping_sound_witness :
  exists from_enum,
    select_from_enum ex_datafile ex_states = Return from_enum /\
    (ex_conus_states_to_states = TautologyMapping ex_states \/
     exists k, In (k, ex_conus_states_to_states) ex_registry /\
               snd k = name ex_states /\
               (fst k = name from_enum \/ covers from_enum ex_conus_states_to_states)).
Proof.
  apply (@get_mapping_sound (fun _ _ => false) ex_is_subset ex_registry ex_datafile
           ex_states ex_conus_states_to_states).
  reflexivity.
Defined.

(** ** When construction succeeds *)

Lemma forallb_false_witness {A : Type} (p : A -> bool) (l : list A) :
  forallb p l = false -> exists x, In x l /\ p x = false.
Proof.
  induction l as [| a l IH]; simpl; [discriminate |].
  destruct (p a) eqn:E; simpl.
  - intro H. destruct (IH H) as (x & Hx & Hp). exists x. auto.
  - intros _. exists a. auto.
Qed.

(** X9: [FullAggregationMap(from_enum, to_enum, exclude_list)] is constructed
    exactly when [to_enum] has exactly one id and every entry of
    [exclude_list] is an id of [from_enum]; the object then aggregates to
    that one id and keeps the list it was given. *)
Theorem FullAggregationMap_constructs_iff :
  forall (from_enum to_enum : Enumeration) (exclude_list : list pyid)
         (m : DimensionMap),
    FullAggregationMap__init__ from_enum to_enum exclude_list = Return m <->
    (exists to_id, ids to_enum = [to_id] /\
                   m = FullAggregationMap from_enum to_enum to_id exclude_list) /\
    (forall x, In x exclude_list -> In x (ids from_enum)).
Proof.
  intros from_enum to_enum exclude_list m. unfold FullAggregationMap__init__. split.
  - intro H.
    destruct (1 <? length (ids to_enum))%nat eqn:Hlen; [discriminate |].
    apply Nat.ltb_ge in Hlen.
    destruct (ids to_enum) as [| to_id rest] eqn:Hids; [discriminate |].
    simpl in H.
    destruct (for_each exclude_list _) as [[] | e |] eqn:Hchk; try discriminate.
    simpl in H. inversion H; subst m; clear H. split.
    + exists to_id. split; [| reflexivity].
      destruct rest; [reflexivity | simpl in Hlen; lia].
    + intros x Hx. apply (proj1 (for_each_Return _ _) Hchk) in Hx.
      destruct (py_in x (ids from_enum)) eqn:E; [now apply py_in_In | discriminate].
  - intros [(to_id & Hids & ->) Hsub]. rewrite Hids. simpl.
    replace (for_each exclude_list _) with (@Return unit tt); [reflexivity |].
    symmetry. apply for_each_Return. intros x Hx.
    apply Hsub, py_in_In in Hx. now rewrite Hx.
Qed.

(** X10: [FilterToSubsetMap(from_enum, to_enum)] is constructed when every id
    of [to_enum] is an id of [from_enum], and raises the "should be a subset"
    [DSGridError] otherwise; nothing else is checked. *)
Theorem FilterToSubsetMap_constructs :
  forall from_enum to_enum : Enumeration,
    (incl (ids to_enum) (ids from_enum) ->
     FilterToSubsetMap__init__ from_enum to_enum
     = Return (FilterToSubsetMap from_enum to_enum)) /\
    (~ incl (ids to_enum) (ids from_enum) ->
     FilterToSubsetMap__init__ from_enum to_enum = Raise (DSGridError NotASubset)).
Proof.
  intros from_enum to_enum. unfold FilterToSubsetMap__init__. split.
  - intro Hincl.
    replace (for_each (ids to_enum) _) with (@Return unit tt); [reflexivity |].
    symmetry. apply for_each_Return. intros x Hx.
    apply Hincl, py_in_In in Hx. now rewrite Hx.
  - intro Hnot.
    destruct (forallb (fun i => py_in i (ids from_enum)) (ids to_enum)) eqn:Hall.
    + exfalso. apply Hnot. intros x Hx.
      apply py_in_In. now apply (proj1 (forallb_forall _ _) Hall).
    + apply forallb_false_witness in Hall. destruct Hall as (x & Hx & Hbad).
      destruct (for_each_check_raises
                  (fun y => negb (py_in y (ids from_enum)))
                  (fun _ => DSGridError NotASubset) (ids to_enum))
        as (y & _ & _ & Hrun).
      { exists x. split; [exact Hx | now rewrite Hbad]. }
      cbv beta in Hrun. now rewrite Hrun.
Qed.

(** The table an [ExplicitAggregation] keeps answers every lookup as the
    dictionary it was built from. *)
Lemma ExplicitAggregation_keeps_table (from_enum to_enum : Enumeration)
    (dictmap : dict pyid pyid) (m : DimensionMap) :
  NoDup (dict_keys dictmap) ->
  ExplicitAggregation__init__ from_enum to_enum dictmap = Return m ->
  exists _dictmap,
    m = ExplicitAggregation from_enum to_enum _dictmap /\
    forall k, dict_get pyid_eqb k _dictmap = dict_get pyid_eqb k dictmap.
Proof.
  unfold ExplicitAggregation__init__. intros Hnd H.
  match type of H with context [for_fold dictmap [] ?b] => set (body := b) in H end.
  destruct (for_fold dictmap [] body) as [dm | e |] eqn:Hloop; try discriminate.
  simpl in H. inversion H; subst m; clear H.
  exists dm. split; [reflexivity |].
  assert (Hgen : forall d acc dm',
             NoDup (dict_keys d) -> for_fold d acc body = Return dm' ->
             forall k, dict_get pyid_eqb k dm' =
                       match dict_get pyid_eqb k d with
                       | Some v => Some v
                       | None => dict_get pyid_eqb k acc
                       end).
  { clear. induction d as [| [k0 v0] rest IH]; simpl; intros acc dm' Hnd Hrun k.
    - now inversion Hrun.
    - unfold body at 1 in Hrun.
      destruct (negb (py_in k0 (ids from_enum))); [discriminate |].
      destruct (negb (py_in v0 (ids to_enum))); [discriminate |].
      simpl in Hrun. inversion Hnd as [| ? ? Hnotin Hnd']; subst.
      rewrite (IH _ _ Hnd' Hrun k), pyid_dict_get_set.
      destruct (pyid_eqb k k0) eqn:E; [| reflexivity].
      apply pyid_eqb_eq in E. subst k0.
      apply (@dict_get_None _ _ _ pyid_eqb_eq) in Hnotin. now rewrite Hnotin. }
  intro k. rewrite (Hgen _ _ _ Hnd Hloop k).
  now destruct (dict_get pyid_eqb k dictmap).
Qed.

(** X11: an [ExplicitAggregation] built from a dictionary maps every key of
    the dictionary to the value stored for it and every other id, in
    [from_enum] or not, to [None]; [map] never raises. *)
Theorem ExplicitAggregation_map_lookup :
  forall (from_enum to_enum : Enumeration) (dictmap : dict pyid pyid)
         (m : DimensionMap) (id : pyid),
    NoDup (dict_keys dictmap) ->
    ExplicitAggregation__init__ from_enum to_enum dictmap = Return m ->
    DimensionMap_map m id
    = Return (match dict_get pyid_eqb id dictmap with
              | Some to_id => VId to_id
              | None => VNone
              end).
Proof.
  intros from_enum to_enum dictmap m id Hnd Hinit.
  destruct (@ExplicitAggregation_keeps_table _ _ _ _ Hnd Hinit) as (dm & -> & Hget).
  simpl. rewrite Hget. now destruct (dict_get pyid_eqb id dictmap).
Qed.

Lemma ExplicitAggregation_map_lookup_witness :
  DimensionMap_map (ExplicitAggregation ex_counties ex_states ex_county_to_state)
    (IdStr "08003")
  = Return (match dict_get pyid_eqb (IdStr "08003") ex_county_to_state with
            | Some to_id => VId to_id
            | None => VNone
            end).
Proof.
  apply (@ExplicitAggregation_map_lookup ex_counties ex_states ex_county_to_state).
  - simpl. repeat constructor; simpl; intuition discriminate.
  - reflexivity.
Defined.

(** X12: [ExplicitAggregation(from_enum, to_enum, dictmap)] is constructed
    exactly when every from id of the table is an id of [from_enum] and every
    to id an id of [to_enum]. *)
Theorem ExplicitAggregation_constructs_iff :
  forall (from_enum to_enum : Enumeration) (dictmap : dict pyid pyid),
    (exists m, ExplicitAggregation__init__ from_enum to_enum dictmap = Return m) <->
    (forall from_id to_id, In (from_id, to_id) dictmap ->
       In from_id (ids from_enum) /\ In to_id (ids to_enum)).
Proof.
  intros from_enum to_enum dictmap. split.
  - intros [m Hm] from_id to_id Hin.
    destruct (py_in from_id (ids from_enum)) eqn:Hf;
      [destruct (py_in to_id (ids to_enum)) eqn:Ht |].
    + split; now apply py_in_In.
    + exfalso. apply py_in_not_In in Ht.
      destruct (@ExplicitAggregation_invalid_table from_enum to_enum dictmap
                  from_id to_id Hin (or_intror Ht)) as (e & He & _). congruence.
    + exfalso. apply py_in_not_In in Hf.
      destruct (@ExplicitAggregation_invalid_table from_enum to_enum dictmap
                  from_id to_id Hin (or_introl Hf)) as (e & He & _). congruence.
  - intro Hvalid. unfold ExplicitAggregation__init__.
    match goal with |- context [for_fold dictmap ?a ?b] =>
      destruct (@for_fold_returns _ _ b dictmap) with (st := a) as [dm Hdm]
    end.
    + intros s [k v] Hin. destruct (Hvalid k v Hin) as [Hk Hv].
      apply py_in_In in Hk, Hv. rewrite Hk, Hv. simpl. eauto.
    + rewrite Hdm. simpl. eauto.
Qed.

(** ** Correspondence tables read from CSV *)

Lemma fold_dict_set_NoDup {A K V : Type} (eqb : K -> K -> bool)
    (eqb_eq : forall a b, eqb a b = true <-> a = b)
    (kf : dict K V -> A -> K) (vf : dict K V -> A -> V) (l : list A) :
  forall acc, NoDup (dict_keys acc) ->
    NoDup (dict_keys (fold_left (fun res x => dict_set eqb (kf res x) (vf res x) res) l acc)).
Proof.
  induction l as [| x l IH]; simpl; intros acc Hacc; [exact Hacc |].
  apply IH. now apply (@dict_set_NoDup _ _ _ eqb_eq).
Qed.

Lemma ExplicitAggregation_make_dictmap_NoDup (mapdata : MapData) :
  NoDup (dict_keys (ExplicitAggregation_make_dictmap mapdata)).
Proof.
  unfold ExplicitAggregation_make_dictmap.
  apply (@fold_dict_set_NoDup MapRow pyid pyid pyid_eqb pyid_eqb_eq
           (fun _ row => from_key (has_from_fuel_id mapdata) row)
           (fun _ row => to_key (has_to_fuel_id mapdata) row)).
  constructor.
Qed.

(** X13: an [ExplicitAggregation] read from CSV maps the from key of a row to
    the to key of the last row with that from key, and every id that is the
    from key of no row to [None]. *)
Theorem ExplicitAggregation_csv_last_row_wins :
  forall (read_csv : string -> MapData) (from_enum to_enum : Enumeration)
         (filepath : string) (m : DimensionMap),
    ExplicitAggregation_create_from_csv read_csv from_enum to_enum filepath = Return m ->
    let mapdata := read_csv filepath in
    (forall pre row post,
       rows mapdata = pre ++ row :: post ->
       (forall r, In r post ->
          from_key (has_from_fuel_id mapdata) r
          <> from_key (has_from_fuel_id mapdata) row) ->
       DimensionMap_map m (from_key (has_from_fuel_id mapdata) row)
       = Return (VId (to_key (has_to_fuel_id mapdata) row))) /\
    (forall id,
       (forall row, In row (rows mapdata) ->
          from_key (has_from_fuel_id mapdata) row <> id) ->
       DimensionMap_map m id = Return VNone).
Proof.
  intros read_csv from_enum to_enum filepath m Hinit mapdata.
  unfold ExplicitAggregation_create_from_csv in Hinit. fold mapdata in Hinit.
  destruct (@ExplicitAggregation_keeps_table _ _ _ _
              (ExplicitAggregation_make_dictmap_NoDup mapdata) Hinit)
    as (dm & -> & Hget).
  simpl. split.
  - intros pre row post Hrows Hlast. rewrite Hget.
    unfold ExplicitAggregation_make_dictmap. rewrite Hrows, fold_left_app. simpl.
    rewrite make_dictmap_later_rows by exact Hlast.
    rewrite pyid_dict_get_set. now rewrite pyid_eqb_refl.
  - intros id Hnone. rewrite Hget.
    replace (dict_get pyid_eqb id (ExplicitAggregation_make_dictmap mapdata))
      with (@None pyid); [reflexivity |].
    symmetry. apply (@dict_get_None _ _ _ pyid_eqb_eq).
    unfold ExplicitAggregation_make_dictmap. intro Hin.
    apply make_dictmap_keys in Hin. destruct Hin as [[] | (row & Hrow & Heq)].
    now apply (Hnone row).
Qed.

Lemma ExplicitAggregation_csv_last_row_wins_witness :
  let m := ExplicitAggregation ex_states ex_conus
             [(IdStr "CO", IdStr "conus"); (IdStr "HI", IdStr "conus")] in
  let mapdata := ex_rows_replaced in
  (forall pre row post,
     rows mapdata = pre ++ row :: post ->
     (forall r, In r post ->
        from_key (has_from_fuel_id mapdata) r
        <> from_key (has_from_fuel_id mapdata) row) ->
     DimensionMap_map m (from_key (has_from_fuel_id mapdata) row)
     = Return (VId (to_key (has_to_fuel_id mapdata) row))) /\
  (forall id,
     (forall row, In row (rows mapdata) ->
        from_key (has_from_fuel_id mapdata) row <> id) ->
     DimensionMap_map m id = Return VNone).
Proof.
  apply (@ExplicitAggregation_csv_last_row_wins (fun _ => ex_rows_replaced)
           ex_states ex_conus "states_to_conus.csv").
  reflexivity.
Defined.

Lemma ExplicitDisaggregation_make_dictmap_get (from_id : string) (table : list MapRow) :
  forall acc : dict pyid (list pyid),
    dict_get pyid_eqb (IdStr from_id)
      (fold_left (fun res row =>
         let key_id := IdStr (row_from_id row) in
         let so_far :=
           match dict_get pyid_eqb key_id res with Some l => l | None => [] end in
         dict_set pyid_eqb key_id (so_far ++ [IdStr (row_to_id row)]) res) table acc)
    = match fan_out from_id table with
      | [] => dict_get pyid_eqb (IdStr from_id) acc
      | to_ids =>
          Some (match dict_get pyid_eqb (IdStr from_id) acc with
                | Some l => l
                | None => []
                end ++ to_ids)
      end.
Proof.
  unfold fan_out. induction table as [| row rest IH]; intro acc; simpl.
  - reflexivity.
  - rewrite IH. rewrite pyid_dict_get_set. simpl.
    destruct (String.eqb (row_from_id row) from_id) eqn:E; simpl.
    + apply String.eqb_eq in E. rewrite E, String.eqb_refl.
      destruct (map _ (filter _ rest)) as [| x l'].
      * reflexivity.
      * now rewrite <- app_assoc.
    + rewrite String.eqb_sym, E. reflexivity.
Qed.

Lemma ExplicitDisaggregation_make_dictmap_NoDup (mapdata : MapData) :
  NoDup (dict_keys (ExplicitDisaggregation_make_dictmap mapdata)).
Proof.
  unfold ExplicitDisaggregation_make_dictmap.
  apply (@fold_dict_set_NoDup MapRow pyid (list pyid) pyid_eqb pyid_eqb_eq
           (fun _ row => IdStr (row_from_id row))
           (fun res row =>
              match dict_get pyid_eqb (IdStr (row_from_id row)) res with
              | Some l => l
              | None => []
              end ++ [IdStr (row_to_id row)])).
  constructor.
Qed.

Section Disaggregation.
Variable contains : Datafile -> Enumeration -> bool.

Lemma ExplicitDisaggregation_keeps_table (from_enum to_enum : Enumeration)
    (dictmap : dict pyid (list pyid)) (sdf : option Datafile) (m : DimensionMap) :
  NoDup (dict_keys dictmap) ->
  ExplicitDisaggregation__init__ contains from_enum to_enum dictmap sdf = Return m ->
  exists _dictmap,
    m = ExplicitDisaggregation from_enum to_enum _dictmap sdf /\
    forall k, dict_get pyid_eqb k _dictmap = dict_get pyid_eqb k dictmap.
Proof.
  unfold ExplicitDisaggregation__init__. intros Hnd H.
  match type of H with context [for_fold dictmap [] ?b] => set (body := b) in H end.
  destruct (for_fold dictmap [] body) as [dm | e |] eqn:Hloop; try discriminate.
  simpl in H.
  assert (Hm : m = ExplicitDisaggregation from_enum to_enum dm sdf).
  { destruct sdf as [df |]; [| now inversion H].
    destruct (negb (contains df to_enum)); [discriminate | now inversion H]. }
  exists dm. split; [exact Hm |].
  assert (Hgen : forall d acc dm',
             NoDup (dict_keys d) -> for_fold d acc body = Return dm' ->
             forall k, dict_get pyid_eqb k dm' =
                       match dict_get pyid_eqb k d with
                       | Some v => Some v
                       | None => dict_get pyid_eqb k acc
                       end).
  { clear. induction d as [| [k0 l0] rest IH]; simpl; intros acc dm' Hnd Hrun k.
    - now inversion Hrun.
    - unfold body at 1 in Hrun.
      destruct (negb (py_in k0 (ids from_enum))); [discriminate |].
      destruct (for_each l0 _) as [[] | e |]; try discriminate.
      simpl in Hrun. inversion Hnd as [| ? ? Hnotin Hnd']; subst.
      rewrite (IH _ _ Hnd' Hrun k), pyid_dict_get_set.
      destruct (pyid_eqb k k0) eqn:E; [| reflexivity].
      apply pyid_eqb_eq in E. subst k0.
      apply (@dict_get_None _ _ _ pyid_eqb_eq) in Hnotin. now rewrite Hnotin. }
  intro k. rewrite (Hgen _ _ _ Hnd Hloop k).
  now destruct (dict_get pyid_eqb k dictmap).
Qed.

(** X14: an [ExplicitDisaggregation] read from CSV maps a from id to the list
    of the to ids of the rows with that from id, in the order of the rows
    (rows of other from ids in between do not matter), and a from id with no
    row to the empty list. *)
Theorem ExplicitDisaggregation_csv_fan_out :
  forall (read_csv : string -> MapData) (from_enum to_enum : Enumeration)
         (filepath : string) (scaling_datafile : option Datafile)
         (m : DimensionMap) (from_id : string),
    ExplicitDisaggregation_create_from_csv contains read_csv from_enum to_enum
      filepath scaling_datafile = Return m ->
    DimensionMap_map m (IdStr from_id)
    = Return (VList (fan_out from_id (rows (read_csv filepath)))).
Proof.
  intros read_csv from_enum to_enum filepath sdf m from_id Hinit.
  unfold ExplicitDisaggregation_create_from_csv in Hinit.
  destruct (@ExplicitDisaggregation_keeps_table _ _ _ _ _
              (ExplicitDisaggregation_make_dictmap_NoDup (read_csv filepath)) Hinit)
    as (dm & -> & Hget).
  simpl. rewrite Hget. unfold ExplicitDisaggregation_make_dictmap.
  rewrite ExplicitDisaggregation_make_dictmap_get. simpl.
  now destruct (fan_out from_id (rows (read_csv filepath))).
Qed.

(** X15: on a table whose ids are all valid, [ExplicitDisaggregation] is
    constructed without a scaling datafile, and with one exactly when the
    datafile [contains] [to_enum]; otherwise the "cannot be used to scale"
    [DSGridError] is raised, after the table has been checked. *)
Theorem ExplicitDisaggregation_scaling_check :
  forall (from_enum to_enum : Enumeration) (dictmap : dict pyid (list pyid))
         (datafile : Datafile),
    (forall from_id to_ids, In (from_id, to_ids) dictmap ->
       In from_id (ids from_enum) /\
       forall to_id, In to_id to_ids -> In to_id (ids to_enum)) ->
    exists _dictmap,
      ExplicitDisaggregation__init__ contains from_enum to_enum dictmap None
      = Return (ExplicitDisaggregation from_enum to_enum _dictmap None) /\
      ExplicitDisaggregation__init__ contains from_enum to_enum dictmap (Some datafile)
      = if contains datafile to_enum
        then Return (ExplicitDisaggregation from_enum to_enum _dictmap (Some datafile))
        else Raise (DSGridError (CannotScale datafile to_enum)).
Proof.
  intros from_enum to_enum dictmap datafile Hvalid.
  unfold ExplicitDisaggregation__init__.
  match goal with |- context [for_fold dictmap ?a ?b] =>
    destruct (@for_fold_returns _ _ b dictmap) with (st := a) as [dm Hdm]
  end.
  - intros s [k l] Hin. destruct (Hvalid k l Hin) as [Hk Hl].
    apply py_in_In in Hk. rewrite Hk. simpl.
    replace (for_each l _) with (@Return unit tt); [simpl; eauto |].
    symmetry. apply for_each_Return. intros x Hx.
    apply Hl, py_in_In in Hx. now rewrite Hx.
  - exists dm. rewrite Hdm. simpl. split; [reflexivity |].
    now destruct (contains datafile to_enum).
Qed.

End Disaggregation.

Lemma ExplicitDisaggregation_csv_fan_out_witness :
  DimensionMap_map
    (ExplicitDisaggregation ex_states ex_counties
       [ (IdStr "CO", [IdStr "08001"; IdStr "08003"]); (IdStr "HI", [IdStr "15001"]) ]
       None)
    (IdStr "CO")
  = Return (VList (fan_out "CO" (rows ex_state_county_rows))).
Proof.
  apply (@ExplicitDisaggregation_csv_fan_out (fun _ _ => true)
           (fun _ => ex_state_county_rows) ex_states ex_counties
           "states_to_counties.csv" None).
  reflexivity.
Defined.

Lemma ExplicitDisaggregation_scaling_check_witness :
  exists _dictmap,
    ExplicitDisaggregation__init__ (fun _ _ => false) ex_states ex_counties
      ex_state_to_counties None
    = Return (ExplicitDisaggregation ex_states ex_counties _dictmap None) /\
    ExplicitDisaggregation__init__ (fun _ _ => false) ex_states ex_counties
      ex_state_to_counties (Some ex_datafile)
    = if (fun _ _ => false) ex_datafile ex_counties
      then Return (ExplicitDisaggregation ex_states ex_counties _dictmap
                     (Some ex_datafile))
      else Raise (DSGridError (CannotScale ex_datafile ex_counties)).
Proof.
  apply (@ExplicitDisaggregation_scaling_check (fun _ _ => false)
           ex_states ex_counties ex_state_to_counties ex_datafile).
  simpl. intros from_id to_ids [H | [H | []]]; inversion H; subst; simpl;
    intuition.
Defined.

(** ** FilterToSingleFuelMap *)

Lemma map_snd_enumerate {A : Type} (l : list A) : map snd (enumerate l) = l.
Proof.
  unfold enumerate. generalize 0 as n.
  induction l as [| x l IH]; intro n; simpl; [reflexivity |].
  now rewrite IH.
Qed.

Section SingleFuel.
Variable get_name : FuelEnumeration -> string -> result string.
Variable get_units : FuelEnumeration -> string -> result string.

(** What the constructor's loop leaves in [ids], [names] and [_map]. *)
Lemma FilterToSingleFuelMap_constructed (from_enum : Enumeration)
    (fuel_to_keep : string) (m : DimensionMap) :
  FilterToSingleFuelMap__init__ get_name get_units from_enum fuel_to_keep = Return m ->
  exists nm codes the_names fe fuels fuel_name units kept_ids kept_names _map,
    from_enum = MultiFuelEndUseEnumeration nm codes the_names fe fuels /\
    get_name fe fuel_to_keep = Return fuel_name /\
    get_units fe fuel_to_keep = Return units /\
    m = FilterToSingleFuelMap from_enum
          (SingleFuelEndUseEnumeration (nm ++ " (" ++ fuel_name ++ ")")%string
             kept_ids kept_names fuel_name units) _map /\
    kept_ids = map (fun cf => IdStr (fst cf))
                 (filter (fun cf => String.eqb (snd cf) fuel_to_keep)
                    (combine codes fuels)) /\
    length kept_names = length kept_ids /\
    (forall c fl, In (c, fl) (combine codes fuels) ->
       dict_get pyid_eqb (IdPair c fl) _map
       = Some (if String.eqb fl fuel_to_keep then Some (IdStr c) else None)) /\
    (forall k, dict_get pyid_eqb k _map <> None ->
       exists c fl, In (c, fl) (combine codes fuels) /\ k = IdPair c fl).
Proof.
  unfold FilterToSingleFuelMap__init__. intro H.
  destruct from_enum as [c n l ns | n l ns fl un | nm codes ns fe fuels];
    try discriminate.
  destruct (assert _ _) as [[] | e |]; try discriminate. simpl in H.
  destruct (get_name fe fuel_to_keep) as [fuel_name | e |] eqn:Hname;
    try discriminate.
  simpl in H.
  destruct (for_fold _ _ _) as [[[kept_ids kept_names] _map] | e |] eqn:Hloop;
    try discriminate.
  simpl in H.
  destruct (get_units fe fuel_to_keep) as [units | e |] eqn:Hunits; try discriminate.
  simpl in H. inversion H; subst m; clear H.
  exists nm, codes, ns, fe, fuels, fuel_name, units, kept_ids, kept_names, _map.
  split; [reflexivity |]. split; [exact Hname |]. split; [exact Hunits |].
  split; [reflexivity |].
  pose (P := fun (pre : list (nat * (string * string)))
                 (st : list pyid * list string * dict pyid (option pyid)) =>
               fst (fst st) = map (fun cf => IdStr (fst cf))
                                (filter (fun cf => String.eqb (snd cf) fuel_to_keep)
                                   (map snd pre)) /\
               length (snd (fst st)) = length (fst (fst st)) /\
               (forall c fl, In (c, fl) (map snd pre) ->
                  dict_get pyid_eqb (IdPair c fl) (snd st)
                  = Some (if String.eqb fl fuel_to_keep then Some (IdStr c) else None)) /\
               (forall k, dict_get pyid_eqb k (snd st) <> None ->
                  exists c fl, In (c, fl) (map snd pre) /\ k = IdPair c fl)).
  assert (HP : P ([] ++ enumerate (combine codes fuels)) (kept_ids, kept_names, _map)).
  { eapply (@for_fold_prefix_invariant _ _ P); [| | exact Hloop].
    - intros pre [[ids0 names0] map0] [i [c fl]] s' (Hids & Hlen & Hcov & Hdom) Hbody.
      simpl in Hids, Hlen, Hcov, Hdom.
      assert (Hstep : forall v,
                v = (if String.eqb fl fuel_to_keep then Some (IdStr c) else None) ->
                (forall c' fl', In (c', fl') (map snd (pre ++ [(i, (c, fl))])) ->
                   dict_get pyid_eqb (IdPair c' fl') (dict_set pyid_eqb (IdPair c fl) v map0)
                   = Some (if String.eqb fl' fuel_to_keep
                           then Some (IdStr c') else None)) /\
                (forall k, dict_get pyid_eqb k (dict_set pyid_eqb (IdPair c fl) v map0)
                           <> None ->
                   exists c' fl', In (c', fl') (map snd (pre ++ [(i, (c, fl))])) /\
                                  k = IdPair c' fl')).
      { intros v Hv. rewrite map_app. simpl. split.
        - intros c' fl' Hin. rewrite pyid_dict_get_set.
          destruct (pyid_eqb (IdPair c' fl') (IdPair c fl)) eqn:E.
          + apply pyid_eqb_eq in E. inversion E; subst. reflexivity.
          + apply in_app_or in Hin. destruct Hin as [Hin | [Hin | []]].
            * now apply Hcov.
            * inversion Hin; subst. rewrite pyid_eqb_refl in E. discriminate.
        - intros k Hk. rewrite pyid_dict_get_set in Hk.
          destruct (pyid_eqb k (IdPair c fl)) eqn:E.
          + apply pyid_eqb_eq in E. exists c, fl. split; [| exact E].
            apply in_or_app. right. now left.
          + destruct (Hdom k Hk) as (c' & fl' & Hin & Heq).
            exists c', fl'. split; [| exact Heq]. apply in_or_app. now left. }
      destruct (String.eqb fl fuel_to_keep) eqn:Efl.
      + destruct (py_index ns i) as [nm_i | e |]; try discriminate.
        simpl in Hbody. inversion Hbody; subst s'; clear Hbody.
        destruct (Hstep (Some (IdStr c)) eq_refl) as [H1 H2].
        unfold P. simpl. repeat split; [| | exact H1 | exact H2].
        * rewrite map_app, filter_app, map_app, <- Hids. simpl.
          now rewrite Efl.
        * rewrite !length_app. simpl. lia.
      + inversion Hbody; subst s'; clear Hbody.
        destruct (Hstep None eq_refl) as [H1 H2].
        unfold P. simpl. repeat split; [| exact Hlen | exact H1 | exact H2].
        rewrite map_app, filter_app, map_app, <- Hids. simpl.
        rewrite Efl. simpl. now rewrite app_nil_r.
    - unfold P. simpl. repeat split; try reflexivity.
      + intros c fl [].
      + intros k Hk. now contradiction Hk. }
  unfold P in HP. simpl in HP. rewrite map_snd_enumerate in HP.
  exact HP.
Qed.

(** X16: a constructed [FilterToSingleFuelMap] maps every id [(code, fuel)]
    of [from_enum] to [code] when [fuel] is the fuel kept and to [None]
    otherwise, and raises [KeyError] on every id that is not in
    [from_enum.ids]. *)
Theorem FilterToSingleFuelMap_map_correct :
  forall (from_enum : Enumeration) (fuel_to_keep : string) (m : DimensionMap),
    FilterToSingleFuelMap__init__ get_name get_units from_enum fuel_to_keep = Return m ->
    (forall code fuel, In (IdPair code fuel) (ids from_enum) ->
       DimensionMap_map m (IdPair code fuel)
       = Return (if String.eqb fuel fuel_to_keep then VId (IdStr code) else VNone)) /\
    (forall id, ~ In id (ids from_enum) ->
       DimensionMap_map m id = Raise (KeyError id)).
Proof.
  intros from_enum fuel_to_keep m Hinit.
  destruct (FilterToSingleFuelMap_constructed _ _ Hinit)
    as (nm & codes & ns & fe & fuels & fuel_name & units & kept_ids & kept_names
        & _map & -> & _ & _ & -> & _ & _ & Hcov & Hdom).
  simpl. split.
  - intros code fuel Hin. apply in_map_iff in Hin.
    destruct Hin as ([c fl] & Heq & Hin). simpl in Heq. inversion Heq; subst c fl.
    rewrite (Hcov code fuel Hin). now destruct (String.eqb fuel fuel_to_keep).
  - intros id Hnot.
    destruct (dict_get pyid_eqb id _map) as [o |] eqn:Hget; [| reflexivity].
    exfalso. apply Hnot. destruct (Hdom id) as (c & fl & Hin & ->); [congruence |].
    apply in_map_iff. now exists (c, fl).
Qed.

(** X17: the [to_enum] a [FilterToSingleFuelMap] builds is a single-fuel
    end-use enumeration whose ids are the codes of the ids of [from_enum]
    paired with the fuel kept, in their order, with as many names as ids; it
    is named after [from_enum] and the fuel's name and carries the fuel's
    name and units. *)
Theorem FilterToSingleFuelMap_to_enum :
  forall (from_enum : Enumeration) (fuel_to_keep : string) (m : DimensionMap),
    FilterToSingleFuelMap__init__ get_name get_units from_enum fuel_to_keep = Return m ->
    exists nm codes the_names fe fuels fuel_name units kept_names,
      from_enum = MultiFuelEndUseEnumeration nm codes the_names fe fuels /\
      from_enum_of m = from_enum /\
      get_name fe fuel_to_keep = Return fuel_name /\
      get_units fe fuel_to_keep = Return units /\
      to_enum_of m
      = SingleFuelEndUseEnumeration (nm ++ " (" ++ fuel_name ++ ")")%string
          (map (fun cf => IdStr (fst cf))
             (filter (fun cf => String.eqb (snd cf) fuel_to_keep) (combine codes fuels)))
          kept_names fuel_name units /\
      length kept_names
      = length (filter (fun cf => String.eqb (snd cf) fuel_to_keep)
                  (combine codes fuels)).
Proof.
  intros from_enum fuel_to_keep m Hinit.
  destruct (FilterToSingleFuelMap_constructed _ _ Hinit)
    as (nm & codes & ns & fe & fuels & fuel_name & units & kept_ids & kept_names
        & _map & -> & Hname & Hunits & -> & -> & Hlen & _ & _).
  exists nm, codes, ns, fe, fuels, fuel_name, units, kept_names.
  repeat (split; [first [reflexivity | assumption] |]).
  now rewrite Hlen, length_map.
Qed.

End SingleFuel.

Lemma FilterToSingleFuelMap_map_correct_witness :
  exists m,
    FilterToSingleFuelMap__init__ ex_get_name ex_get_units ex_multifuel "elec"
    = Return m /\
    (forall code fuel, In (IdPair code fuel) (ids ex_multifuel) ->
       DimensionMap_map m (IdPair code fuel)
       = Return (if String.eqb fuel "elec" then VId (IdStr code) else VNone)) /\
    (forall id, ~ In id (ids ex_multifuel) ->
       DimensionMap_map m id = Raise (KeyError id)).
Proof.
  eexists. split.
  - vm_compute. reflexivity.
  - apply (@FilterToSingleFuelMap_map_correct ex_get_name ex_get_units
             ex_multifuel "elec").
    vm_compute. reflexivity.
Defined.

Lemma FilterToSingleFuelMap_to_enum_witness :
  exists m,
    FilterToSingleFuelMap__init__ ex_get_name ex_get_units ex_multifuel "elec"
    = Return m /\
    to_enum_of m
    = SingleFuelEndUseEnumeration "enduses (Electricity)"
        [IdStr "heat"; IdStr "cool"] ["Heating"; "Cooling"] "Electricity" "kWh".
Proof.
  eexists. split.
  - vm_compute. reflexivity.
  - destruct (@FilterToSingleFuelMap_to_enum ex_get_name ex_get_units
                ex_multifuel "elec" _ eq_refl) as (nm & _).
    reflexivity.
Defined.

(** ** UnitConversionMap *)

Section UnitConversion.
Variable get_units : FuelEnumeration -> string -> result string.
Variable str_replace : string -> string -> string -> string.
Variable str_lower : string -> string.
Variable factors : factors_table.

(** X18: a [UnitConversionMap] constructed on a single-fuel enumeration was
    given exactly one unit to convert, the enumeration's own, and one unit to
    convert to; it scales every id by [scaling_factor] of the two, maps every
    id to itself, and its [to_enum] keeps ids, names and fuel, carries the
    new unit and has the old unit replaced by the new in its name, as written
    and in lower case. *)
Theorem UnitConversionMap_single_fuel :
  forall (nm : string) (the_ids : list pyid) (the_names : list string)
         (fuel units : string) (from_units to_units : list string) (m : DimensionMap),
    UnitConversionMap__init__ get_units str_replace str_lower factors
      (SingleFuelEndUseEnumeration nm the_ids the_names fuel units)
      from_units to_units = Return m ->
    exists to_unit f,
      from_units = [units] /\ to_units = [to_unit] /\
      scaling_factor factors units to_unit = Return f /\
      to_enum_of m
      = SingleFuelEndUseEnumeration
          (str_replace (str_replace nm units to_unit)
             (str_lower units) (str_lower to_unit))
          the_ids the_names fuel to_unit /\
      forall id, scale_factor m id = f /\ DimensionMap_map m id = Return (VId id).
Proof.
  intros nm the_ids the_names fuel units from_units to_units m H.
  unfold UnitConversionMap__init__ in H. simpl in H.
  destruct (length from_units =? length to_units)%nat eqn:Hlen; [| discriminate].
  simpl in H.
  destruct (0 <? length from_units)%nat; [| discriminate]. simpl in H.
  destruct (length from_units =? 1)%nat eqn:Hone; [| discriminate]. simpl in H.
  apply Nat.eqb_eq in Hlen, Hone. rewrite Hone in Hlen.
  destruct from_units as [| from_unit [| ? ?]]; try discriminate.
  destruct to_units as [| to_unit [| ? ?]]; try discriminate.
  simpl in H.
  destruct (String.eqb from_unit units) eqn:Hu; [| discriminate]. simpl in H.
  apply String.eqb_eq in Hu. subst from_unit.
  destruct (scaling_factor factors units to_unit) as [f | e |] eqn:Hf;
    try discriminate.
  simpl in H. inversion H; subst m; clear H.
  exists to_unit, f. repeat split. exact Hf.
Qed.

(** The units of the converted fuel enumeration, position by position. *)
Lemma converted_units_loop (from_units to_units : list string) :
  forall (l acc res : list string),
    for_fold l acc
      (fun acc unit =>
         if str_in unit from_units then
           i <- list_index from_units unit ;;
           to_unit <- py_index to_units i ;;
           Return (acc ++ [to_unit])
         else Return (acc ++ [unit])) = Return res ->
    exists new, res = acc ++ new /\
                Forall2 (converted_unit from_units to_units) l new.
Proof.
  induction l as [| unit l IH]; simpl; intros acc res H.
  - inversion H. exists []. split; [now rewrite app_nil_r | constructor].
  - destruct (str_in unit from_units) eqn:Hin.
    + destruct (list_index from_units unit) as [i | e |] eqn:Hi; try discriminate.
      simpl in H.
      destruct (py_index to_units i) as [t | e |] eqn:Ht; try discriminate.
      simpl in H. destruct (IH _ _ H) as (new & -> & Hnew).
      exists (t :: new). split; [now rewrite <- app_assoc |].
      constructor; [| exact Hnew]. left.
      split; [now apply str_in_In | now exists i].
    + simpl in H. destruct (IH _ _ H) as (new & -> & Hnew).
      exists (unit :: new). split; [now rewrite <- app_assoc |].
      constructor; [| exact Hnew]. right. split; [| reflexivity].
      intro Hc. apply str_in_In in Hc. congruence.
Qed.

(** What the constructor leaves in [to_enum] and [_scale_map] on a multi-fuel
    enumeration. *)
Lemma UnitConversionMap_multi_fuel_constructed (nm : string)
    (codes the_names : list string) (fe : FuelEnumeration) (fuels : list string)
    (from_units to_units : list string) (m : DimensionMap) :
  UnitConversionMap__init__ get_units str_replace str_lower factors
    (MultiFuelEndUseEnumeration nm codes the_names fe fuels)
    from_units to_units = Return m ->
  exists new_units _scale_map,
    m = UnitConversionMap (MultiFuelEndUseEnumeration nm codes the_names fe fuels)
          (MultiFuelEndUseEnumeration nm codes the_names
             (mkFuelEnumeration (fuel_enum_name fe) (fuel_ids fe) (fuel_names fe)
                new_units) fuels)
          (DictScale _scale_map) /\
    length from_units = length to_units /\
    (forall u, In u from_units -> In u (fuel_units fe)) /\
    Forall2 (converted_unit from_units to_units) (fuel_units fe) new_units /\
    (forall k f, dict_get pyid_eqb k _scale_map = Some f ->
       exists c fl u i t,
         k = IdPair c fl /\ get_units fe fl = Return u /\ In u from_units /\
         list_index from_units u = Return i /\ py_index to_units i = Return t /\
         scaling_factor factors u t = Return f) /\
    (forall c fl, In (c, fl) (combine codes fuels) ->
       exists u, get_units fe fl = Return u /\
                 (In u from_units ->
                  dict_get pyid_eqb (IdPair c fl) _scale_map <> None)).
Proof.
  intro H. unfold UnitConversionMap__init__ in H. simpl in H.
  destruct (length from_units =? length to_units)%nat eqn:Hlen; [| discriminate].
  simpl in H.
  destruct (0 <? length from_units)%nat; [| discriminate]. simpl in H.
  destruct (for_each from_units _) as [[] | e |] eqn:Hchk; try discriminate.
  simpl in H.
  destruct (for_fold (fuel_units fe) [] _) as [new_units | e |] eqn:Hunits;
    try discriminate.
  simpl in H.
  destruct (for_fold (combine codes fuels) [] _) as [sm | e |] eqn:Hloop;
    try discriminate.
  simpl in H. inversion H; subst m; clear H.
  exists new_units, sm. split; [reflexivity |].
  split; [now apply Nat.eqb_eq |]. split; [| split].
  - intros u Hu. apply (proj1 (for_each_Return _ _) Hchk) in Hu.
    unfold assert in Hu.
    destruct (str_in u (fuel_units fe)) eqn:E; [now apply str_in_In | discriminate].
  - apply converted_units_loop in Hunits. destruct Hunits as (new & -> & Hnew).
    exact Hnew.
  - pose (P := fun (pre : list (string * string)) (s : dict pyid float) =>
                 (forall k f, dict_get pyid_eqb k s = Some f ->
                    exists c fl u i t,
                      k = IdPair c fl /\ get_units fe fl = Return u /\
                      In u from_units /\ list_index from_units u = Return i /\
                      py_index to_units i = Return t /\
                      scaling_factor factors u t = Return f) /\
                 (forall c fl, In (c, fl) pre ->
                    exists u, get_units fe fl = Return u /\
                              (In u from_units ->
                               dict_get pyid_eqb (IdPair c fl) s <> None))).
    assert (HP : P ([] ++ combine codes fuels) sm).
    { eapply (@for_fold_prefix_invariant _ _ P); [| | exact Hloop].
      - intros pre s [c fl] s' [Hval Hcov] Hbody. simpl in Hbody.
        destruct (get_units fe fl) as [u | e |] eqn:Hu; try discriminate.
        simpl in Hbody.
        destruct (str_in u from_units) eqn:Hin.
        + destruct (list_index from_units u) as [i | e |] eqn:Hi; try discriminate.
          simpl in Hbody.
          destruct (py_index to_units i) as [t | e |] eqn:Ht; try discriminate.
          simpl in Hbody.
          destruct (scaling_factor factors u t) as [f | e |] eqn:Hf;
            try discriminate.
          simpl in Hbody. inversion Hbody; subst s'; clear Hbody. split.
          * intros k f0. rewrite pyid_dict_get_set.
            destruct (pyid_eqb k (IdPair c fl)) eqn:E; [| apply Hval].
            apply pyid_eqb_eq in E. intro Hk. inversion Hk; subst.
            exists c, fl, u, i, t. repeat split; auto. now apply str_in_In.
          * intros c' fl' Hpre. apply in_app_or in Hpre.
            destruct Hpre as [Hpre | [Hpre | []]].
            -- destruct (Hcov c' fl' Hpre) as (u' & Hu' & Hset).
               exists u'. split; [exact Hu' |]. intro Hin'.
               rewrite pyid_dict_get_set.
               destruct (pyid_eqb _ _); [discriminate | now apply Hset].
            -- inversion Hpre; subst. exists u. split; [exact Hu |]. intros _.
               rewrite pyid_dict_get_set, pyid_eqb_refl. discriminate.
        + inversion Hbody; subst s'; clear Hbody. split; [exact Hval |].
          intros c' fl' Hpre. apply in_app_or in Hpre.
          destruct Hpre as [Hpre | [Hpre | []]]; [now apply Hcov |].
          inversion Hpre; subst. exists u. split; [exact Hu |].
          intro Hc. apply str_in_In in Hc. congruence.
      - split; [intros k f Hk; discriminate | intros c fl []]. }
    exact HP.
Qed.

(** X19: a [UnitConversionMap] constructed on a multi-fuel enumeration scales
    an id [(code, fuel)] of [from_enum] whose fuel's unit [u] is one of
    [from_units] by [scaling_factor(u, to_units[from_units.index(u)])], and
    every id whose fuel's unit is not converted by 1.0. *)
Theorem UnitConversionMap_multi_fuel_scale :
  forall (nm : string) (codes the_names : list string) (fe : FuelEnumeration)
         (fuels from_units to_units : list string) (m : DimensionMap)
         (code fuel : string),
    UnitConversionMap__init__ get_units str_replace str_lower factors
      (MultiFuelEndUseEnumeration nm codes the_names fe fuels)
      from_units to_units = Return m ->
    In (IdPair code fuel) (ids (from_enum_of m)) ->
    exists u,
      get_units fe fuel = Return u /\
      (In u from_units ->
       exists i t f,
         list_index from_units u = Return i /\ py_index to_units i = Return t /\
         scaling_factor factors u t = Return f /\
         scale_factor m (IdPair code fuel) = f) /\
      (~ In u from_units -> scale_factor m (IdPair code fuel) = 1.0%float).
Proof.
  intros nm codes the_names fe fuels from_units to_units m code fuel Hinit Hin.
  destruct (UnitConversionMap_multi_fuel_constructed _ _ _ _ _ _ _ Hinit)
    as (new_units & sm & -> & _ & _ & _ & Hval & Hcov).
  simpl in Hin |- *. apply in_map_iff in Hin.
  destruct Hin as ([c fl] & Heq & Hin). simpl in Heq. inversion Heq; subst c fl.
  destruct (Hcov code fuel Hin) as (u & Hu & Hset).
  exists u. split; [exact Hu |]. split.
  - intro Hconv. specialize (Hset Hconv).
    destruct (dict_get pyid_eqb (IdPair code fuel) sm) as [f |] eqn:Hget;
      [| contradiction].
    destruct (Hval _ _ Hget) as (c & fl & u' & i & t & Hk & Hu' & _ & Hi & Ht & Hf).
    inversion Hk; subst c fl. rewrite Hu in Hu'. inversion Hu'; subst u'.
    now exists i, t, f.
  - intro Hnot.
    destruct (dict_get pyid_eqb (IdPair code fuel) sm) as [f |] eqn:Hget;
      [| reflexivity].
    exfalso.
    destruct (Hval _ _ Hget) as (c & fl & u' & i & t & Hk & Hu' & Hin' & _).
    inversion Hk; subst c fl. rewrite Hu in Hu'. inversion Hu'; subst u'.
    contradiction.
Qed.

(** X20: the [to_enum] of a [UnitConversionMap] constructed on a multi-fuel
    enumeration keeps the name, codes, names, fuel ids and fuels of
    [from_enum]; its fuel enumeration lists, position by position, the unit
    each converted unit is replaced by and every other unit unchanged.  The
    two unit lists have the same length and every unit to convert is a unit
    of the fuel enumeration. *)
Theorem UnitConversionMap_multi_fuel_to_enum :
  forall (nm : string) (codes the_names : list string) (fe : FuelEnumeration)
         (fuels from_units to_units : list string) (m : DimensionMap),
    UnitConversionMap__init__ get_units str_replace str_lower factors
      (MultiFuelEndUseEnumeration nm codes the_names fe fuels)
      from_units to_units = Return m ->
    exists new_units,
      to_enum_of m
      = MultiFuelEndUseEnumeration nm codes the_names
          (mkFuelEnumeration (fuel_enum_name fe) (fuel_ids fe) (fuel_names fe)
             new_units) fuels /\
      Forall2 (converted_unit from_units to_units) (fuel_units fe) new_units /\
      length from_units = length to_units /\
      (forall u, In u from_units -> In u (fuel_units fe)).
Proof.
  intros nm codes the_names fe fuels from_units to_units m Hinit.
  destruct (UnitConversionMap_multi_fuel_constructed _ _ _ _ _ _ _ Hinit)
    as (new_units & sm & -> & Hlen & Hsub & Hnew & _ & _).
  exists new_units. simpl. auto.
Qed.

End UnitConversion.

Lemma UnitConversionMap_single_fuel_witness :
  exists m,
    UnitConversionMap__init__ ex_get_units (fun s _ _ => s) (fun s => s)
      CONVERSION_FACTORS ex_singlefuel ["kWh"] ["MWh"] = Return m /\
    exists to_unit f,
      ["kWh"] = ["kWh"] /\ ["MWh"] = [to_unit] /\
      scaling_factor CONVERSION_FACTORS "kWh" to_unit = Return f /\
      to_enum_of m
      = SingleFuelEndUseEnumeration "enduses (kWh)" [IdStr "heat"; IdStr "cool"]
          ["Heating"; "Cooling"] "Electricity" to_unit /\
      forall id, scale_factor m id = f /\ DimensionMap_map m id = Return (VId id).
Proof.
  eexists. split.
  - vm_compute. reflexivity.
  - apply (@UnitConversionMap_single_fuel ex_get_units (fun s _ _ => s) (fun s => s)
             CONVERSION_FACTORS "enduses (kWh)" [IdStr "heat"; IdStr "cool"]
             ["Heating"; "Cooling"] "Electricity" "kWh" ["kWh"] ["MWh"]).
    vm_compute. reflexivity.
Defined.

Lemma UnitConversionMap_multi_fuel_scale_witness :
  exists m,
    UnitConversionMap__init__ ex_get_units (fun s _ _ => s) (fun s => s)
      CONVERSION_FACTORS ex_multifuel ["kWh"] ["MWh"] = Return m /\
    exists u,
      ex_get_units ex_fuels "elec" = Return u /\
      (In u ["kWh"] ->
       exists i t f,
         list_index ["kWh"] u = Return i /\ py_index ["MWh"] i = Return t /\
         scaling_factor CONVERSION_FACTORS u t = Return f /\
         scale_factor m (IdPair "heat" "elec") = f) /\
      (~ In u ["kWh"] -> scale_factor m (IdPair "heat" "elec") = 1.0%float).
Proof.
  eexists. split.
  - vm_compute. reflexivity.
  - apply (@UnitConversionMap_multi_fuel_scale ex_get_units (fun s _ _ => s)
             (fun s => s) CONVERSION_FACTORS "enduses" ["heat"; "heat"; "cool"]
             ["Heating"; "Heating"; "Cooling"] ex_fuels ["elec"; "gas"; "elec"]
             ["kWh"] ["MWh"]).
    + vm_compute. reflexivity.
    + simpl. left. reflexivity.
Defined.

Lemma UnitConversionMap_multi_fuel_to_enum_witness :
  exists m,
    UnitConversionMap__init__ ex_get_units (fun s _ _ => s) (fun s => s)
      CONVERSION_FACTORS ex_multifuel ["kWh"] ["MWh"] = Return m /\
    exists new_units,
      to_enum_of m
      = MultiFuelEndUseEnumeration "enduses" ["heat"; "heat"; "cool"]
          ["Heating"; "Heating"; "Cooling"]
          (mkFuelEnumeration (fuel_enum_name ex_fuels) (fuel_ids ex_fuels)
             (fuel_names ex_fuels) new_units)
          ["elec"; "gas"; "elec"] /\
      Forall2 (converted_unit ["kWh"] ["MWh"]) (fuel_units ex_fuels) new_units /\
      length ["kWh"] = length ["MWh"] /\
      (forall u, In u ["kWh"] -> In u (fuel_units ex_fuels)).
Proof.
  eexists. split.
  - vm_compute. reflexivity.
  - apply (@UnitConversionMap_multi_fuel_to_enum ex_get_units (fun s _ _ => s)
             (fun s => s) CONVERSION_FACTORS "enduses" ["heat"; "heat"; "cool"]
             ["Heating"; "Heating"; "Cooling"] ex_fuels ["elec"; "gas"; "elec"]
             ["kWh"] ["MWh"]).
    vm_compute. reflexivity.
Defined.

Section UnitConversionPaths.
Variable get_units : FuelEnumeration -> string -> result string.
Variable str_replace : string -> string -> string -> string.
Variable str_lower : string -> string.

(** X21: over a table with no zero ratio, converting a single-fuel
    enumeration from its unit to another constructs a [UnitConversionMap]
    exactly when a path of tabulated ratios joins the two units; without one
    the constructor raises the solver's [DSGridNotImplemented]. *)
Theorem UnitConversionMap_single_fuel_constructs_iff :
  forall (factors : factors_table) (nm : string) (the_ids : list pyid)
         (the_names : list string) (fuel units to_unit : string),
    nonzero_factors factors ->
    let construct :=
      UnitConversionMap__init__ get_units str_replace str_lower factors
        (SingleFuelEndUseEnumeration nm the_ids the_names fuel units)
        [units] [to_unit] in
    ((exists m, construct = Return m) <-> connected factors units to_unit) /\
    (~ connected factors units to_unit ->
     construct = Raise (DSGridNotImplemented (no_conversion_message units to_unit))).
Proof.
  intros factors nm the_ids the_names fuel units to_unit Hnz construct.
  subst construct. unfold UnitConversionMap__init__. simpl.
  rewrite String.eqb_refl. simpl. split; [split |].
  - intros [m Hm].
    destruct (scaling_factor factors units to_unit) as [f | e |] eqn:Hf;
      try discriminate.
    apply (scaling_factor_Return_iff units to_unit Hnz). now exists f.
  - intro Hconn.
    apply (scaling_factor_Return_iff units to_unit Hnz) in Hconn.
    destruct Hconn as [f Hf]. rewrite Hf. simpl. eauto.
  - intro Hno. now rewrite (scaling_factor_unreachable Hnz Hno).
Qed.

End UnitConversionPaths.

Lemma UnitConversionMap_single_fuel_constructs_iff_witness :
  let construct :=
    UnitConversionMap__init__ ex_get_units (fun s _ _ => s) (fun s => s)
      CONVERSION_FACTORS ex_singlefuel ["kWh"] ["Joules"] in
  ((exists m, construct = Return m) <-> connected CONVERSION_FACTORS "kWh" "Joules") /\
  (~ connected CONVERSION_FACTORS "kWh" "Joules" ->
   construct = Raise (DSGridNotImplemented (no_conversion_message "kWh" "Joules"))).
Proof.
  apply (@UnitConversionMap_single_fuel_constructs_iff ex_get_units
           (fun s _ _ => s) (fun s => s) CONVERSION_FACTORS "enduses (kWh)"
           [IdStr "heat"; IdStr "cool"] ["Heating"; "Cooling"] "Electricity"
           "kWh" "Joules").
  exact CONVERSION_FACTORS_nonzero.
Defined.

(** ** The value the solver returns *)

Lemma dict_set_In {K V : Type} (eqb : K -> K -> bool)
    (eqb_eq : forall a b, eqb a b = true <-> a = b)
    (k k0 : K) (v v0 : V) (d : dict K V) :
  In (k0, v0) (dict_set eqb k v d) -> (k0 = k /\ v0 = v) \/ In (k0, v0) d.
Proof.
  induction d as [| [k1 v1] rest IH]; simpl.
  - intros [H | []]. inversion H. now left.
  - destruct (eqb k k1) eqn:E; simpl.
    + apply eqb_eq in E. subst k1. intros [H | H].
      * inversion H. now left.
      * right. now right.
    + intros [H | H]; [right; now left |].
      destruct (IH H) as [Hl | Hr]; [now left | right; now right].
Qed.

Section DerivedValues.
Variable factors : factors_table.

Lemma get_all_factors_values (to_unit : string) (multiplier : option float)
    (res : factors_table) :
  _get_all_factors to_unit factors multiplier = Return res ->
  forall k v, In (k, v) res ->
    snd k = to_unit /\
    exists r, step_ratio factors (fst k) to_unit r /\
              v = match multiplier with
                  | None => r
                  | Some m => (r * m)%float
                  end.
Proof.
  unfold _get_all_factors. intro H.
  destruct (for_fold factors [] (collect_factor to_unit)) as [r0 | e |] eqn:Hloop;
    try discriminate.
  simpl in H.
  assert (Hr0 : forall k v, In (k, v) r0 ->
                  snd k = to_unit /\ step_ratio factors (fst k) to_unit v).
  { eapply (@for_fold_invariant _ _
              (fun s : factors_table =>
                 forall k v, In (k, v) s ->
                   snd k = to_unit /\ step_ratio factors (fst k) to_unit v));
      [| | exact Hloop].
    - intros s [[x y] g] s' Hitem Hs Hbody k v Hin.
      unfold collect_factor in Hbody.
      assert (Hs1 : forall k v,
                In (k, v) (if String.eqb y to_unit
                           then dict_set key_eqb (x, y) g s else s) ->
                snd k = to_unit /\ step_ratio factors (fst k) to_unit v).
      { destruct (String.eqb y to_unit) eqn:Ey; [| exact Hs].
        apply String.eqb_eq in Ey. subst y. intros k1 v1 H1.
        apply (@dict_set_In _ _ _ key_eqb_eq) in H1.
        destruct H1 as [[-> ->] | H1]; [| now apply Hs].
        split; [reflexivity | now apply ratio_forward]. }
      destruct (String.eqb x to_unit) eqn:Ex.
      + unfold float_inverse in Hbody.
        destruct (PrimFloat.eqb g 0) eqn:Hg; [discriminate |].
        simpl in Hbody. inversion Hbody; subst s'; clear Hbody.
        apply String.eqb_eq in Ex. subst x.
        apply (@dict_set_In _ _ _ key_eqb_eq) in Hin.
        destruct Hin as [[-> ->] | Hin]; [| now apply Hs1].
        split; [reflexivity | now apply ratio_backward].
      + inversion Hbody; subst s'. now apply Hs1.
    - intros k v []. }
  intros k v Hin. destruct multiplier as [m |]; inversion H; subst res; clear H.
  - apply in_map_iff in Hin. destruct Hin as ([k0 v0] & Heq & Hin0).
    simpl in Heq. inversion Heq; subst k v.
    destruct (Hr0 _ _ Hin0) as [Hk Hstep]. split; [exact Hk | now exists v0].
  - destruct (Hr0 _ _ Hin) as [Hk Hstep]. split; [exact Hk | now exists v].
Qed.

Variable to_unit : string.

Lemma add_candidates_derived (candidates : factors_table)
    (st : factors_table * bool) :
  derived_pairs factors to_unit (fst st) ->
  (forall cand, In cand candidates ->
     derived_factor factors to_unit (fst (fst cand)) (snd cand)) ->
  derived_pairs factors to_unit (fst (add_candidates to_unit candidates st)).
Proof.
  unfold add_candidates. revert st.
  induction candidates as [| cand rest IH]; intros st Hst Hc; simpl; [exact Hst |].
  apply IH; [| intros c Hin; apply Hc; now right].
  unfold add_candidate.
  destruct (dict_mem key_eqb (fst (fst cand), to_unit) (fst st)); [exact Hst |].
  simpl. intros k v Hin. apply (@dict_set_In _ _ _ key_eqb_eq) in Hin.
  destruct Hin as [[-> ->] | Hin]; [| now apply Hst].
  split; [reflexivity |]. simpl. apply Hc. now left.
Qed.

Lemma expand_pass_derived (these_factors : factors_table)
    (st : factors_table * bool) :
  expand_pass factors to_unit these_factors = Return st ->
  derived_pairs factors to_unit these_factors -> derived_pairs factors to_unit (fst st).
Proof.
  unfold expand_pass. intros Hpass Htf.
  eapply (@for_fold_invariant _ _
            (fun s : factors_table * bool => derived_pairs factors to_unit (fst s)));
    [| | exact Hpass]; [| exact Htf].
  intros s [a_key factor] s' Hitem Hs Hbody. unfold expand_step in Hbody.
  simpl in Hbody.
  destruct (_get_all_factors (fst a_key) factors (Some factor))
    as [candidates | e |] eqn:Hc; try discriminate.
  simpl in Hbody. inversion Hbody; subst s'; clear Hbody.
  apply add_candidates_derived; [exact Hs |].
  intros [b_key val] Hcand. simpl.
  destruct (get_all_factors_values _ _ Hc _ _ Hcand) as [_ (r & Hstep & ->)].
  apply derived_chain with (fst a_key); [exact Hstep |].
  now apply (Htf a_key factor).
Qed.

Lemma expand_loop_derived (from_unit : string) (v : float) :
  forall (passes : nat) (these_factors : factors_table),
    derived_pairs factors to_unit these_factors ->
    expand_loop passes factors from_unit to_unit these_factors = Return v ->
    derived_factor factors to_unit from_unit v.
Proof.
  induction passes as [| passes IH]; intros tf Htf Hrun; [discriminate |].
  simpl in Hrun.
  destruct (expand_pass factors to_unit tf) as [st | e |] eqn:Hpass;
    simpl in Hrun; try discriminate.
  pose proof (expand_pass_derived Hpass Htf) as Hst.
  destruct (dict_get key_eqb (from_unit, to_unit) (fst st)) as [w |] eqn:Hget.
  - inversion Hrun; subst w.
    apply (@dict_get_In _ _ _ key_eqb_eq) in Hget. now apply Hst in Hget.
  - destruct (snd st); [now apply (IH (fst st)) | discriminate].
Qed.

End DerivedValues.

(** X22: a factor [scaling_factor] returns is derived along a path from
    [from_unit] to [to_unit]: it is the ratio of one step (a tabulated ratio,
    or [1.0 / f] for a non-zero ratio [f] tabulated the other way round), or
    the ratio of a first step times the factor derived from the unit the step
    leads to. *)
Theorem scaling_factor_value_derived :
  forall (factors : factors_table) (from_unit to_unit : string) (v : float),
    scaling_factor factors from_unit to_unit = Return v ->
    derived_factor factors to_unit from_unit v.
Proof.
  intros factors from_unit to_unit v H.
  unfold scaling_factor, scaling_factor_passes in H.
  destruct (_get_all_factors to_unit factors None) as [tf | e |] eqn:Hinit;
    try discriminate.
  cbn [bind] in H.
  assert (Htf : derived_pairs factors to_unit tf).
  { intros k w Hin.
    destruct (@get_all_factors_values _ _ _ _ Hinit _ _ Hin) as [Hk (r & Hstep & ->)].
    split; [exact Hk | now apply derived_direct]. }
  destruct (dict_get key_eqb (from_unit, to_unit) tf) as [w |] eqn:Hget.
  - inversion H; subst w.
    apply (@dict_get_In _ _ _ key_eqb_eq) in Hget. now apply Htf in Hget.
  - exact (@expand_loop_derived factors to_unit from_unit v _ tf Htf H).
Qed.

Lemma scaling_factor_value_derived_witness :
  derived_factor CONVERSION_FACTORS "GWh" "kWh" 1.0e-6%float.
Proof.
  apply (@scaling_factor_value_derived CONVERSION_FACTORS "kWh" "GWh" 1.0e-6%float).
  vm_compute. reflexivity.
Defined.

(** ** Re-adding a mapping *)

Lemma dict_set_in_place {K V : Type} (eqb : K -> K -> bool)
    (eqb_eq : forall a b, eqb a b = true <-> a = b)
    (k : K) (v old : V) (before after : dict K V) :
  ~ In k (dict_keys before) ->
  dict_set eqb k v (before ++ (k, old) :: after) = before ++ (k, v) :: after.
Proof.
  induction before as [| [k1 v1] rest IH]; simpl; intro Hnot.
  - now rewrite (proj2 (eqb_eq k k) eq_refl).
  - destruct (eqb k k1) eqn:E.
    + apply eqb_eq in E. subst k1. exfalso. apply Hnot. now left.
    + rewrite IH; [reflexivity |]. intro H. apply Hnot. now right.
Qed.

Section ReAdd.
Variable enum_eq : Enumeration -> Enumeration -> bool.
Variable is_subset : Enumeration -> Enumeration -> bool.

(** X23: a mapping added again under a key the registry already holds takes
    the place of the mapping it replaces, not the end of the registry: in the
    fallback scan it is still found ahead of every mapping added after the
    key was first added. *)
Theorem add_mapping_keeps_place :
  forall (before after : dict key DimensionMap) (old mapping : DimensionMap)
         (datafile : Datafile) (to_enum from_enum : Enumeration),
    let k := (name (from_enum_of mapping), name (to_enum_of mapping)) in
    let self := add_mapping (before ++ (k, old) :: after) mapping in
    ~ In k (dict_keys before) ->
    select_from_enum datafile to_enum = Return from_enum ->
    name (to_enum_of mapping) = name to_enum ->
    name (from_enum_of mapping) <> name from_enum ->
    (forall k', In k' (dict_keys (before ++ after)) ->
                k' <> (name from_enum, name to_enum)) ->
    enum_eq from_enum to_enum = false -> is_subset from_enum to_enum = false ->
    covers from_enum mapping ->
    (forall k' c', In (k', c') before -> snd k' = name to_enum ->
                   ~ covers from_enum c') ->
    self = before ++ (k, mapping) :: after /\
    get_mapping enum_eq is_subset self datafile to_enum = Return (Some mapping).
Proof.
  intros before after old mapping datafile to_enum from_enum k self
         Hnot Hsel Hto Hfrom Hkeys Heq Hsub Hcov Hbefore.
  assert (Hself : self = before ++ (k, mapping) :: after).
  { subst self. unfold add_mapping. fold k.
    now apply (dict_set_in_place key_eqb key_eqb_eq). }
  split; [exact Hself |].
  unfold get_mapping. rewrite Hsel. simpl.
  assert (Hget : dict_get key_eqb (name from_enum, name to_enum) self = None).
  { apply (@dict_get_None _ _ _ key_eqb_eq). rewrite Hself.
    unfold dict_keys. rewrite map_app. simpl. intro Hin.
    apply in_app_or in Hin. destruct Hin as [Hin | [Hin | Hin]].
    - apply (Hkeys (name from_enum, name to_enum)); [| reflexivity].
      unfold dict_keys. rewrite map_app. apply in_or_app. now left.
    - subst k. inversion Hin. congruence.
    - apply (Hkeys (name from_enum, name to_enum)); [| reflexivity].
      unfold dict_keys. rewrite map_app. apply in_or_app. now right. }
  rewrite Hget, Heq, Hsub. f_equal.
  rewrite Hself, filter_app, map_app. simpl.
  subst k. simpl. rewrite Hto, String.eqb_refl. simpl.
  rewrite first_okay_candidate_skip.
  - simpl. apply candidate_okay_covers in Hcov. now rewrite Hcov.
  - intros c Hc. apply candidates_of in Hc. destruct Hc as (k' & Hin & Hk').
    now apply (Hbefore k').
Qed.

End ReAdd.

Lemma add_mapping_keeps_place_witness :
  let mapping := FullAggregationMap ex_states ex_conus (IdStr "conus") [IdStr "HI"] in
  let old := FullAggregationMap ex_states ex_conus (IdStr "conus") [] in
  let other := FullAggregationMap ex_states_all ex_conus (IdStr "conus") [] in
  let self :=
    add_mapping ([] ++ (("states", "conus"), old) :: [(("states_all", "conus"), other)])
      mapping in
  self = [] ++ (("states", "conus"), mapping) :: [(("states_all", "conus"), other)] /\
  get_mapping (fun _ _ => false) (fun _ _ => false) self ex_datafile ex_conus
  = Return (Some mapping).
Proof.
  apply (@add_mapping_keeps_place (fun _ _ => false) (fun _ _ => false) []
           [(("states_all", "conus"),
             FullAggregationMap ex_states_all ex_conus (IdStr "conus") [])]
           (FullAggregationMap ex_states ex_conus (IdStr "conus") [])
           (FullAggregationMap ex_states ex_conus (IdStr "conus") [IdStr "HI"])
           ex_datafile ex_conus ex_conus_states).
  - simpl. tauto.
  - reflexivity.
  - reflexivity.
  - discriminate.
  - simpl. intros k' [<- | []]. discriminate.
  - reflexivity.
  - reflexivity.
  - intros id [<- | []]. simpl. now left.
  - intros k' c' [].
Defined.
